(** * YouTube Automation Studio: proxy routes, workflow runner, persistence

  A shallow embedding of the three route handlers
  ([app/api/youtube/{channel,search,comments}/route.ts]) and of the
  client page ([app/page.tsx]): the workflow runner [runWorkflow] and the
  [localStorage] helpers.

  Conventions of the embedding.
  - A JavaScript string is the [string] of its UTF-8 bytes; [js_length]
    counts its UTF-16 code units, which is the [.length] of the source.
    A lone surrogate, which UTF-8 does not have, is the three bytes of its
    generalised form.
  - A value that may be [undefined] or [null] is an [option]; optional
    chaining [a?.b] is the bind of [option] and [a ?? b] is [default b a].
  - A promise that may reject is a sum: the thrown value or the result.
  - Bodies received from the network are taken at the TypeScript type the
    source casts them to.
  - [JSON.stringify], [JSON.parse] and the part of zod the routes call
    are platform code: modules [JSON] and [Zod] model them. *)

From stdpp Require Import base strings gmap list option pretty.

Open Scope Z_scope.
Open Scope string_scope.
Set Warnings "-register-all".

(** ** JavaScript values and the few operators the source relies on *)

Module Js.

(** A JavaScript number. An integer that a double holds exactly is
    [Num]; any other number is kept as a numeral that denotes it,
    [Number(s)]: no property below computes with one. *)
Inductive number :=
| Num (n : Z)
| NumberOfString (s : string).

(** What [JSON.parse] and [request.json()] produce. An object is a
    list of its own properties; [get] reads the first binding. *)
Inductive value :=
| VNull
| VBool (b : bool)
| VNumber (n : number)
| VString (s : string)
| VArray (items : list value)
| VObject (fields : list (string * value)).

Fixpoint assoc {A} (k : string) (l : list (string * A)) : option A :=
  match l with
  | [] => None
  | (k', v) :: l => if decide (k' = k) then Some v else assoc k l
  end.

(** [data[key]] for an object [data]; [None] is [undefined]. *)
Definition get (k : string) (v : value) : option value :=
  match v with
  | VObject fields => assoc k fields
  | _ => None
  end.

(** UTF-16 code units contributed by one byte of well-formed UTF-8: a
    continuation byte adds none, the lead byte of a four-byte sequence
    adds a surrogate pair. *)
Definition code_units (c : Ascii.ascii) : nat :=
  let n := Ascii.nat_of_ascii c in
  if (n <? 128)%nat then 1%nat
  else if (n <? 192)%nat then 0%nat
  else if (n <? 240)%nat then 1%nat
  else 2%nat.

(** [s.length] *)
Fixpoint js_length (s : string) : nat :=
  match s with
  | EmptyString => 0%nat
  | String c s => (code_units c + js_length s)%nat
  end.

(** [a ?? b] when [b] may itself be missing. *)
Definition orElse {A} (a b : option A) : option A :=
  match a with
  | Some _ => a
  | None => b
  end.

(** Values thrown inside the handlers. *)
Inductive exn :=
| ZodError (errors : list string)
| Error (message : string).

(** Settled promise: rejected with an [Error] or resolved. *)
Inductive outcome (A : Type) :=
| Rejects (message : string)
| Resolves (a : A).
Global Arguments Rejects {A} message.
Global Arguments Resolves {A} a.

End Js.

Notation "a ?? b" := (default b a) (at level 61, left associativity).
Notation "a ?| b" := (Js.orElse a b) (at level 61, left associativity).
Notation "a ?. f" := (mbind (M:=option) f a) (at level 59, left associativity).

(** ** JSON text: [JSON.stringify] and [JSON.parse]

    The text is handled byte by byte. [parse] accepts the texts of the
    JSON grammar and no other. It reads an integer numeral of magnitude
    up to 2^53 as that integer and keeps any other numeral as its text.
    [stringify] prints such a numeral as it was read, where JavaScript
    prints the shortest numeral of the same number; it prints the bytes of
    a lone surrogate, where JavaScript prints its [\u] escape; and it
    prints the members of an object in the order of the list, where
    JavaScript puts integer keys first. The page stringifies strings and
    workflow lists only. *)

Module JSON.
Import Js.

Definition char (n : N) : Ascii.ascii := Ascii.ascii_of_N n.
Definition code (c : Ascii.ascii) : N := Ascii.N_of_ascii c.

Definition quote : Ascii.ascii := char 34.
Definition backslash : Ascii.ascii := char 92.

(** Lowercase hexadecimal digit of [n < 16]. *)
Definition hex_digit (n : N) : Ascii.ascii :=
  if (n <? 10)%N then char (48 + n) else char (87 + n).

(** QuoteJSONString, one character at a time. *)
Definition escape_char (c : Ascii.ascii) : string :=
  let n := code c in
  if (n =? 34)%N then String backslash (String quote EmptyString)
  else if (n =? 92)%N then String backslash (String backslash EmptyString)
  else if (n =? 8)%N then String backslash "b"
  else if (n =? 12)%N then String backslash "f"
  else if (n =? 10)%N then String backslash "n"
  else if (n =? 13)%N then String backslash "r"
  else if (n =? 9)%N then String backslash "t"
  else if (n <? 32)%N then
    String backslash
      ("u00" +:+ String (hex_digit (n / 16)) (String (hex_digit (n mod 16)) EmptyString))
  else String c EmptyString.

Fixpoint escape (s : string) : string :=
  match s with
  | EmptyString => EmptyString
  | String c s => escape_char c +:+ escape s
  end.

Definition quoted (s : string) : string :=
  String quote (escape s +:+ String quote EmptyString).

Fixpoint join (sep : string) (l : list string) : string :=
  match l with
  | [] => EmptyString
  | [x] => x
  | x :: l => x +:+ sep +:+ join sep l
  end.

Definition member (stringify : value -> string) (kv : string * value) : string :=
  quoted kv.1 +:+ ":" +:+ stringify kv.2.

(** [JSON.stringify(v)] *)
Fixpoint stringify (v : value) : string :=
  match v with
  | VNull => "null"
  | VBool true => "true"
  | VBool false => "false"
  | VNumber (Num n) => pretty n
  | VNumber (NumberOfString numeral) => numeral
  | VString s => quoted s
  | VArray l => "[" +:+ join "," (map stringify l) +:+ "]"
  | VObject fields => "{" +:+ join "," (map (member stringify) fields) +:+ "}"
  end.

Definition is_ws (c : Ascii.ascii) : bool :=
  let n := code c in
  (n =? 32)%N || (n =? 9)%N || (n =? 10)%N || (n =? 13)%N.

Fixpoint skip_ws (s : string) : string :=
  match s with
  | String c s' => if is_ws c then skip_ws s' else s
  | EmptyString => EmptyString
  end.

Definition hex_value (c : Ascii.ascii) : option N :=
  let n := code c in
  if (48 <=? n)%N && (n <=? 57)%N then Some (n - 48)%N
  else if (97 <=? n)%N && (n <=? 102)%N then Some (n - 87)%N
  else if (65 <=? n)%N && (n <=? 70)%N then Some (n - 55)%N
  else None.

(** UTF-8 bytes of a code point; a surrogate takes the three bytes of the
    generalised form. *)
Definition utf8 (cp : N) : string :=
  if (cp <? 128)%N then String (char cp) EmptyString
  else if (cp <? 2048)%N then
    String (char (192 + cp / 64)) (String (char (128 + cp mod 64)) EmptyString)
  else if (cp <? 65536)%N then
    String (char (224 + cp / 4096))
      (String (char (128 + (cp / 64) mod 64))
         (String (char (128 + cp mod 64)) EmptyString))
  else
    String (char (240 + cp / 262144))
      (String (char (128 + (cp / 4096) mod 64))
         (String (char (128 + (cp / 64) mod 64))
            (String (char (128 + cp mod 64)) EmptyString))).

Definition unescape (e : Ascii.ascii) : option Ascii.ascii :=
  let n := code e in
  if (n =? 34)%N then Some quote
  else if (n =? 92)%N then Some backslash
  else if (n =? 47)%N then Some (char 47)
  else if (n =? 98)%N then Some (char 8)
  else if (n =? 102)%N then Some (char 12)
  else if (n =? 110)%N then Some (char 10)
  else if (n =? 114)%N then Some (char 13)
  else if (n =? 116)%N then Some (char 9)
  else None.

(** The code unit written by four hexadecimal digits. *)
Definition hex4 (h1 h2 h3 h4 : Ascii.ascii) : option N :=
  a ← hex_value h1; b ← hex_value h2; c ← hex_value h3; d ← hex_value h4;
  Some (4096 * a + 256 * b + 16 * c + d)%N.

Definition high_surrogate (u : N) : bool := (55296 <=? u)%N && (u <? 56320)%N.
Definition low_surrogate (u : N) : bool := (56320 <=? u)%N && (u <? 57344)%N.

(** The code point of a surrogate pair. *)
Definition surrogate_pair (hi lo : N) : N :=
  (65536 + (hi - 55296) * 1024 + (lo - 56320))%N.

(** The characters of a string literal after its opening quote, and what
    follows the closing quote. A [\u] escape of a high surrogate that is
    followed by the escape of a low surrogate makes one code point with
    it. *)
Fixpoint parse_chars (s : string) : option (string * string) :=
  match s with
  | EmptyString => None
  | String c s' =>
      if (code c =? 34)%N then Some (EmptyString, s')
      else if (code c =? 92)%N then
        match s' with
        | EmptyString => None
        | String e s'' =>
            if (code e =? 117)%N then
              match s'' with
              | String h1 (String h2 (String h3 (String h4 s5))) =>
                  u ← hex4 h1 h2 h3 h4;
                  if high_surrogate u then
                    match s5 with
                    | String b (String e' (String g1 (String g2 (String g3 (String g4 s11))))) =>
                        match (if (code b =? 92)%N && (code e' =? 117)%N
                               then hex4 g1 g2 g3 g4 else None) with
                        | Some lo =>
                            if low_surrogate lo then
                              '(str, rest) ← parse_chars s11;
                              Some (utf8 (surrogate_pair u lo) +:+ str, rest)
                            else
                              '(str, rest) ← parse_chars s5;
                              Some (utf8 u +:+ str, rest)
                        | None =>
                            '(str, rest) ← parse_chars s5;
                            Some (utf8 u +:+ str, rest)
                        end
                    | _ =>
                        '(str, rest) ← parse_chars s5;
                        Some (utf8 u +:+ str, rest)
                    end
                  else
                    '(str, rest) ← parse_chars s5;
                    Some (utf8 u +:+ str, rest)
              | _ => None
              end
            else
              ch ← unescape e;
              '(str, rest) ← parse_chars s'';
              Some (String ch str, rest)
        end
      else if (code c <? 32)%N then None
      else
        '(str, rest) ← parse_chars s';
        Some (String c str, rest)
  end.

Definition is_digit (s : string) : bool :=
  match s with
  | String c _ => (48 <=? code c)%N && (code c <=? 57)%N
  | EmptyString => false
  end.

(** The digits at the head of [s], and what follows them. *)
Fixpoint span_digits (s : string) : string * string :=
  match s with
  | String c s' =>
      if is_digit s then let '(d, r) := span_digits s' in (String c d, r)
      else (EmptyString, s)
  | EmptyString => (EmptyString, s)
  end.

(** The integer written by a string of digits. *)
Fixpoint digits_value (d : string) (acc : Z) : Z :=
  match d with
  | String c d' => digits_value d' (10 * acc + (Z.of_N (code c) - 48))
  | EmptyString => acc
  end.

(** [int] of the grammar: a single 0, or a digit from 1 to 9 and the
    digits after it. A zero is never followed by a digit of the same
    numeral. *)
Definition parse_int (s : string) : option (string * string) :=
  match s with
  | String c s' =>
      if (code c =? 48)%N then Some (String c EmptyString, s')
      else if is_digit s then Some (span_digits s)
      else None
  | EmptyString => None
  end.

(** [frac]: nothing, or a point and at least one digit. *)
Definition parse_frac (s : string) : option (string * string) :=
  match s with
  | String c s' =>
      if (code c =? 46)%N then
        if is_digit s' then let '(d, r) := span_digits s' in Some (String c d, r)
        else None
      else Some (EmptyString, s)
  | EmptyString => Some (EmptyString, s)
  end.

(** [exp]: nothing, or e or E, an optional sign and at least one digit. *)
Definition parse_exp (s : string) : option (string * string) :=
  match s with
  | String c s' =>
      if (code c =? 101)%N || (code c =? 69)%N then
        let '(sign, s'') :=
          match s' with
          | String g r =>
              if (code g =? 43)%N || (code g =? 45)%N then (String g EmptyString, r)
              else (EmptyString, s')
          | EmptyString => (EmptyString, s')
          end in
        if is_digit s'' then
          let '(d, r) := span_digits s'' in Some (String c (sign +:+ d), r)
        else None
      else Some (EmptyString, s)
  | EmptyString => Some (EmptyString, s)
  end.

(** A number at the head of [s]: an optional minus, [int], [frac], [exp].
    An integer numeral of magnitude up to 2^53 is that integer; any other
    numeral is kept as written. *)
Definition parse_number (s : string) : option (number * string) :=
  let '(minus, s0) :=
    match s with
    | String c r => if (code c =? 45)%N then (true, r) else (false, s)
    | EmptyString => (false, s)
    end in
  '(int, s1) ← parse_int s0;
  '(frac, s2) ← parse_frac s1;
  '(exp, s3) ← parse_exp s2;
  let n := digits_value int 0 in
  if bool_decide (frac = EmptyString /\ exp = EmptyString /\ n <= 2 ^ 53)
  then Some (Num (if minus then - n else n), s3)
  else Some (NumberOfString ((if minus then "-" else EmptyString) +:+ int +:+ frac +:+ exp), s3).

(** What follows the literal [p] at the head of [s]. *)
Fixpoint strip_prefix (p s : string) : option string :=
  match p, s with
  | EmptyString, _ => Some s
  | String a p, String b s => if Ascii.eqb a b then strip_prefix p s else None
  | String _ _, EmptyString => None
  end.

(** [obj[k] = v] while an object is being built: a repeated key keeps
    its place and takes the new value. *)
Fixpoint set_field (k : string) (v : value) (l : list (string * value))
  : list (string * value) :=
  match l with
  | [] => [(k, v)]
  | (k', v') :: l => if decide (k' = k) then (k, v) :: l else (k', v') :: set_field k v l
  end.

Definition build_object (fields : list (string * value)) : value :=
  VObject (foldl (fun acc kv => set_field kv.1 kv.2 acc) [] fields).

(** Recursive descent; [fuel] bounds the nesting and is at most the
    length of the text. *)
Fixpoint parse_value (fuel : nat) (s : string) : option (value * string) :=
  match fuel with
  | O => None
  | S fuel =>
      match skip_ws s with
      | EmptyString => None
      | String c rest =>
          let n := code c in
          if (n =? 110)%N then r ← strip_prefix "ull" rest; Some (VNull, r)
          else if (n =? 116)%N then r ← strip_prefix "rue" rest; Some (VBool true, r)
          else if (n =? 102)%N then r ← strip_prefix "alse" rest; Some (VBool false, r)
          else if (n =? 34)%N then '(str, r) ← parse_chars rest; Some (VString str, r)
          else if (n =? 91)%N then
            match skip_ws rest with
            | String c' rest' =>
                if (code c' =? 93)%N then Some (VArray [], rest')
                else '(l, r) ← parse_elements fuel rest; Some (VArray l, r)
            | EmptyString => None
            end
          else if (n =? 123)%N then
            match skip_ws rest with
            | String c' rest' =>
                if (code c' =? 125)%N then Some (VObject [], rest')
                else '(l, r) ← parse_members fuel rest; Some (build_object l, r)
            | EmptyString => None
            end
          else if (n =? 45)%N || is_digit (String c rest) then
            '(x, r) ← parse_number (String c rest); Some (VNumber x, r)
          else None
      end
  end
with parse_elements (fuel : nat) (s : string) : option (list value * string) :=
  match fuel with
  | O => None
  | S fuel =>
      '(v, r) ← parse_value fuel s;
      match skip_ws r with
      | String c r' =>
          if (code c =? 44)%N then '(l, r'') ← parse_elements fuel r'; Some (v :: l, r'')
          else if (code c =? 93)%N then Some ([v], r')
          else None
      | EmptyString => None
      end
  end
with parse_members (fuel : nat) (s : string) : option (list (string * value) * string) :=
  match fuel with
  | O => None
  | S fuel =>
      match skip_ws s with
      | String q s1 =>
          if (code q =? 34)%N then
            '(k, s2) ← parse_chars s1;
            match skip_ws s2 with
            | String colon s3 =>
                if (code colon =? 58)%N then
                  '(v, r) ← parse_value fuel s3;
                  match skip_ws r with
                  | String c r' =>
                      if (code c =? 44)%N then
                        '(l, r'') ← parse_members fuel r'; Some ((k, v) :: l, r'')
                      else if (code c =? 125)%N then Some ([(k, v)], r')
                      else None
                  | EmptyString => None
                  end
                else None
            | EmptyString => None
            end
          else None
      | EmptyString => None
      end
  end.

(** [JSON.parse(text)]: one value, then nothing but white space. The two
    messages stand for those of the SyntaxError; no caller reads them. *)
Definition parse (text : string) : outcome value :=
  match parse_value (S (String.length text)) text with
  | Some (v, rest) =>
      match skip_ws rest with
      | EmptyString => Resolves v
      | _ => Rejects "Unexpected non-whitespace character after JSON"
      end
  | None => Rejects "Unexpected token in JSON"
  end.

(** Values without numbers whose objects have distinct keys. *)
Inductive plain : value -> Prop :=
| plain_null : plain VNull
| plain_bool b : plain (VBool b)
| plain_string s : plain (VString s)
| plain_array l : Forall plain l -> plain (VArray l)
| plain_object fields :
    NoDup fields.*1 -> Forall (fun kv => plain kv.2) fields -> plain (VObject fields).

(** The characters a printed plain value can start with: n, t, f, a
    quote, an opening bracket or an opening brace. *)
Definition opener (c : Ascii.ascii) : Prop :=
  code c ∈ [110; 116; 102; 34; 91; 123]%N.

(** A value whose text is read back, whatever follows it. *)
Definition reads_back (v : value) : Prop :=
  forall fuel rest,
    (String.length (stringify v) <= fuel)%nat ->
    parse_value fuel (stringify v +:+ rest) = Some (v, rest).

(** Induction on values, with the hypothesis for every element of an
    array and every member of an object. *)
Fixpoint value_ind_nested (P : value -> Prop)
    (Hnull : P VNull) (Hbool : forall b, P (VBool b))
    (Hnumber : forall n, P (VNumber n)) (Hstring : forall s, P (VString s))
    (Harray : forall l, Forall P l -> P (VArray l))
    (Hobject : forall fields, Forall (fun kv => P kv.2) fields -> P (VObject fields))
    (v : value) : P v :=
  let rec := value_ind_nested P Hnull Hbool Hnumber Hstring Harray Hobject in
  match v with
  | VNull => Hnull
  | VBool b => Hbool b
  | VNumber n => Hnumber n
  | VString s => Hstring s
  | VArray l =>
      Harray l ((fix go l : Forall P l :=
                   match l with
                   | [] => Forall_nil_2 P
                   | x :: l' => Forall_cons_2 P x l' (rec x) (go l')
                   end) l)
  | VObject fields =>
      Hobject fields ((fix go l : Forall (fun kv => P kv.2) l :=
                         match l with
                         | [] => Forall_nil_2 _
                         | (k, x) :: l' => Forall_cons_2 _ (k, x) l' (rec x) (go l')
                         end) fields)
  end.

End JSON.

(** ** The part of zod the routes use *)

Module Zod.
Import Js.

(** [z.string().min(n, message)] *)
Record ZodString := z_string_min { minLength : nat; minMessage : string }.

(** [z.object({ k1: s1, k2: s2 })] *)
Record ZodObject := z_object {
  key1 : string; schema1 : ZodString;
  key2 : string; schema2 : ZodString
}.

(** zod's [getParsedType], as the name printed in messages. *)
Definition getParsedType (input : option value) : string :=
  match input with
  | None => "undefined"
  | Some VNull => "null"
  | Some (VBool _) => "boolean"
  | Some (VNumber _) => "number"
  | Some (VString _) => "string"
  | Some (VArray _) => "array"
  | Some (VObject _) => "object"
  end.

(** The default error map for an [invalid_type] issue. *)
Definition invalid_type (expected : string) (input : option value) : string :=
  match input with
  | None => "Required"
  | Some _ => "Expected " +:+ expected +:+ ", received " +:+ getParsedType input
  end.

(** [ZodString._parse]: the issues raised, and the string when the input
    is one. A failed [min] check adds the custom message. *)
Definition parse_string (s : ZodString) (input : option value)
  : list string * option string :=
  match input with
  | Some (VString x) =>
      (if decide (js_length x < minLength s)%nat then [minMessage s] else [], Some x)
  | _ => ([invalid_type "string" input], None)
  end.

(** [schema.parse(payload)]: the keys are visited in the order of the
    shape, all issues are collected, and any issue throws a ZodError. *)
Definition parse (schema : ZodObject) (payload : value) : exn + (string * string) :=
  match payload with
  | VObject _ =>
      let '(issues1, r1) := parse_string (schema1 schema) (get (key1 schema) payload) in
      let '(issues2, r2) := parse_string (schema2 schema) (get (key2 schema) payload) in
      match (issues1 ++ issues2)%list, r1, r2 with
      | [], Some x1, Some x2 => inr (x1, x2)
      | issues, _, _ => inl (ZodError issues)
      end
  | _ => inl (ZodError [invalid_type "object" (Some payload)])
  end.

End Zod.

(** ** HTTP as the handlers see it *)

Module Http.
Import Js.

(** [new URL(endpoint)] with its search parameters in order. *)
Record URL := mkURL { href : string; searchParams : list (string * string) }.

(** [url.searchParams.set(name, v)] *)
Fixpoint set_assoc (name v : string) (l : list (string * string)) : list (string * string) :=
  match l with
  | [] => [(name, v)]
  | (k, w) :: l => if decide (k = name) then (name, v) :: l else (k, w) :: set_assoc name v l
  end.

Definition searchParams_set (name v : string) (url : URL) : URL :=
  {| href := href url; searchParams := set_assoc name v (searchParams url) |}.

(** An incoming request: only [request.json()] is used. *)
Record Request := mkRequest { request_json : outcome value }.

(** A fetched response with a body that parses (or not) to [B]. *)
Record Response (B : Type) := mkResponse { status : Z; json : outcome B }.
Global Arguments mkResponse {B} status json.
Global Arguments status {B} r.
Global Arguments json {B} r.

(** [response.ok] *)
Definition ok {B} (r : Response B) : bool :=
  bool_decide (200 <= status r <= 299).

(** What the handler sends back: [{ error }] or [{ data }] and a status. *)
Inductive Payload (D : Type) :=
| ErrorBody (error : string)
| DataBody (data : D).
Global Arguments ErrorBody {D} error.
Global Arguments DataBody {D} data.

Record NextResponse (D : Type) := NextResponse_json { body : Payload D; init_status : Z }.
Global Arguments NextResponse_json {D} body init_status.
Global Arguments body {D} n.
Global Arguments init_status {D} n.

(** The statuses of a response that has no body. *)
Definition null_body_status (status : Z) : bool :=
  ((status =? 101) || (status =? 103) || (status =? 204) || (status =? 205)
     || (status =? 304))%Z.

(** The two errors of the [Response] constructor (undici's wording). *)
Definition RangeError_status : string :=
  "init[" +:+ String (Ascii.ascii_of_nat 34) "status"
    +:+ String (Ascii.ascii_of_nat 34) "] must be in the range of 200 to 599, inclusive.".

Definition TypeError_status (status : Z) : string :=
  "Response constructor: Invalid response status code " +:+ pretty status.

(** The body every YouTube endpoint answers with, at the type the routes
    read it: [error?.message] on failure, [items] on success. *)
Record ErrorObject := mkErrorObject { message : option string }.
Record ApiBody (I : Type) := mkApiBody {
  error : option ErrorObject;
  items : option (list I)
}.
Global Arguments mkApiBody {I} error items.
Global Arguments error {I} a.
Global Arguments items {I} a.

(** The outside world: [fetch(url, { cache: "no-store" })]. *)
Definition Fetch (I : Type) := URL -> outcome (Response (ApiBody I)).

(** Handler computations: the external calls issued so far, and either a
    thrown value or a result. *)
Definition Handler (A : Type) : Type := list URL * (exn + A).

Definition ret {A} (a : A) : Handler A := ([], inr a).
Definition throw {A} (e : exn) : Handler A := ([], inl e).
Definition bind {A B} (m : Handler A) (f : A -> Handler B) : Handler B :=
  match m with
  | (calls, inl e) => (calls, inl e)
  | (calls, inr a) => let '(calls', r) := f a in ((calls ++ calls')%list, r)
  end.

Global Instance Handler_ret : MRet Handler := @ret.
Global Instance Handler_bind : MBind Handler := fun A B f m => bind m f.

(** [await p] for a promise that settled as [o]. *)
Definition await {A} (o : outcome A) : Handler A :=
  match o with
  | Rejects m => throw (Error m)
  | Resolves a => ret a
  end.

Definition lift {A} (r : exn + A) : Handler A := ([], r).

(** [await fetch(url, ...)], recorded as one external call. *)
Definition fetch_ {I} (fetch : Fetch I) (url : URL) : Handler (Response (ApiBody I)) :=
  ([url], match fetch url with
          | Rejects m => inl (Error m)
          | Resolves r => inr r
          end).

(** [try { m } catch (error) { h error }] *)
Definition try_catch {A} (m : Handler A) (h : exn -> A) : list URL * A :=
  match m with
  | (calls, inl e) => (calls, h e)
  | (calls, inr a) => (calls, a)
  end.

(** [await response.json().catch(() => ({}))] *)
Definition json_or_empty {I} (r : Response (ApiBody I)) : ApiBody I :=
  match json r with
  | Rejects _ => mkApiBody None None
  | Resolves b => b
  end.

Module NextResponse.

(** [NextResponse.json(body, { status })]. The [Response] constructor
    behind it throws a RangeError for a status outside 200..599 and a
    TypeError for a status that allows no body; otherwise the call returns
    the response [NextResponse_json body status]. *)
Definition json {D} (body : Payload D) (status : Z) : Handler (NextResponse D) :=
  if ((status <? 200) || (599 <? status))%Z then throw (Error RangeError_status)
  else if null_body_status status then throw (Error (TypeError_status status))
  else ret (NextResponse_json body status).

End NextResponse.

(** The [catch] clause shared by the three routes; the constructor accepts
    its status 400. *)
Definition on_error {D} (e : exn) : NextResponse D :=
  let message :=
    match e with
    | ZodError errors => head errors ?? "Invalid payload"
    | Error message => message
    end in
  NextResponse_json (ErrorBody message) 400.

(** The branch [if (!response.ok)] shared by the three routes; it is
    inside the [try]. *)
Definition upstream_error {I D} (response : Response (ApiBody I))
  : Handler (NextResponse D) :=
  let errorPayload := json_or_empty response in
  let message :=
    (error errorPayload ?. message)
      ?? ("YouTube API responded with " +:+ pretty (status response)) in
  NextResponse.json (ErrorBody message) (status response).

End Http.

(** ** Result shapes shared by the routes and the page *)

Module Types.
Import Js.

Record YoutubeChannelStats := mkChannelStats {
  cs_title : string;
  cs_description : string;
  cs_thumbnail : string;
  subscriberCount : number;
  videoCount : number;
  viewCount : number
}.

Record YoutubeVideo := mkVideo {
  v_id : string;
  v_title : string;
  v_thumbnail : string;
  v_publishedAt : string;
  channelTitle : string;
  v_description : string
}.

Record YoutubeComment := mkComment {
  c_id : string;
  author : string;
  text : string;
  likeCount : number;
  c_publishedAt : string
}.

(** [thumbnails?: Record<string, { url?: string }>] *)
Record Thumbnail := mkThumbnail { url : option string }.

(** [t?.high?.url ?? t?.medium?.url ?? t?.default?.url ?? ""] *)
Definition pick_thumbnail (thumbnails : option (gmap string Thumbnail)) : string :=
  (thumbnails ?. (.!! "high") ?. url)
    ?| (thumbnails ?. (.!! "medium") ?. url)
    ?| (thumbnails ?. (.!! "default") ?. url)
    ?? "".

End Types.

(** ** app/api/youtube/channel/route.ts *)

Module ChannelRoute.
Import Js Zod Http Types.

Definition bodySchema : ZodObject :=
  z_object "apiKey" (z_string_min 10 "API key is required")
           "channelId" (z_string_min 3 "Channel ID is required").

Record Snippet := mkSnippet {
  title : option string;
  description : option string;
  thumbnails : option (gmap string Thumbnail)
}.

Record Statistics := mkStatistics {
  st_subscriberCount : option string;
  st_viewCount : option string;
  st_videoCount : option string
}.

Record Item := mkItem { snippet : option Snippet; statistics : option Statistics }.

(** [Number(x ?? 0)] *)
Definition Number (x : option string) : number :=
  match x with
  | Some s => NumberOfString s
  | None => Num 0
  end.

Definition build_url (apiKey channelId : string) : URL :=
  searchParams_set "key" apiKey
    (searchParams_set "id" channelId
      (searchParams_set "part" "snippet,statistics"
        (mkURL "https://www.googleapis.com/youtube/v3/channels" []))).

Definition channel_data (channel : Item) : YoutubeChannelStats :=
  let thumbnail := pick_thumbnail (snippet channel ?. thumbnails) in
  {| cs_title := (snippet channel ?. title) ?? "Unknown channel";
     cs_description := (snippet channel ?. description) ?? "";
     cs_thumbnail := thumbnail;
     subscriberCount := Number (statistics channel ?. st_subscriberCount);
     viewCount := Number (statistics channel ?. st_viewCount);
     videoCount := Number (statistics channel ?. st_videoCount) |}.

Definition POST (fetch : Fetch Item) (request : Request)
  : list URL * NextResponse YoutubeChannelStats :=
  try_catch
    (payload ← await (request_json request);
     '(apiKey, channelId) ← lift (parse bodySchema payload);
     let url := build_url apiKey channelId in
     response ← fetch_ fetch url;
     if negb (ok response) then upstream_error response
     else
       result ← await (json response);
       let channel := items result ?. head in
       match channel with
       | None =>
           NextResponse.json (ErrorBody "Channel not found. Double-check the channel ID.") 404
       | Some channel => NextResponse.json (DataBody (channel_data channel)) 200
       end)
    on_error.

End ChannelRoute.

(** ** app/api/youtube/search/route.ts *)

Module SearchRoute.
Import Js Zod Http Types.

Definition bodySchema : ZodObject :=
  z_object "apiKey" (z_string_min 10 "API key is required")
           "query" (z_string_min 2 "Search query is required").

Record Id := mkId { videoId : option string }.

Record Snippet := mkSnippet {
  title : option string;
  description : option string;
  thumbnails : option (gmap string Thumbnail);
  publishedAt : option string;
  sn_channelTitle : option string
}.

Record Item := mkItem { id : option Id; snippet : option Snippet }.

Definition build_url (apiKey query : string) : URL :=
  searchParams_set "key" apiKey
    (searchParams_set "q" query
      (searchParams_set "type" "video"
        (searchParams_set "order" "date"
          (searchParams_set "maxResults" "10"
            (searchParams_set "part" "snippet"
              (mkURL "https://www.googleapis.com/youtube/v3/search" [])))))).

Definition video_data (item : Item) : YoutubeVideo :=
  {| v_id := (id item ?. videoId) ?? "";
     v_title := (snippet item ?. title) ?? "Untitled video";
     v_description := (snippet item ?. description) ?? "";
     v_thumbnail := pick_thumbnail (snippet item ?. thumbnails);
     v_publishedAt := (snippet item ?. publishedAt) ?? "";
     channelTitle := (snippet item ?. sn_channelTitle) ?? "Unknown channel" |}.

Definition POST (fetch : Fetch Item) (request : Request)
  : list URL * NextResponse (list YoutubeVideo) :=
  try_catch
    (payload ← await (request_json request);
     '(apiKey, query) ← lift (parse bodySchema payload);
     let url := build_url apiKey query in
     response ← fetch_ fetch url;
     if negb (ok response) then upstream_error response
     else
       result ← await (json response);
       let data := (map video_data <$> items result) ?? [] in
       NextResponse.json (DataBody data) 200)
    on_error.

End SearchRoute.

(** ** app/api/youtube/comments/route.ts *)

Module CommentsRoute.
Import Js Zod Http Types.

Definition bodySchema : ZodObject :=
  z_object "apiKey" (z_string_min 10 "API key is required")
           "videoId" (z_string_min 3 "Video ID is required").

Record CommentSnippet := mkCommentSnippet {
  authorDisplayName : option string;
  textDisplay : option string;
  cs_likeCount : option number;
  publishedAt : option string
}.

Record TopLevelComment := mkTopLevelComment {
  tl_id : option string;
  tl_snippet : option CommentSnippet
}.

Record Snippet := mkSnippet { topLevelComment : option TopLevelComment }.

Record Item := mkItem { id : option string; snippet : option Snippet }.

Definition build_url (apiKey videoId : string) : URL :=
  searchParams_set "key" apiKey
    (searchParams_set "order" "relevance"
      (searchParams_set "textFormat" "plainText"
        (searchParams_set "videoId" videoId
          (searchParams_set "maxResults" "50"
            (searchParams_set "part" "snippet"
              (mkURL "https://www.googleapis.com/youtube/v3/commentThreads" [])))))).

(** The callback of [.map]: [None] is the [null] it returns for a thread
    without a top-level comment. *)
Definition comment_data (item : Item) : option YoutubeComment :=
  let topLevel := snippet item ?. topLevelComment in
  match topLevel with
  | None => None
  | Some topLevel =>
      Some {| c_id := (tl_id topLevel ?| id item) ?? "";
              author := (tl_snippet topLevel ?. authorDisplayName) ?? "Unknown author";
              text := (tl_snippet topLevel ?. textDisplay) ?? "";
              likeCount := (tl_snippet topLevel ?. cs_likeCount) ?? Num 0;
              c_publishedAt := (tl_snippet topLevel ?. publishedAt) ?? "" |}
  end.

(** [.filter(Boolean)] on the mapped list: the [null]s go, every object
    stays. *)
Definition filter_Boolean {A} (l : list (option A)) : list A := omap (fun x => x) l.

Definition POST (fetch : Fetch Item) (request : Request)
  : list URL * NextResponse (list YoutubeComment) :=
  try_catch
    (payload ← await (request_json request);
     '(apiKey, videoId) ← lift (parse bodySchema payload);
     let url := build_url apiKey videoId in
     response ← fetch_ fetch url;
     if negb (ok response) then upstream_error response
     else
       result ← await (json response);
       let data := ((fun l => filter_Boolean (map comment_data l)) <$> items result) ?? [] in
       NextResponse.json (DataBody data) 200)
    on_error.

End CommentsRoute.

(** ** app/page.tsx: the workflow store and runner *)

Module Page.
Import Js Types.

(** ['channelStats' | 'searchVideos' | 'fetchComments'] *)
Inductive WorkflowStepType := ChannelStats | SearchVideos | FetchComments.

Record WorkflowStep := mkStep {
  step_id : string;
  type : WorkflowStepType;
  config : gmap string string
}.

Inductive WorkflowSchedule := manual | daily | hourly.

Record AutomationWorkflow := mkWorkflow {
  id : string;
  name : string;
  schedule : WorkflowSchedule;
  steps : list WorkflowStep
}.

Definition scheduleLabel (s : WorkflowSchedule) : string :=
  match s with
  | manual => "Run on demand"
  | daily => "Run daily"
  | hourly => "Run hourly"
  end.

(** The state cells of [HomePage], in the order of their [useState]. *)
Record PageState := mkPageState {
  apiKey : string;
  channelId : string;
  channelStats : option YoutubeChannelStats;
  channelError : option string;
  isChannelLoading : bool;
  searchQuery : string;
  searchResults : list YoutubeVideo;
  isSearchLoading : bool;
  searchError : option string;
  commentsVideoId : string;
  comments : list YoutubeComment;
  commentsError : option string;
  isCommentsLoading : bool;
  workflows : list AutomationWorkflow;
  selectedWorkflowId : option string;
  runLog : list string;
  isRunningWorkflow : bool;
  workflowDraftName : string;
  workflowDraftSchedule : WorkflowSchedule;
  stepDraftType : WorkflowStepType;
  stepDraftConfig : gmap string string
}.

(** A request of the page to one of its own routes, with the fields of
    the JSON body it posts. *)
Inductive ApiCall :=
| PostChannel (apiKey channelId : string)
| PostSearch (apiKey query : string)
| PostComments (apiKey videoId : string).

(** The body of a route's answer as the page destructures it. *)
Record ClientBody (D : Type) := mkClientBody { error : option string; data : option D }.
Global Arguments mkClientBody {D} error data.
Global Arguments error {D} c.
Global Arguments data {D} c.

Record ClientResponse (D : Type) := mkClientResponse {
  ok : bool;
  json : outcome (ClientBody D)
}.
Global Arguments mkClientResponse {D} ok json.
Global Arguments ok {D} c.
Global Arguments json {D} c.

(** The network between the page and its routes. An answer may depend on
    the calls made before it. *)
Record Network := mkNetwork {
  post_channel : list ApiCall -> string -> string -> outcome (ClientResponse YoutubeChannelStats);
  post_search : list ApiCall -> string -> string -> outcome (ClientResponse (list YoutubeVideo));
  post_comments : list ApiCall -> string -> string -> outcome (ClientResponse (list YoutubeComment))
}.

(** What a run acts on: the page state and the calls issued so far. *)
Record World := mkWorld { page : PageState; calls : list ApiCall }.

(** Computations of the runner; everything thrown in it is an [Error],
    kept as its message. *)
Definition Run (A : Type) : Type := World -> (string + A) * World.

Definition ret {A} (a : A) : Run A := fun w => (inr a, w).
Definition throw {A} (message : string) : Run A := fun w => (inl message, w).
Definition bind {A B} (m : Run A) (f : A -> Run B) : Run B := fun w =>
  match m w with
  | (inl e, w') => (inl e, w')
  | (inr a, w') => f a w'
  end.
Global Instance Run_ret : MRet Run := @ret.
Global Instance Run_bind : MBind Run := fun A B f m => bind m f.

Definition await {A} (o : outcome A) : Run A :=
  match o with
  | Rejects m => throw m
  | Resolves a => ret a
  end.

(** [try { m } catch (error) { h message }] *)
Definition try_catch {A} (m : Run A) (h : string -> Run A) : Run A := fun w =>
  match m w with
  | (inl message, w') => h message w'
  | (inr a, w') => (inr a, w')
  end.

Definition record_call (c : ApiCall) (w : World) : World :=
  {| page := page w; calls := (calls w ++ [c])%list |}.

Definition with_runLog (l : list string) (st : PageState) : PageState :=
  {| apiKey := apiKey st; channelId := channelId st; channelStats := channelStats st;
     channelError := channelError st; isChannelLoading := isChannelLoading st;
     searchQuery := searchQuery st; searchResults := searchResults st;
     isSearchLoading := isSearchLoading st; searchError := searchError st;
     commentsVideoId := commentsVideoId st; comments := comments st;
     commentsError := commentsError st; isCommentsLoading := isCommentsLoading st;
     workflows := workflows st; selectedWorkflowId := selectedWorkflowId st;
     runLog := l; isRunningWorkflow := isRunningWorkflow st;
     workflowDraftName := workflowDraftName st;
     workflowDraftSchedule := workflowDraftSchedule st;
     stepDraftType := stepDraftType st; stepDraftConfig := stepDraftConfig st |}.

Definition with_isRunningWorkflow (b : bool) (st : PageState) : PageState :=
  {| apiKey := apiKey st; channelId := channelId st; channelStats := channelStats st;
     channelError := channelError st; isChannelLoading := isChannelLoading st;
     searchQuery := searchQuery st; searchResults := searchResults st;
     isSearchLoading := isSearchLoading st; searchError := searchError st;
     commentsVideoId := commentsVideoId st; comments := comments st;
     commentsError := commentsError st; isCommentsLoading := isCommentsLoading st;
     workflows := workflows st; selectedWorkflowId := selectedWorkflowId st;
     runLog := runLog st; isRunningWorkflow := b;
     workflowDraftName := workflowDraftName st;
     workflowDraftSchedule := workflowDraftSchedule st;
     stepDraftType := stepDraftType st; stepDraftConfig := stepDraftConfig st |}.

(** [setRunLog((prev) => f prev)] *)
Definition setRunLog (f : list string -> list string) : Run unit := fun w =>
  (inr tt, {| page := with_runLog (f (runLog (page w))) (page w); calls := calls w |}).

Definition setIsRunningWorkflow (b : bool) : Run unit := fun w =>
  (inr tt, {| page := with_isRunningWorkflow b (page w); calls := calls w |}).

(** Reading a property of [undefined] throws a TypeError (V8's wording). *)
Definition TypeError_undefined (prop : string) : string :=
  "Cannot read properties of undefined (reading '" +:+ prop +:+ "')".

(** The double-quote character, for the templates that contain one. *)
Definition dq : string := String (Ascii.ascii_of_nat 34) EmptyString.

(** [`${x}`] for a string that may be [undefined]. *)
Definition interpolate (x : option string) : string := x ?? "undefined".

Definition warning_line : string := "‚ö†Ô∏è Add an API key before running workflows.".

Definition running_line (workflow : AutomationWorkflow) : string :=
  "‚ñ∂Ô∏è Running workflow " +:+ dq +:+ name workflow +:+ dq +:+ " ("
    +:+ scheduleLabel (schedule workflow) +:+ ")".

Definition failure_line (workflow : AutomationWorkflow) (message : string) : string :=
  "‚ùå " +:+ name workflow +:+ ": " +:+ message.

Section Runner.

(** [Intl.NumberFormat('en-US', { notation: 'compact' }).format] *)
Variable formatNumber : number -> string.

Variable net : Network.

Definition channel_line (data : YoutubeChannelStats) : string :=
  "‚úÖ Channel: " +:+ cs_title data +:+ " ‚Ä¢ "
    +:+ formatNumber (subscriberCount data) +:+ " subs".

Definition search_line (step : WorkflowStep) (data : list YoutubeVideo) : string :=
  let topThree := String.concat " ‚Ä¢ " (map v_title (take 3 data)) in
  "üîç Search " +:+ dq +:+ interpolate (config step !! "query") +:+ dq +:+ ": " +:+ topThree.

Definition comments_line (step : WorkflowStep) (data : list YoutubeComment) : string :=
  "üí¨ Pulled " +:+ pretty (length data) +:+ " comments for video "
    +:+ interpolate (config step !! "videoId").

(** [await fetch('/api/youtube/...', { method: 'POST', body })] *)
Definition fetch_channel (apiKey channelId : string)
  : Run (ClientResponse YoutubeChannelStats) := fun w =>
  (match post_channel net (calls w) apiKey channelId with
   | Rejects m => inl m
   | Resolves r => inr r
   end, record_call (PostChannel apiKey channelId) w).

Definition fetch_search (apiKey query : string)
  : Run (ClientResponse (list YoutubeVideo)) := fun w =>
  (match post_search net (calls w) apiKey query with
   | Rejects m => inl m
   | Resolves r => inr r
   end, record_call (PostSearch apiKey query) w).

Definition fetch_comments (apiKey videoId : string)
  : Run (ClientResponse (list YoutubeComment)) := fun w =>
  (match post_comments net (calls w) apiKey videoId with
   | Rejects m => inl m
   | Resolves r => inr r
   end, record_call (PostComments apiKey videoId) w).

(** How a route's answer is read: [throw new Error(error ?? fallback)]
    when it is not ok, else [const { data } = await response.json()],
    where [data] is [undefined] when the body has none. *)
Definition read_data {D} (response : ClientResponse D) (fallback : string)
  : Run (option D) :=
  if negb (ok response) then
    b ← await (json response);
    throw (error b ?? fallback)
  else
    b ← await (json response);
    mret (data b).

(** [data.prop] evaluated inside the [try]: a TypeError on [undefined]. *)
Definition dereference {D} (data : option D) (prop : string) : Run D :=
  match data with
  | None => throw (TypeError_undefined prop)
  | Some d => mret d
  end.

(** [setRunLog((prev) => [line, ...prev])] where the template [line]
    reads a property of [data]. The updater is not run by the call: React
    runs it when it next renders, after the [try] was left. On an
    undefined [data] it throws there, where the runner cannot catch it: no
    line is added, no failure is logged, and the loop goes on with the
    next step. *)
Definition setRunLog_reading {D} (data : option D) (line : D -> string) : Run unit :=
  match data with
  | Some d => setRunLog (cons (line d))
  | None => ret tt
  end.

(** The body of the [try] for one step. [st] holds the values the handler
    closed over when the run was started. Only the search step reads its
    [data] inside the [try] ([data.slice]); the other two read it in the
    log updater. *)
Definition run_step (st : PageState) (step : WorkflowStep) : Run unit :=
  match type step with
  | ChannelStats =>
      response ← fetch_channel (apiKey st) (config step !! "channelId" ?? channelId st);
      data ← read_data response "Channel stats step failed.";
      setRunLog_reading data channel_line
  | SearchVideos =>
      response ← fetch_search (apiKey st) (config step !! "query" ?? searchQuery st);
      data ← read_data response "Search step failed.";
      data ← dereference data "slice";
      setRunLog (cons (search_line step data))
  | FetchComments =>
      response ← fetch_comments (apiKey st) (config step !! "videoId" ?? commentsVideoId st);
      data ← read_data response "Comments step failed.";
      setRunLog_reading data (comments_line step)
  end.

(** [for (const step of workflow.steps) { try { ... } catch { ...; break; } }] *)
Fixpoint for_steps (st : PageState) (workflow : AutomationWorkflow)
    (todo : list WorkflowStep) : Run unit :=
  match todo with
  | [] => ret tt
  | step :: todo =>
      continue ← try_catch (_ ← run_step st step; mret true)
                   (fun message =>
                      _ ← setRunLog (cons (failure_line workflow message)); mret false);
      if continue : bool then for_steps st workflow todo else ret tt
  end.

Definition runWorkflow (workflow : option AutomationWorkflow) : Run unit := fun w =>
  let st := page w in
  match workflow with
  | None => ret tt w
  | Some workflow =>
      if decide (apiKey st = "") then setRunLog (cons warning_line) w
      else
        (_ ← setIsRunningWorkflow true;
         _ ← setRunLog (cons (running_line workflow));
         _ ← for_steps st workflow (steps workflow);
         setIsRunningWorkflow false) w
  end.

End Runner.

End Page.

(** ** app/page.tsx: persistence in [window.localStorage] *)

Module Persistence.
Import Js Types Page.

Module STORAGE_KEYS.
Definition apiKey : string := "youtube-automation:api-key".
Definition workflows : string := "youtube-automation:workflows".
Definition channelId : string := "youtube-automation:channel-id".
End STORAGE_KEYS.

(** [window.localStorage]: its items, and the writes it refuses by
    throwing (a full quota, for one). [quota_exceeded] says what the
    storage refuses during one pass of writes to distinct keys; what it
    refuses after that depends on what it then holds, and is for another
    storage value to say. *)
Record LocalStorage := mkLocalStorage {
  items : gmap string string;
  quota_exceeded : string -> string -> bool
}.

(** [window]; [None] when [typeof window === 'undefined']. *)
Definition Window := option LocalStorage.

Definition getItem (key : string) (localStorage : LocalStorage) : option string :=
  items localStorage !! key.

Definition setItem (key v : string) (localStorage : LocalStorage) : string + LocalStorage :=
  if quota_exceeded localStorage key v then inl "QuotaExceededError"
  else inr {| items := <[key := v]> (items localStorage);
              quota_exceeded := quota_exceeded localStorage |}.

(** The value comes back as parsed; the caller reads it at type [T]. *)
Definition getLocalStorage (key : string) (fallback : value) (window : Window) : value :=
  match window with
  | None => fallback
  | Some localStorage =>
      match getItem key localStorage with
      | None => fallback
      | Some raw =>
          if decide (raw = "") then fallback
          else match JSON.parse raw with
               | Resolves v => v
               | Rejects _ => fallback
               end
      end
  end.

Definition setLocalStorage (key : string) (v : value) (window : Window) : Window :=
  match window with
  | None => None
  | Some localStorage =>
      match setItem key (JSON.stringify v) localStorage with
      | inr localStorage' => Some localStorage'
      | inl _ => Some localStorage
      end
  end.

(** *** Typed data as JavaScript values, and back *)

Definition schedule_name (s : WorkflowSchedule) : string :=
  match s with
  | manual => "manual"
  | daily => "daily"
  | hourly => "hourly"
  end.

Definition type_name (t : WorkflowStepType) : string :=
  match t with
  | ChannelStats => "channelStats"
  | SearchVideos => "searchVideos"
  | FetchComments => "fetchComments"
  end.

(** The keys come in the order of the map. A config built by the page has
    one key; with more, JavaScript keeps the order of insertion. *)
Definition config_value (config : gmap string string) : value :=
  VObject ((fun kv => (kv.1, VString kv.2)) <$> map_to_list config).

Definition step_value (step : WorkflowStep) : value :=
  VObject [("id", VString (step_id step));
           ("type", VString (type_name (type step)));
           ("config", config_value (config step))].

Definition workflow_value (workflow : AutomationWorkflow) : value :=
  VObject [("id", VString (id workflow));
           ("name", VString (name workflow));
           ("schedule", VString (schedule_name (schedule workflow)));
           ("steps", VArray (step_value <$> steps workflow))].

Definition workflows_value (l : list AutomationWorkflow) : value :=
  VArray (workflow_value <$> l).

(** [v as T]: the typed reading of a value that has the shape of [T]. *)
Definition as_string (v : value) : option string :=
  match v with
  | VString s => Some s
  | _ => None
  end.

Definition as_schedule (v : value) : option WorkflowSchedule :=
  s ← as_string v;
  if decide (s = "manual") then Some manual
  else if decide (s = "daily") then Some daily
  else if decide (s = "hourly") then Some hourly
  else None.

Definition as_type (v : value) : option WorkflowStepType :=
  s ← as_string v;
  if decide (s = "channelStats") then Some ChannelStats
  else if decide (s = "searchVideos") then Some SearchVideos
  else if decide (s = "fetchComments") then Some FetchComments
  else None.

Definition as_config (v : value) : option (gmap string string) :=
  match v with
  | VObject fields =>
      list_to_map <$> mapM (fun kv => pair kv.1 <$> as_string kv.2) fields
  | _ => None
  end.

Definition as_step (v : value) : option WorkflowStep :=
  i ← get "id" v ?. as_string;
  t ← get "type" v ?. as_type;
  c ← get "config" v ?. as_config;
  Some (mkStep i t c).

Definition as_array {A} (as_item : value -> option A) (v : value) : option (list A) :=
  match v with
  | VArray l => mapM as_item l
  | _ => None
  end.

Definition as_workflow (v : value) : option AutomationWorkflow :=
  i ← get "id" v ?. as_string;
  n ← get "name" v ?. as_string;
  s ← get "schedule" v ?. as_schedule;
  l ← get "steps" v ?. as_array as_step;
  Some (mkWorkflow i n s l).

Definition as_workflows : value -> option (list AutomationWorkflow) :=
  as_array as_workflow.

(** *** The effects of [HomePage] *)

(** The three effects that write a state cell back on every change. *)
Definition persist (st : PageState) (window : Window) : Window :=
  setLocalStorage STORAGE_KEYS.workflows (workflows_value (workflows st))
    (setLocalStorage STORAGE_KEYS.channelId (VString (channelId st))
       (setLocalStorage STORAGE_KEYS.apiKey (VString (apiKey st)) window)).

(** The effect run once at startup; [None] when a slot holds JSON of
    another shape than its state cell: the source then puts that value in
    the cell, or throws on the [.length] of a [null], and the page is
    outside the typed state. *)
Definition load (window : Window) (st : PageState) : option PageState :=
  storedApiKey ← as_string (getLocalStorage STORAGE_KEYS.apiKey (VString "") window);
  storedChannelId ← as_string (getLocalStorage STORAGE_KEYS.channelId (VString "") window);
  storedWorkflows ← as_workflows (getLocalStorage STORAGE_KEYS.workflows (VArray []) window);
  Some {| apiKey := storedApiKey; channelId := storedChannelId;
          channelStats := channelStats st;
          channelError := channelError st; isChannelLoading := isChannelLoading st;
          searchQuery := searchQuery st; searchResults := searchResults st;
          isSearchLoading := isSearchLoading st; searchError := searchError st;
          commentsVideoId := commentsVideoId st; comments := comments st;
          commentsError := commentsError st; isCommentsLoading := isCommentsLoading st;
          workflows := storedWorkflows;
          selectedWorkflowId :=
            match storedWorkflows with
            | first :: _ => Some (id first)
            | [] => selectedWorkflowId st
            end;
          runLog := runLog st; isRunningWorkflow := isRunningWorkflow st;
          workflowDraftName := workflowDraftName st;
          workflowDraftSchedule := workflowDraftSchedule st;
          stepDraftType := stepDraftType st; stepDraftConfig := stepDraftConfig st |}.

End Persistence.

(** ** Vocabulary for the runner's properties *)

Module RunnerSpec.
Import Js Types Page.

(** The call a step stands for, given the values the run closed over. *)
Definition request_of (st : PageState) (step : WorkflowStep) : ApiCall :=
  match type step with
  | ChannelStats => PostChannel (apiKey st) (config step !! "channelId" ?? channelId st)
  | SearchVideos => PostSearch (apiKey st) (config step !! "query" ?? searchQuery st)
  | FetchComments => PostComments (apiKey st) (config step !! "videoId" ?? commentsVideoId st)
  end.

(** A dispatch succeeded when the route answered, the answer is ok and its
    body carries [data]. *)
Definition succeeded {D} (o : outcome (ClientResponse D)) : option D :=
  match o with
  | Resolves r => if ok r then match json r with Resolves b => data b | Rejects _ => None end
                  else None
  | Rejects _ => None
  end.

(** The line a successful dispatch of [step] logs, when the network
    answers it successfully after the calls in [history]. *)
Definition success_line (formatNumber : number -> string) (net : Network)
    (history : list ApiCall) (st : PageState) (step : WorkflowStep) : option string :=
  match request_of st step with
  | PostChannel k c => channel_line formatNumber <$> succeeded (post_channel net history k c)
  | PostSearch k q => search_line step <$> succeeded (post_search net history k q)
  | PostComments k v => comments_line step <$> succeeded (post_comments net history k v)
  end.

(** What reading an answer throws, if anything: the rejection of the
    fetch or of [response.json()], or the [error] of an answer that is not
    ok, with the step's own message when the answer names none. *)
Definition thrown {D} (fallback : string) (o : outcome (ClientResponse D)) : option string :=
  match o with
  | Rejects m => Some m
  | Resolves r =>
      match json r with
      | Rejects m => Some m
      | Resolves b => if ok r then None else Some (error b ?? fallback)
      end
  end.

(** The dispatch of [step] fails with this message: it is what the [try]
    of the step throws when the network answers after the calls in
    [history]. An ok answer without [data] is a failure of a search step,
    which reads it inside the [try], and of no other step. *)
Definition failure_message (net : Network) (history : list ApiCall) (st : PageState)
    (step : WorkflowStep) : option string :=
  match request_of st step with
  | PostChannel k c => thrown "Channel stats step failed." (post_channel net history k c)
  | PostSearch k q =>
      let o := post_search net history k q in
      match thrown "Search step failed." o, succeeded o with
      | Some m, _ => Some m
      | None, None => Some (TypeError_undefined "slice")
      | None, Some _ => None
      end
  | PostComments k v => thrown "Comments step failed." (post_comments net history k v)
  end.

End RunnerSpec.

(** ** The page served by its own routes *)

Module Deployment.
Import Js Http Types Page.

(** The three YouTube endpoints behind the routes. *)
Record YouTube := mkYouTube {
  channels : Fetch ChannelRoute.Item;
  search : Fetch SearchRoute.Item;
  commentThreads : Fetch CommentsRoute.Item
}.

(** [JSON.stringify({ k1: v1, k2: v2 })] as [request.json()] reads it back. *)
Definition post_body (k1 v1 k2 v2 : string) : Request :=
  mkRequest (Resolves (VObject [(k1, VString v1); (k2, VString v2)])).

(** A route's answer as the page's [fetch] sees it. *)
Definition client_view {D} (r : NextResponse D) : ClientResponse D :=
  {| Page.ok := bool_decide (200 <= init_status r <= 299);
     Page.json := Resolves match body r with
                           | ErrorBody e => mkClientBody (Some e) None
                           | DataBody d => mkClientBody None (Some d)
                           end |}.

Definition served (yt : YouTube) : Network :=
  {| post_channel := fun _ k c =>
       Resolves (client_view (ChannelRoute.POST (channels yt) (post_body "apiKey" k "channelId" c)).2);
     post_search := fun _ k q =>
       Resolves (client_view (SearchRoute.POST (search yt) (post_body "apiKey" k "query" q)).2);
     post_comments := fun _ k v =>
       Resolves (client_view (CommentsRoute.POST (commentThreads yt) (post_body "apiKey" k "videoId" v)).2) |}.

End Deployment.

(** ** Vocabulary for the routes' properties *)

Module RouteSpec.
Import Js Zod Http Types.

(** A field passes [z.string().min(n, _)] when it is a string of at least
    [n] code units. *)
Definition valid_field (s : ZodString) (input : option value) : Prop :=
  exists x, input = Some (VString x) /\ (minLength s <= js_length x)%nat.

(** The body fails validation when one of the two fields does. *)
Definition invalid_for (schema : ZodObject) (payload : value) : Prop :=
  ~ valid_field (schema1 schema) (get (key1 schema) payload) \/
  ~ valid_field (schema2 schema) (get (key2 schema) payload).

(** The message YouTube put in its answer, if the body parses and has one. *)
Definition platform_message {I} (response : Response (ApiBody I)) : option string :=
  match json response with
  | Resolves b => error b ?. message
  | Rejects _ => None
  end.

(** A status that a response with a body can carry: 200..599 other than
    204, 205 and 304. *)
Definition relayable (status : Z) : Prop :=
  200 <= status <= 599 /\ status <> 204 /\ status <> 205 /\ status <> 304.

(** No thumbnail: none of the three sizes the routes look at has a URL. *)
Definition no_thumbnail (thumbnails : option (gmap string Thumbnail)) : Prop :=
  thumbnails ?. (.!! "high") ?. url = None /\
  thumbnails ?. (.!! "medium") ?. url = None /\
  thumbnails ?. (.!! "default") ?. url = None.

(** A comment thread that carries its top-level comment. *)
Definition has_topLevel (item : CommentsRoute.Item) : bool :=
  bool_decide (is_Some (CommentsRoute.snippet item ?. CommentsRoute.topLevelComment)).

End RouteSpec.

(** ** Concrete inputs used by the worked instances *)

Module Examples.
Import Js Zod Http Types Page Deployment.

Definition key : string := "AIzaSy-demo-0001".

Definition channel_item : ChannelRoute.Item :=
  ChannelRoute.mkItem
    (Some (ChannelRoute.mkSnippet (Some "Rocq Prover") None None))
    (Some (ChannelRoute.mkStatistics (Some "1200") None None)).

(** A search result without snippet. *)
Definition bare_video : SearchRoute.Item :=
  SearchRoute.mkItem (Some (SearchRoute.mkId (Some "vid-001"))) None.

Definition full_thread : CommentsRoute.Item :=
  CommentsRoute.mkItem (Some "t1")
    (Some (CommentsRoute.mkSnippet
       (Some (CommentsRoute.mkTopLevelComment (Some "c1") None)))).

(** A thread whose snippet has no top-level comment. *)
Definition empty_thread : CommentsRoute.Item :=
  CommentsRoute.mkItem (Some "t2") (Some (CommentsRoute.mkSnippet None)).

Definition answers {I} (status : Z) (its : option (list I)) : Fetch I :=
  fun _ => Resolves (mkResponse status (Resolves (mkApiBody None its))).

(** An answer whose body is not JSON. *)
Definition outage {I} (status : Z) : Fetch I :=
  fun _ => Resolves (mkResponse status (Rejects "Unexpected end of JSON input")).

Definition youtube : YouTube :=
  {| channels := answers 200 (Some [channel_item]);
     search := answers 200 (Some [bare_video]);
     commentThreads := answers 200 (Some [full_thread; empty_thread]) |}.

(** A stand-in for the compact number format. *)
Definition compact (n : number) : string :=
  match n with
  | Num z => pretty z
  | NumberOfString s => s
  end.

Definition step_A : WorkflowStep := mkStep "s1" ChannelStats {[ "channelId" := "UC-rocq" ]}.
(** The route refuses a query of one character. *)
Definition step_B : WorkflowStep := mkStep "s2" SearchVideos {[ "query" := "x" ]}.
Definition step_C : WorkflowStep := mkStep "s3" FetchComments {[ "videoId" := "vid-001" ]}.

Definition workflow : AutomationWorkflow :=
  mkWorkflow "w1" "Morning check" daily [step_A; step_B; step_C].

(** A search step whose override is the empty string, and one without
    override. *)
Definition step_empty_query : WorkflowStep := mkStep "s4" SearchVideos {[ "query" := "" ]}.
Definition step_no_query : WorkflowStep := mkStep "s5" SearchVideos ∅.

Definition state (apiKey : string) : PageState :=
  {| apiKey := apiKey; channelId := "UC-default"; channelStats := None;
     channelError := None; isChannelLoading := false;
     searchQuery := "foo"; searchResults := []; isSearchLoading := false;
     searchError := None; commentsVideoId := "vid-000"; comments := [];
     commentsError := None; isCommentsLoading := false;
     workflows := [workflow]; selectedWorkflowId := Some "w1";
     runLog := ["earlier line"]; isRunningWorkflow := false;
     workflowDraftName := ""; workflowDraftSchedule := manual;
     stepDraftType := ChannelStats; stepDraftConfig := ∅ |}.

Definition world (apiKey : string) : World := mkWorld (state apiKey) [].

Definition body (k1 v1 k2 v2 : string) : value :=
  VObject [(k1, VString v1); (k2, VString v2)].

(** An empty storage that accepts every write. *)
Definition empty_storage : Persistence.LocalStorage :=
  Persistence.mkLocalStorage ∅ (fun _ _ => false).

End Examples.

(** ** app/page.tsx: the workflow store and the step draft *)

Module Store.
Import Js Types Page.

(** The setters of the state cells: [setX v] replaces one cell. *)
Definition setApiKey (v : string) (st : PageState) : PageState :=
  mkPageState v (channelId st) (channelStats st) (channelError st)
    (isChannelLoading st) (searchQuery st) (searchResults st) (isSearchLoading st)
    (searchError st) (commentsVideoId st) (comments st) (commentsError st)
    (isCommentsLoading st) (workflows st) (selectedWorkflowId st) (runLog st)
    (isRunningWorkflow st) (workflowDraftName st) (workflowDraftSchedule st)
    (stepDraftType st) (stepDraftConfig st).

Definition setChannelId (v : string) (st : PageState) : PageState :=
  mkPageState (apiKey st) v (channelStats st) (channelError st)
    (isChannelLoading st) (searchQuery st) (searchResults st) (isSearchLoading st)
    (searchError st) (commentsVideoId st) (comments st) (commentsError st)
    (isCommentsLoading st) (workflows st) (selectedWorkflowId st) (runLog st)
    (isRunningWorkflow st) (workflowDraftName st) (workflowDraftSchedule st)
    (stepDraftType st) (stepDraftConfig st).

Definition setChannelStats (v : option YoutubeChannelStats) (st : PageState) : PageState :=
  mkPageState (apiKey st) (channelId st) v (channelError st) (isChannelLoading st)
    (searchQuery st) (searchResults st) (isSearchLoading st) (searchError st)
    (commentsVideoId st) (comments st) (commentsError st) (isCommentsLoading st)
    (workflows st) (selectedWorkflowId st) (runLog st) (isRunningWorkflow st)
    (workflowDraftName st) (workflowDraftSchedule st) (stepDraftType st)
    (stepDraftConfig st).

Definition setChannelError (v : option string) (st : PageState) : PageState :=
  mkPageState (apiKey st) (channelId st) (channelStats st) v (isChannelLoading st)
    (searchQuery st) (searchResults st) (isSearchLoading st) (searchError st)
    (commentsVideoId st) (comments st) (commentsError st) (isCommentsLoading st)
    (workflows st) (selectedWorkflowId st) (runLog st) (isRunningWorkflow st)
    (workflowDraftName st) (workflowDraftSchedule st) (stepDraftType st)
    (stepDraftConfig st).

Definition setIsChannelLoading (v : bool) (st : PageState) : PageState :=
  mkPageState (apiKey st) (channelId st) (channelStats st) (channelError st) v
    (searchQuery st) (searchResults st) (isSearchLoading st) (searchError st)
    (commentsVideoId st) (comments st) (commentsError st) (isCommentsLoading st)
    (workflows st) (selectedWorkflowId st) (runLog st) (isRunningWorkflow st)
    (workflowDraftName st) (workflowDraftSchedule st) (stepDraftType st)
    (stepDraftConfig st).

Definition setSearchResults (v : list YoutubeVideo) (st : PageState) : PageState :=
  mkPageState (apiKey st) (channelId st) (channelStats st) (channelError st)
    (isChannelLoading st) (searchQuery st) v (isSearchLoading st) (searchError st)
    (commentsVideoId st) (comments st) (commentsError st) (isCommentsLoading st)
    (workflows st) (selectedWorkflowId st) (runLog st) (isRunningWorkflow st)
    (workflowDraftName st) (workflowDraftSchedule st) (stepDraftType st)
    (stepDraftConfig st).

Definition setIsSearchLoading (v : bool) (st : PageState) : PageState :=
  mkPageState (apiKey st) (channelId st) (channelStats st) (channelError st)
    (isChannelLoading st) (searchQuery st) (searchResults st) v (searchError st)
    (commentsVideoId st) (comments st) (commentsError st) (isCommentsLoading st)
    (workflows st) (selectedWorkflowId st) (runLog st) (isRunningWorkflow st)
    (workflowDraftName st) (workflowDraftSchedule st) (stepDraftType st)
    (stepDraftConfig st).

Definition setSearchError (v : option string) (st : PageState) : PageState :=
  mkPageState (apiKey st) (channelId st) (channelStats st) (channelError st)
    (isChannelLoading st) (searchQuery st) (searchResults st) (isSearchLoading st) v
    (commentsVideoId st) (comments st) (commentsError st) (isCommentsLoading st)
    (workflows st) (selectedWorkflowId st) (runLog st) (isRunningWorkflow st)
    (workflowDraftName st) (workflowDraftSchedule st) (stepDraftType st)
    (stepDraftConfig st).

Definition setComments (v : list YoutubeComment) (st : PageState) : PageState :=
  mkPageState (apiKey st) (channelId st) (channelStats st) (channelError st)
    (isChannelLoading st) (searchQuery st) (searchResults st) (isSearchLoading st)
    (searchError st) (commentsVideoId st) v (commentsError st)
    (isCommentsLoading st) (workflows st) (selectedWorkflowId st) (runLog st)
    (isRunningWorkflow st) (workflowDraftName st) (workflowDraftSchedule st)
    (stepDraftType st) (stepDraftConfig st).

Definition setCommentsError (v : option string) (st : PageState) : PageState :=
  mkPageState (apiKey st) (channelId st) (channelStats st) (channelError st)
    (isChannelLoading st) (searchQuery st) (searchResults st) (isSearchLoading st)
    (searchError st) (commentsVideoId st) (comments st) v (isCommentsLoading st)
    (workflows st) (selectedWorkflowId st) (runLog st) (isRunningWorkflow st)
    (workflowDraftName st) (workflowDraftSchedule st) (stepDraftType st)
    (stepDraftConfig st).

Definition setIsCommentsLoading (v : bool) (st : PageState) : PageState :=
  mkPageState (apiKey st) (channelId st) (channelStats st) (channelError st)
    (isChannelLoading st) (searchQuery st) (searchResults st) (isSearchLoading st)
    (searchError st) (commentsVideoId st) (comments st) (commentsError st) v
    (workflows st) (selectedWorkflowId st) (runLog st) (isRunningWorkflow st)
    (workflowDraftName st) (workflowDraftSchedule st) (stepDraftType st)
    (stepDraftConfig st).

Definition setWorkflows (v : list AutomationWorkflow) (st : PageState) : PageState :=
  mkPageState (apiKey st) (channelId st) (channelStats st) (channelError st)
    (isChannelLoading st) (searchQuery st) (searchResults st) (isSearchLoading st)
    (searchError st) (commentsVideoId st) (comments st) (commentsError st)
    (isCommentsLoading st) v (selectedWorkflowId st) (runLog st)
    (isRunningWorkflow st) (workflowDraftName st) (workflowDraftSchedule st)
    (stepDraftType st) (stepDraftConfig st).

Definition setSelectedWorkflowId (v : option string) (st : PageState) : PageState :=
  mkPageState (apiKey st) (channelId st) (channelStats st) (channelError st)
    (isChannelLoading st) (searchQuery st) (searchResults st) (isSearchLoading st)
    (searchError st) (commentsVideoId st) (comments st) (commentsError st)
    (isCommentsLoading st) (workflows st) v (runLog st) (isRunningWorkflow st)
    (workflowDraftName st) (workflowDraftSchedule st) (stepDraftType st)
    (stepDraftConfig st).

Definition setWorkflowDraftName (v : string) (st : PageState) : PageState :=
  mkPageState (apiKey st) (channelId st) (channelStats st) (channelError st)
    (isChannelLoading st) (searchQuery st) (searchResults st) (isSearchLoading st)
    (searchError st) (commentsVideoId st) (comments st) (commentsError st)
    (isCommentsLoading st) (workflows st) (selectedWorkflowId st) (runLog st)
    (isRunningWorkflow st) v (workflowDraftSchedule st) (stepDraftType st)
    (stepDraftConfig st).

Definition setStepDraftType (v : WorkflowStepType) (st : PageState) : PageState :=
  mkPageState (apiKey st) (channelId st) (channelStats st) (channelError st)
    (isChannelLoading st) (searchQuery st) (searchResults st) (isSearchLoading st)
    (searchError st) (commentsVideoId st) (comments st) (commentsError st)
    (isCommentsLoading st) (workflows st) (selectedWorkflowId st) (runLog st)
    (isRunningWorkflow st) (workflowDraftName st) (workflowDraftSchedule st) v
    (stepDraftConfig st).

Definition setStepDraftConfig (v : gmap string string) (st : PageState) : PageState :=
  mkPageState (apiKey st) (channelId st) (channelStats st) (channelError st)
    (isChannelLoading st) (searchQuery st) (searchResults st) (isSearchLoading st)
    (searchError st) (commentsVideoId st) (comments st) (commentsError st)
    (isCommentsLoading st) (workflows st) (selectedWorkflowId st) (runLog st)
    (isRunningWorkflow st) (workflowDraftName st) (workflowDraftSchedule st)
    (stepDraftType st) v.

(** [setRunLog((prev) => [line, ...prev])] *)
Definition logLine (line : string) (st : PageState) : PageState :=
  with_runLog (line :: runLog st) st.

(** [a || b] on strings: the empty string is falsy. *)
Definition or_string (a b : string) : string := if decide (a = "") then b else a.

(** [a || b] when [a] may be [undefined]. *)
Definition or_else (a : option string) (b : string) : string :=
  match a with
  | Some s => or_string s b
  | None => b
  end.

(** [!x] for a string that may be [undefined]. *)
Definition falsy (x : option string) : bool :=
  match x with
  | Some s => bool_decide (s = "")
  | None => true
  end.

(** [workflows.find((workflow) => workflow.id === selectedWorkflowId) ?? null] *)
Definition selectedWorkflow (st : PageState) : option AutomationWorkflow :=
  match selectedWorkflowId st with
  | Some i => List.find (fun workflow => bool_decide (id workflow = i)) (workflows st)
  | None => None
  end.

(** [uuid] is what [crypto.randomUUID()] returns. *)
Definition addWorkflow (uuid : string) (name : string) (schedule : WorkflowSchedule)
    (st : PageState) : PageState :=
  let newWorkflow := mkWorkflow uuid name schedule [] in
  setSelectedWorkflowId (Some (id newWorkflow))
    (setWorkflows (newWorkflow :: workflows st) st).

Definition updateWorkflow (updated : AutomationWorkflow) (st : PageState) : PageState :=
  setWorkflows
    (map (fun workflow => if decide (id workflow = id updated) then updated else workflow)
       (workflows st))
    st.

Definition keep_others (workflowId : string) (l : list AutomationWorkflow)
  : list AutomationWorkflow :=
  List.filter (fun workflow => negb (bool_decide (id workflow = workflowId))) l.

Definition removeWorkflow (workflowId : string) (st : PageState) : PageState :=
  let st' := setWorkflows (keep_others workflowId (workflows st)) st in
  if decide (selectedWorkflowId st = Some workflowId)
  then setSelectedWorkflowId (id <$> head (keep_others workflowId (workflows st))) st'
  else st'.

(** The initial draft: [{ channelId: '', query: '', videoId: '' }]. *)
Definition initialStepDraftConfig : gmap string string :=
  <[ "videoId" := "" ]> (<[ "query" := "" ]> (<[ "channelId" := "" ]> ∅)).

(** The effect on [stepDraftType, channelId, searchQuery, commentsVideoId]:
    it fills the field of the current type when that field is empty. *)
Definition stepDraftEffect (st : PageState) : PageState :=
  let prev := stepDraftConfig st in
  setStepDraftConfig
    match stepDraftType st with
    | ChannelStats =>
        <[ "channelId" := or_else (prev !! "channelId") (channelId st) ]> prev
    | SearchVideos =>
        <[ "query" := or_string (or_else (prev !! "query") (searchQuery st))
                        "youtube automation ideas" ]> prev
    | FetchComments =>
        <[ "videoId" := or_else (prev !! "videoId") (commentsVideoId st) ]> prev
    end
    st.

Definition resetStepDraft (st : PageState) : PageState :=
  setStepDraftConfig
    (<[ "videoId" := commentsVideoId st ]>
       (<[ "query" := searchQuery st ]> (<[ "channelId" := channelId st ]> ∅)))
    (setStepDraftType ChannelStats st).

Definition fill_warning : string := "‚ö†Ô∏è Fill in the required fields for the new step.".

(** The value the new step needs, read from the draft. *)
Definition requiredField (st : PageState) : option string :=
  match stepDraftType st with
  | ChannelStats => Some (or_else (stepDraftConfig st !! "channelId") (channelId st))
  | SearchVideos => stepDraftConfig st !! "query"
  | FetchComments => stepDraftConfig st !! "videoId"
  end.

(** The step built from the draft. Behind the guard on [requiredField]
    the draft value of a search or comments step is a string; [?? ""] only
    covers the [undefined] the guard has excluded. *)
Definition draftStep (uuid : string) (st : PageState) : WorkflowStep :=
  mkStep uuid (stepDraftType st)
    match stepDraftType st with
    | ChannelStats =>
        {[ "channelId" := or_else (stepDraftConfig st !! "channelId") (channelId st) ]}
    | SearchVideos => {[ "query" := stepDraftConfig st !! "query" ?? "" ]}
    | FetchComments => {[ "videoId" := stepDraftConfig st !! "videoId" ?? "" ]}
    end.

Definition with_steps (l : list WorkflowStep) (workflow : AutomationWorkflow)
  : AutomationWorkflow :=
  mkWorkflow (id workflow) (name workflow) (schedule workflow) l.

Definition addStepToWorkflow (uuid : string) (st : PageState) : PageState :=
  match selectedWorkflow st with
  | None => st
  | Some selected =>
      if falsy (requiredField st) then logLine fill_warning st
      else
        let step := draftStep uuid st in
        resetStepDraft
          (updateWorkflow (with_steps (steps selected ++ [step])%list selected) st)
  end.

Definition removeStep (stepId : string) (st : PageState) : PageState :=
  match selectedWorkflow st with
  | None => st
  | Some selected =>
      updateWorkflow
        (with_steps
           (List.filter (fun step => negb (bool_decide (step_id step = stepId)))
              (steps selected))
           selected)
        st
  end.

Definition name_warning : string := "‚ö†Ô∏è Name your workflow before saving.".

(** The click handler of "Create workflow". *)
Definition createWorkflow_onClick (uuid : string) (st : PageState) : PageState :=
  if decide (workflowDraftName st = "") then logLine name_warning st
  else setWorkflowDraftName ""
         (addWorkflow uuid (workflowDraftName st) (workflowDraftSchedule st) st).

Definition cleared_line : string := "üßπ Cleared API key and default channel.".

(** The click handler of "Reset". *)
Definition reset_onClick (st : PageState) : PageState :=
  logLine cleared_line (setChannelStats None (setChannelId "" (setApiKey "" st))).

End Store.

(** ** app/page.tsx: the three query panels *)

Module Panels.
Import Js Types Page Store.

(** A state update inside a run. *)
Definition modify (f : PageState -> PageState) : Run unit := fun w =>
  (inr tt, {| page := f (page w); calls := calls w |}).

(** How a panel reads a route's answer: [throw new Error(error ?? fallback)]
    when it is not ok, else the [data] field, which it does not inspect. *)
Definition read_body {D} (response : ClientResponse D) (fallback : string)
  : Run (option D) :=
  if negb (ok response) then
    b ← await (json response);
    throw (error b ?? fallback)
  else
    b ← await (json response);
    mret (data b).

Section Panel.

Variable net : Network.

Definition fetchChannel (w : World) : World :=
  let st := page w in
  ((_ ← modify (setChannelError None);
   _ ← modify (setIsChannelLoading true);
   _ ← try_catch
         (response ← fetch_channel net (apiKey st) (channelId st);
          data ← read_body response "Unable to fetch channel data.";
          modify (setChannelStats data))
         (fun message =>
            _ ← modify (setChannelError (Some message));
            modify (setChannelStats None));
   modify (setIsChannelLoading false)) w).2.

(** [None]: the answer was ok but had no [data], and [searchResults] is
    no longer a list. *)
Definition fetchSearch (w : World) : option World :=
  let st := page w in
  let started := setIsSearchLoading true (setSearchError None st) in
  match (response ← fetch_search net (apiKey st) (searchQuery st);
         read_body response "Unable to run search.")
          {| page := started; calls := calls w |} with
  | (inr (Some data), w') =>
      Some {| page := setIsSearchLoading false (setSearchResults data (page w'));
              calls := calls w' |}
  | (inr None, _) => None
  | (inl message, w') =>
      Some {| page := setIsSearchLoading false
                        (setSearchResults [] (setSearchError (Some message) (page w')));
              calls := calls w' |}
  end.

(** [None]: as for [fetchSearch], with [comments]. *)
Definition fetchComments (w : World) : option World :=
  let st := page w in
  let started := setIsCommentsLoading true (setCommentsError None st) in
  match (response ← fetch_comments net (apiKey st) (commentsVideoId st);
         read_body response "Unable to fetch comments.")
          {| page := started; calls := calls w |} with
  | (inr (Some data), w') =>
      Some {| page := setIsCommentsLoading false (setComments data (page w'));
              calls := calls w' |}
  | (inr None, _) => None
  | (inl message, w') =>
      Some {| page := setIsCommentsLoading false
                        (setComments [] (setCommentsError (Some message) (page w')));
              calls := calls w' |}
  end.

End Panel.

End Panels.

(** ** Vocabulary for the store's properties *)

Module StoreSpec.
Import Js Types Page Store.

(** The configuration key each step type reads. *)
Definition config_key (t : WorkflowStepType) : string :=
  match t with
  | ChannelStats => "channelId"
  | SearchVideos => "query"
  | FetchComments => "videoId"
  end.

(** A step that carries a non-empty value under the key of its type. *)
Definition well_configured (step : WorkflowStep) : Prop :=
  exists v, config step !! config_key (type step) = Some v /\ v <> "".

(** Every step of every workflow is well configured. *)
Definition all_configured (st : PageState) : Prop :=
  Forall (fun workflow => Forall well_configured (steps workflow)) (workflows st).

(** The selection, when there is one, names a stored workflow. *)
Definition selection_valid (st : PageState) : Prop :=
  forall i, selectedWorkflowId st = Some i -> i ∈ id <$> workflows st.

(** No two stored workflows share an id. *)
Definition ids_distinct (st : PageState) : Prop := NoDup (id <$> workflows st).

(** Every stored workflow has a name. *)
Definition all_named (st : PageState) : Prop :=
  Forall (fun workflow => name workflow <> "") (workflows st).

(** The three together. *)
Definition store_ok (st : PageState) : Prop :=
  selection_valid st /\ ids_distinct st /\ all_named st.

End StoreSpec.

(** ** More vocabulary for the routes *)

Module RouteSpec2.
Import Js Zod Http Types.

(** The request body parses as JSON to an object whose two fields are
    strings of the required lengths, [k] and [x]. *)
Definition body_fields (schema : ZodObject) (request : Request) (k x : string) : Prop :=
  exists payload,
    request_json request = Resolves payload /\
    get (key1 schema) payload = Some (VString k) /\
    (minLength (schema1 schema) <= js_length k)%nat /\
    get (key2 schema) payload = Some (VString x) /\
    (minLength (schema2 schema) <= js_length x)%nat.

(** The answer carries data. *)
Definition has_data {D} (r : NextResponse D) : Prop := exists d, body r = DataBody d.

(** The answer reads as ok on the client: its status is in 200..299. *)
Definition answers_ok {D} (r : NextResponse D) : Prop := 200 <= init_status r <= 299.

(** Data with status 200, or an error with a status outside 200..299. *)
Definition answer_shape {D} (r : NextResponse D) : Prop :=
  (exists d, r = NextResponse_json (DataBody d) 200) \/
  (exists e st, r = NextResponse_json (ErrorBody e) st /\ ~ (200 <= st <= 299)).

End RouteSpec2.

(** ** Vocabulary for the panels' properties *)

Module PanelSpec.
Import Js Http Types Page Deployment.

(** The route gave no usable answer: the fetch failed, the answer is not
    ok, or its body is not JSON. *)
Definition answered_error {D} (o : outcome (ClientResponse D)) : Prop :=
  match o with
  | Rejects _ => True
  | Resolves r => Page.ok r = false \/ exists m, Page.json r = Rejects m
  end.

(** The answer was ok and its body had no [data]. *)
Definition ok_without_data {D} (o : outcome (ClientResponse D)) : Prop :=
  exists r b, o = Resolves r /\ Page.ok r = true /\
              Page.json r = Resolves b /\ data b = None.

Definition error_of {D} (r : NextResponse D) : option string :=
  match body r with
  | ErrorBody e => Some e
  | DataBody _ => None
  end.

Definition data_of {D} (r : NextResponse D) : option D :=
  match body r with
  | ErrorBody _ => None
  | DataBody d => Some d
  end.

(** The error string of the route's answer to a call of the page, when
    YouTube is [yt]; [None] when the route answers with data. *)
Definition route_error (yt : YouTube) (c : ApiCall) : option string :=
  match c with
  | PostChannel k x =>
      error_of (ChannelRoute.POST (channels yt) (post_body "apiKey" k "channelId" x)).2
  | PostSearch k x =>
      error_of (SearchRoute.POST (search yt) (post_body "apiKey" k "query" x)).2
  | PostComments k x =>
      error_of (CommentsRoute.POST (commentThreads yt) (post_body "apiKey" k "videoId" x)).2
  end.

End PanelSpec.

(** ** More vocabulary for the runner *)

Module RunnerSpec2.
Import Js Types Page RunnerSpec.

(** The lines logged when the steps of [todo] are dispatched one after
    the other and all succeed, first step first. *)
Fixpoint success_lines (formatNumber : number -> string) (net : Network)
    (st : PageState) (history : list ApiCall) (todo : list WorkflowStep)
  : option (list string) :=
  match todo with
  | [] => Some []
  | step :: todo =>
      line ← success_line formatNumber net history st step;
      lines ← success_lines formatNumber net st (history ++ [request_of st step])%list todo;
      Some (line :: lines)
  end.

(** Every ok answer of the network carries data. *)
Definition answers_with_data (net : Network) : Prop :=
  (forall history k c, ~ PanelSpec.ok_without_data (post_channel net history k c)) /\
  (forall history k q, ~ PanelSpec.ok_without_data (post_search net history k q)) /\
  (forall history k v, ~ PanelSpec.ok_without_data (post_comments net history k v)).

(** Two worlds a run cannot tell apart: the same calls so far and the same
    log. *)
Definition alike (w w' : World) : Prop :=
  calls w' = calls w /\ runLog (page w') = runLog (page w).

(** The world in which the loop of a run starts. *)
Definition started (workflow : AutomationWorkflow) (w : World) : World :=
  {| page := with_runLog (running_line workflow :: runLog (page w))
               (with_isRunningWorkflow true (page w));
     calls := calls w |}.

End RunnerSpec2.

(** ** More vocabulary for persistence *)

Module PersistenceSpec.
Import Js Types Page Persistence.

(** A slot that cannot be read: no window, no item, an empty text, or
    text that is not JSON. *)
Definition slot_unreadable (window : Window) (key : string) : Prop :=
  match window with
  | None => True
  | Some localStorage =>
      match getItem key localStorage with
      | None => True
      | Some raw => raw = "" \/ exists m, JSON.parse raw = Rejects m
      end
  end.

(** What a slot holds after a write of [text] was attempted. *)
Definition slot_after (localStorage : LocalStorage) (key text : string) : option string :=
  if quota_exceeded localStorage key text then getItem key localStorage else Some text.

(** The same storage later on: it holds the items left behind, and
    refuses what it then refuses. *)
Definition later (localStorage : LocalStorage) (refuses : string -> string -> bool)
  : LocalStorage :=
  mkLocalStorage (items localStorage) refuses.

End PersistenceSpec.

(** ** More example inputs *)

Module Examples2.
Import Js Zod Http Types Page Persistence Deployment Examples.

(** The network is down: [fetch] rejects. *)
Definition refused {I} : Fetch I := fun _ => Rejects "fetch failed".

(** A request whose body is not JSON. *)
Definition garbled : Request := mkRequest (Rejects "Unexpected token < in JSON at position 0").

(** A workflow whose two steps the routes accept. *)
Definition workflow_ok : AutomationWorkflow :=
  mkWorkflow "w2" "Evening check" manual [step_A; step_C].

(** A network whose answers are ok and carry no data. *)
Definition hollow : Network :=
  {| post_channel := fun _ _ _ => Resolves (mkClientResponse true (Resolves (mkClientBody None None)));
     post_search := fun _ _ _ => Resolves (mkClientResponse true (Resolves (mkClientBody None None)));
     post_comments := fun _ _ _ => Resolves (mkClientResponse true (Resolves (mkClientBody None None))) |}.

(** A storage whose key slot holds text that is not JSON and whose channel
    slot holds the empty text; the workflows slot is missing. *)
Definition broken_storage : LocalStorage :=
  mkLocalStorage {[ STORAGE_KEYS.apiKey := "{oops"; STORAGE_KEYS.channelId := "" ]}
    (fun _ _ => false).

End Examples2.

(** * Properties *)

(** ** The workflow runner *)

Section RunnerFacts.
Import Js Types Page RunnerSpec.

Variable formatNumber : number -> string.
Variable net : Network.

Ltac run_unfold :=
  unfold fetch_channel, fetch_search, fetch_comments, read_data, dereference,
    setRunLog_reading, record_call,
    setRunLog, setIsRunningWorkflow, try_catch, await, mbind, Run_bind, bind,
    mret, Run_ret, ret, throw in *.

Lemma run_step_success st step w line :
  success_line formatNumber net (calls w) st step = Some line ->
  run_step formatNumber net st step w =
    (inr tt, {| page := with_runLog (line :: runLog (page w)) (page w);
                calls := (calls w ++ [request_of st step])%list |}).
Proof.
  unfold success_line, request_of, run_step, succeeded.
  destruct (type step); run_unfold; cbn;
    repeat (case_match; simplify_eq/=); by intros [= <-].
Qed.

Lemma run_step_failure st step w message :
  failure_message net (calls w) st step = Some message ->
  run_step formatNumber net st step w =
    (inl message, {| page := page w; calls := (calls w ++ [request_of st step])%list |}).
Proof.
  unfold failure_message, thrown, request_of, run_step, succeeded.
  destruct (type step); run_unfold; cbn;
    repeat (case_match; simplify_eq/=); intros; by simplify_eq/=.
Qed.

(** Neither a success nor a failure: the answer was ok and had no [data],
    and the step reads it in the log updater. The call was issued and the
    log is as it was. *)
Lemma run_step_silent st step w :
  success_line formatNumber net (calls w) st step = None ->
  failure_message net (calls w) st step = None ->
  run_step formatNumber net st step w =
    (inr tt, {| page := page w; calls := (calls w ++ [request_of st step])%list |}).
Proof.
  unfold success_line, failure_message, thrown, request_of, run_step, succeeded.
  destruct (type step); run_unfold; cbn;
    repeat (case_match; simplify_eq/=); intros; by simplify_eq/=.
Qed.

Lemma for_steps_cons_success st workflow step todo w line :
  success_line formatNumber net (calls w) st step = Some line ->
  for_steps formatNumber net st workflow (step :: todo) w =
    for_steps formatNumber net st workflow todo
      {| page := with_runLog (line :: runLog (page w)) (page w);
         calls := (calls w ++ [request_of st step])%list |}.
Proof.
  intros Hok. cbn [for_steps]. unfold mbind, Run_bind, bind, try_catch at 1.
  by rewrite (run_step_success _ _ _ _ Hok).
Qed.

Lemma for_steps_cons_failure st workflow step todo w message :
  failure_message net (calls w) st step = Some message ->
  for_steps formatNumber net st workflow (step :: todo) w =
    (inr tt,
     {| page := with_runLog (failure_line workflow message :: runLog (page w)) (page w);
        calls := (calls w ++ [request_of st step])%list |}).
Proof.
  intros Hko. cbn [for_steps]. unfold mbind, Run_bind, bind, try_catch at 1.
  by rewrite (run_step_failure _ _ _ _ Hko).
Qed.

Lemma for_steps_cons_silent st workflow step todo w :
  success_line formatNumber net (calls w) st step = None ->
  failure_message net (calls w) st step = None ->
  for_steps formatNumber net st workflow (step :: todo) w =
    for_steps formatNumber net st workflow todo
      {| page := page w; calls := (calls w ++ [request_of st step])%list |}.
Proof.
  intros Hno Hko. cbn [for_steps]. unfold mbind, Run_bind, bind, try_catch at 1.
  by rewrite (run_step_silent _ _ _ Hno Hko).
Qed.

(** The calls the loop issued are those of a prefix of the steps, in
    order; the first step is always dispatched. *)
Lemma for_steps_calls st workflow todo : forall w,
  exists k w',
    for_steps formatNumber net st workflow todo w = (inr tt, w') /\
    calls w' = (calls w ++ map (request_of st) (take k todo))%list /\
    (todo <> [] -> (0 < k)%nat).
Proof.
  induction todo as [|step todo IH]; intros w.
  - exists 0%nat, w. cbn. by rewrite app_nil_r.
  - destruct (failure_message net (calls w) st step) as [message|] eqn:Hko.
    { rewrite (for_steps_cons_failure _ _ _ _ _ _ Hko).
      exists 1%nat. eexists. split; [done|]. split; [|lia].
      cbn. by rewrite take_0. }
    destruct (success_line formatNumber net (calls w) st step) as [line|] eqn:Hline.
    + rewrite (for_steps_cons_success _ _ _ _ _ _ Hline).
      destruct (IH {| page := with_runLog (line :: runLog (page w)) (page w);
                      calls := (calls w ++ [request_of st step])%list |})
        as (k & w' & -> & Hcalls & _).
      exists (S k), w'. split; [done|]. split; [|lia].
      rewrite Hcalls. cbn. by rewrite <- app_assoc.
    + rewrite (for_steps_cons_silent _ _ _ _ _ Hline Hko).
      destruct (IH {| page := page w; calls := (calls w ++ [request_of st step])%list |})
        as (k & w' & -> & Hcalls & _).
      exists (S k), w'. split; [done|]. split; [|lia].
      rewrite Hcalls. cbn. by rewrite <- app_assoc.
Qed.

(** C2. With an empty API key the runner only adds the warning line: the
    log gains exactly that one line (at its head, where every line is
    added), no call is issued, and every other state cell keeps its
    value. *)
Theorem runWorkflow_without_apiKey workflow w :
  apiKey (page w) = "" ->
  exists st',
    runWorkflow formatNumber net (Some workflow) w = (inr tt, {| page := st'; calls := calls w |}) /\
    runLog st' = warning_line :: runLog (page w) /\
    with_runLog (runLog (page w)) st' = page w.
Proof.
  intros Hkey. exists (with_runLog (warning_line :: runLog (page w)) (page w)).
  unfold runWorkflow. rewrite decide_True by done.
  split; [done|]. split; [done|]. by destruct w as [[] ?].
Qed.

(** C1. With an API key and steps [A; B; C], when the dispatch of A
    succeeds and that of B fails (its call is refused, is answered with an
    error, or cannot be read), the run ends with the log extended by the
    start line, the success line of A and the failure line of B carrying
    B's message, in that order of arrival and nothing else; only A and B
    were dispatched, and the running flag is back to false. *)
Theorem runWorkflow_stops_at_first_failure workflow w A B C lineA message :
  apiKey (page w) <> "" ->
  steps workflow = [A; B; C] ->
  success_line formatNumber net (calls w) (page w) A = Some lineA ->
  failure_message net (calls w ++ [request_of (page w) A]) (page w) B = Some message ->
  exists w',
    runWorkflow formatNumber net (Some workflow) w = (inr tt, w') /\
    runLog (page w') =
      failure_line workflow message :: lineA :: running_line workflow :: runLog (page w) /\
    calls w' = (calls w ++ [request_of (page w) A; request_of (page w) B])%list /\
    isRunningWorkflow (page w') = false.
Proof.
  intros Hkey Hsteps HA HB.
  unfold runWorkflow. rewrite decide_False by done. rewrite Hsteps.
  unfold mbind, Run_bind, bind at 1 2 3. cbn [setIsRunningWorkflow setRunLog].
  rewrite (for_steps_cons_success _ _ _ _ _ lineA) by done. cbn [page calls].
  rewrite (for_steps_cons_failure _ _ _ _ _ message) by exact HB.
  eexists. split; [done|]. cbn.
  by rewrite <- app_assoc.
Qed.

(** C3 as amended. Every call issued for a search step carries the step's
    own [query] when its configuration has one (whatever string it is) and
    the live search field otherwise; the call of the first step is always
    issued. *)
Theorem runWorkflow_search_query workflow w q :
  apiKey (page w) <> "" ->
  searchQuery (page w) = q ->
  exists w',
    runWorkflow formatNumber net (Some workflow) w = (inr tt, w') /\
    (steps workflow <> [] -> is_Some (calls w' !! length (calls w))) /\
    forall i step c,
      steps workflow !! i = Some step ->
      type step = SearchVideos ->
      calls w' !! (length (calls w) + i)%nat = Some c ->
      (config step !! "query" = None -> c = PostSearch (apiKey (page w)) q) /\
      (forall x, config step !! "query" = Some x -> c = PostSearch (apiKey (page w)) x).
Proof.
  intros Hkey Hq.
  unfold runWorkflow. rewrite decide_False by done.
  unfold mbind, Run_bind, bind at 1 2 3. cbn [setIsRunningWorkflow setRunLog].
  edestruct (for_steps_calls (page w) workflow (steps workflow)) as (k & w' & -> & Hcalls & Hk).
  cbn [calls] in Hcalls. eexists. split; [done|]. cbn [calls setIsRunningWorkflow].
  rewrite Hcalls. split.
  - intros Hne. specialize (Hk Hne).
    rewrite lookup_app_r by lia. rewrite Nat.sub_diag.
    destruct (steps workflow) as [|s l]; [done|]. destruct k; [lia|]. by eexists.
  - intros i step c Hi Htype.
    rewrite lookup_app_r by lia.
    replace (length (calls w) + i - length (calls w))%nat with i by lia.
    rewrite list_lookup_fmap. intros Hc.
    destruct (take k (steps workflow) !! i) as [step'|] eqn:Htake; [|done].
    apply lookup_take_Some in Htake as [Hi' _].
    assert (step' = step) as -> by congruence.
    cbn in Hc. injection Hc as <-. unfold request_of. rewrite Htype, Hq.
    split; [by intros ->|by intros x ->].
Qed.

End RunnerFacts.

(** ** Validation by the routes *)

Section ValidationFacts.
Import Js Zod Http Types RouteSpec.

Lemma invalid_type_nonempty expected input : invalid_type expected input <> "".
Proof. by destruct input. Qed.

Lemma parse_string_valid s input x :
  input = Some (VString x) -> (minLength s <= js_length x)%nat ->
  parse_string s input = ([], Some x).
Proof. intros -> Hlen. cbn. by rewrite decide_False by lia. Qed.

Lemma parse_string_invalid s input :
  ~ valid_field s input ->
  exists message,
    (parse_string s input).1 = [message] /\
    (message = minMessage s \/ message = invalid_type "string" input).
Proof.
  intros Hbad. unfold parse_string.
  destruct input as [[| | |x| |]|]; cbn; eauto.
  case_decide; cbn; eauto.
  destruct Hbad. exists x. split; [done|lia].
Qed.

Lemma parse_string_issues s input :
  (parse_string s input).1 = [] -> valid_field s input.
Proof.
  unfold parse_string. destruct input as [[| | |x| |]|]; cbn; try done.
  case_decide; [done|]. intros _. exists x. split; [done|lia].
Qed.

Lemma parse_string_message s input message rest :
  minMessage s <> "" ->
  (parse_string s input).1 = message :: rest -> message <> "".
Proof.
  intros Hm. unfold parse_string.
  destruct input as [[| | |x| |]|]; cbn; try by intros [= <- _].
  case_decide; cbn; [|done]. by intros [= <- _].
Qed.

(** A failed parse throws a ZodError whose first issue is not empty. *)
Lemma parse_invalid schema payload :
  minMessage (schema1 schema) <> "" -> minMessage (schema2 schema) <> "" ->
  invalid_for schema payload ->
  exists message rest,
    parse schema payload = inl (ZodError (message :: rest)) /\ message <> "".
Proof.
  intros Hm1 Hm2 Hbad. unfold parse.
  destruct payload as [| | | | |fields];
    try (eexists _, []; split; [reflexivity|]; by apply invalid_type_nonempty).
  destruct (parse_string (schema1 schema) _) as [issues1 r1] eqn:H1.
  destruct (parse_string (schema2 schema) _) as [issues2 r2] eqn:H2.
  destruct issues1 as [|m1 issues1].
  - destruct issues2 as [|m2 issues2].
    + destruct Hbad as [Hbad|Hbad]; destruct Hbad;
        apply parse_string_issues; [by rewrite H1|by rewrite H2].
    + cbn. exists m2, issues2. split; [by destruct r1, r2|].
      eapply (parse_string_message (schema2 schema)); [done|by rewrite H2].
  - cbn. exists m1, (issues1 ++ issues2)%list. split; [by destruct r1, r2|].
    eapply (parse_string_message (schema1 schema)); [done|by rewrite H1].
Qed.

(** A string shorter than the minimum under the first key makes its
    message the first issue. *)
Lemma parse_short_key1 schema payload x :
  get (key1 schema) payload = Some (VString x) ->
  (js_length x < minLength (schema1 schema))%nat ->
  exists rest, parse schema payload = inl (ZodError (minMessage (schema1 schema) :: rest)).
Proof.
  intros Hget Hlen. unfold parse. destruct payload; try done.
  rewrite Hget. cbn [parse_string]. rewrite decide_True by done.
  destruct (parse_string (schema2 schema) _) as [issues2 r2]. cbn. eauto.
Qed.

(** The same under the second key, when the first key is valid. *)
Lemma parse_short_key2 schema payload x1 x2 :
  get (key1 schema) payload = Some (VString x1) ->
  (minLength (schema1 schema) <= js_length x1)%nat ->
  get (key2 schema) payload = Some (VString x2) ->
  (js_length x2 < minLength (schema2 schema))%nat ->
  parse schema payload = inl (ZodError [minMessage (schema2 schema)]).
Proof.
  intros Hget1 Hlen1 Hget2 Hlen2. unfold parse. destruct payload; try done.
  rewrite Hget1, Hget2. cbn [parse_string].
  rewrite decide_False by lia. by rewrite decide_True by done.
Qed.

Lemma parse_valid schema payload x1 x2 :
  get (key1 schema) payload = Some (VString x1) ->
  (minLength (schema1 schema) <= js_length x1)%nat ->
  get (key2 schema) payload = Some (VString x2) ->
  (minLength (schema2 schema) <= js_length x2)%nat ->
  parse schema payload = inr (x1, x2).
Proof.
  intros Hget1 Hlen1 Hget2 Hlen2. unfold parse. destruct payload; try done.
  rewrite Hget1, Hget2. cbn [parse_string].
  rewrite decide_False by lia. by rewrite decide_False by lia.
Qed.

End ValidationFacts.

(** ** The three routes *)

Section RouteFacts.
Import Js Zod Http Types RouteSpec.

Ltac route_unfold :=
  unfold ChannelRoute.POST, SearchRoute.POST, CommentsRoute.POST,
    lift, await, fetch_, try_catch, mbind, Handler_bind, Http.bind,
    mret, Handler_ret, Http.ret, Http.throw; cbn [request_json].

(** Steps shared by the proofs: the body parsed to [(a, b)], YouTube
    answered [response]. *)
Ltac route_answered Hparse Hfetch :=
  route_unfold; rewrite Hparse; cbn; rewrite Hfetch; cbn.

Lemma pick_thumbnail_none thumbnails :
  no_thumbnail thumbnails -> pick_thumbnail thumbnails = "".
Proof. intros (H1 & H2 & H3). unfold pick_thumbnail. by rewrite H1, H2, H3. Qed.

Lemma ok_false {B} (response : Response B) :
  ~ (200 <= status response <= 299) -> ok response = false.
Proof. intros. unfold ok. by rewrite bool_decide_eq_false. Qed.

(** C4. A body in which the API key or the route's own field fails
    validation is answered 400 with the first validation error, which is
    not empty, and without any call to YouTube. *)
Theorem routes_reject_invalid_body payload :
  (forall fetch, invalid_for ChannelRoute.bodySchema payload ->
     exists message rest,
       parse ChannelRoute.bodySchema payload = inl (ZodError (message :: rest)) /\
       message <> "" /\
       ChannelRoute.POST fetch (mkRequest (Resolves payload)) =
         ([], NextResponse_json (ErrorBody message) 400)) /\
  (forall fetch, invalid_for SearchRoute.bodySchema payload ->
     exists message rest,
       parse SearchRoute.bodySchema payload = inl (ZodError (message :: rest)) /\
       message <> "" /\
       SearchRoute.POST fetch (mkRequest (Resolves payload)) =
         ([], NextResponse_json (ErrorBody message) 400)) /\
  (forall fetch, invalid_for CommentsRoute.bodySchema payload ->
     exists message rest,
       parse CommentsRoute.bodySchema payload = inl (ZodError (message :: rest)) /\
       message <> "" /\
       CommentsRoute.POST fetch (mkRequest (Resolves payload)) =
         ([], NextResponse_json (ErrorBody message) 400)).
Proof.
  repeat split; intros fetch Hbad;
    (edestruct parse_invalid as (message & rest & Hparse & Hne); [| |exact Hbad|];
       [done|done|]);
    exists message, rest; (split; [done|]); (split; [done|]);
    route_unfold; by rewrite Hparse.
Qed.

Ltac short_key schema Hget Hlen :=
  let rest := fresh "rest" in
  let Hparse := fresh "Hparse" in
  destruct (parse_short_key1 schema _ _ Hget Hlen) as [rest Hparse];
  route_unfold; by rewrite Hparse.

Ltac short_field schema Hget Hlen :=
  let message := fresh "message" in
  let rest := fresh "rest" in
  let Hparse := fresh "Hparse" in
  let k := fresh "k" in
  let Hk := fresh "Hk" in
  let Hklen := fresh "Hklen" in
  edestruct (parse_invalid schema) as (message & rest & Hparse & _);
    [| |right; intros (? & Hx & ?); cbn in Hx; rewrite Hget in Hx;
        injection Hx as <-; cbn in *; lia|];
    [done|done|];
  exists message; (split; [route_unfold; by rewrite Hparse|]);
  intros (k & Hk & Hklen);
  rewrite (parse_short_key2 schema _ _ _ Hk Hklen Hget Hlen) in Hparse;
  by injection Hparse as <- _.

(** C8. A key shorter than 10 code units, empty or not, is answered 400
    with "API key is required"; a channel id or video id shorter than 3, or
    a query shorter than 2, is answered 400 as well, with the field's own
    message when the key is valid. No call to YouTube is made. *)
Theorem routes_enforce_minimum_lengths payload :
  (forall fetch k, get "apiKey" payload = Some (VString k) -> (js_length k < 10)%nat ->
     ChannelRoute.POST fetch (mkRequest (Resolves payload)) =
       ([], NextResponse_json (ErrorBody "API key is required") 400)) /\
  (forall fetch k, get "apiKey" payload = Some (VString k) -> (js_length k < 10)%nat ->
     SearchRoute.POST fetch (mkRequest (Resolves payload)) =
       ([], NextResponse_json (ErrorBody "API key is required") 400)) /\
  (forall fetch k, get "apiKey" payload = Some (VString k) -> (js_length k < 10)%nat ->
     CommentsRoute.POST fetch (mkRequest (Resolves payload)) =
       ([], NextResponse_json (ErrorBody "API key is required") 400)) /\
  (forall fetch x, get "channelId" payload = Some (VString x) -> (js_length x < 3)%nat ->
     exists message,
       ChannelRoute.POST fetch (mkRequest (Resolves payload)) =
         ([], NextResponse_json (ErrorBody message) 400) /\
       (valid_field (schema1 ChannelRoute.bodySchema) (get "apiKey" payload) ->
        message = "Channel ID is required")) /\
  (forall fetch x, get "query" payload = Some (VString x) -> (js_length x < 2)%nat ->
     exists message,
       SearchRoute.POST fetch (mkRequest (Resolves payload)) =
         ([], NextResponse_json (ErrorBody message) 400) /\
       (valid_field (schema1 SearchRoute.bodySchema) (get "apiKey" payload) ->
        message = "Search query is required")) /\
  (forall fetch x, get "videoId" payload = Some (VString x) -> (js_length x < 3)%nat ->
     exists message,
       CommentsRoute.POST fetch (mkRequest (Resolves payload)) =
         ([], NextResponse_json (ErrorBody message) 400) /\
       (valid_field (schema1 CommentsRoute.bodySchema) (get "apiKey" payload) ->
        message = "Video ID is required")).
Proof.
  split_and!; intros fetch x Hget Hlen.
  - short_key ChannelRoute.bodySchema Hget Hlen.
  - short_key SearchRoute.bodySchema Hget Hlen.
  - short_key CommentsRoute.bodySchema Hget Hlen.
  - short_field ChannelRoute.bodySchema Hget Hlen.
  - short_field SearchRoute.bodySchema Hget Hlen.
  - short_field CommentsRoute.bodySchema Hget Hlen.
Qed.

Lemma json_relayable {D} (body : Payload D) status :
  relayable status -> NextResponse.json body status = Http.ret (NextResponse_json body status).
Proof.
  intros (Hrange & H204 & H205 & H304). unfold NextResponse.json, null_body_status.
  replace ((status <? 200) || (599 <? status))%Z with false
    by (symmetry; apply orb_false_intro; lia).
  replace (status =? 101)%Z with false by lia. replace (status =? 103)%Z with false by lia.
  replace (status =? 204)%Z with false by lia. replace (status =? 205)%Z with false by lia.
  by replace (status =? 304)%Z with false by lia.
Qed.

Lemma json_not_relayable {D} (body : Payload D) status :
  ~ relayable status -> exists message, NextResponse.json body status = Http.throw (Error message).
Proof.
  intros Hno. unfold NextResponse.json.
  destruct ((status <? 200) || (599 <? status))%Z eqn:Hrange; [by eexists|].
  destruct (null_body_status status) eqn:Hnull; [by eexists|].
  destruct Hno. apply orb_false_elim in Hrange as [? ?].
  unfold null_body_status in Hnull.
  repeat (apply orb_false_elim in Hnull as [Hnull ?]). unfold relayable. lia.
Qed.

(** C5 as amended. When YouTube answers with a status outside 200..299
    that a response with a body can carry, the route relays that status
    with YouTube's own message when the body has one, else with
    "YouTube API responded with <status>". A status that cannot be relayed
    (304, or one outside 200..599) is answered 400 with an error message,
    the failure to build the response being caught like any other. *)
Theorem routes_relay_upstream_failure payload a b :
  (forall fetch response,
     parse ChannelRoute.bodySchema payload = inr (a, b) ->
     fetch (ChannelRoute.build_url a b) = Resolves response ->
     ok response = false ->
     (relayable (status response) ->
      ChannelRoute.POST fetch (mkRequest (Resolves payload)) =
        ([ChannelRoute.build_url a b],
         NextResponse_json
           (ErrorBody (platform_message response
                         ?? ("YouTube API responded with " +:+ pretty (status response))))
           (status response))) /\
     (~ relayable (status response) ->
      exists message,
        ChannelRoute.POST fetch (mkRequest (Resolves payload)) =
          ([ChannelRoute.build_url a b], NextResponse_json (ErrorBody message) 400))) /\
  (forall fetch response,
     parse SearchRoute.bodySchema payload = inr (a, b) ->
     fetch (SearchRoute.build_url a b) = Resolves response ->
     ok response = false ->
     (relayable (status response) ->
      SearchRoute.POST fetch (mkRequest (Resolves payload)) =
        ([SearchRoute.build_url a b],
         NextResponse_json
           (ErrorBody (platform_message response
                         ?? ("YouTube API responded with " +:+ pretty (status response))))
           (status response))) /\
     (~ relayable (status response) ->
      exists message,
        SearchRoute.POST fetch (mkRequest (Resolves payload)) =
          ([SearchRoute.build_url a b], NextResponse_json (ErrorBody message) 400))) /\
  (forall fetch response,
     parse CommentsRoute.bodySchema payload = inr (a, b) ->
     fetch (CommentsRoute.build_url a b) = Resolves response ->
     ok response = false ->
     (relayable (status response) ->
      CommentsRoute.POST fetch (mkRequest (Resolves payload)) =
        ([CommentsRoute.build_url a b],
         NextResponse_json
           (ErrorBody (platform_message response
                         ?? ("YouTube API responded with " +:+ pretty (status response))))
           (status response))) /\
     (~ relayable (status response) ->
      exists message,
        CommentsRoute.POST fetch (mkRequest (Resolves payload)) =
          ([CommentsRoute.build_url a b], NextResponse_json (ErrorBody message) 400))).
Proof.
  split_and!; intros fetch response Hparse Hfetch Hok; (split; intros Hstatus);
    route_answered Hparse Hfetch; rewrite Hok; cbn;
    unfold upstream_error, platform_message, json_or_empty.
  all: try (rewrite json_relayable by done; cbn; by destruct (json response)).
  all: match goal with
       | |- context [NextResponse.json ?body ?st] =>
           destruct (json_not_relayable (D:=_) body st Hstatus) as [message ->]
       end; cbn; by eexists.
Qed.

(** C9. When YouTube answers the channel route with a success status and
    a body whose [items] is missing or empty, the route answers 404 with
    the "Channel not found" message, not a data result. *)
Theorem channel_route_not_found fetch payload k c response result :
  parse ChannelRoute.bodySchema payload = inr (k, c) ->
  fetch (ChannelRoute.build_url k c) = Resolves response ->
  ok response = true ->
  json response = Resolves result ->
  items result = None \/ items result = Some [] ->
  ChannelRoute.POST fetch (mkRequest (Resolves payload)) =
    ([ChannelRoute.build_url k c],
     NextResponse_json (ErrorBody "Channel not found. Double-check the channel ID.") 404).
Proof.
  intros Hparse Hfetch Hok Hjson Hitems.
  route_answered Hparse Hfetch. rewrite Hok, Hjson. cbn.
  by destruct Hitems as [-> | ->].
Qed.

Lemma comments_route_success fetch payload k v response result :
  parse CommentsRoute.bodySchema payload = inr (k, v) ->
  fetch (CommentsRoute.build_url k v) = Resolves response ->
  ok response = true ->
  json response = Resolves result ->
  CommentsRoute.POST fetch (mkRequest (Resolves payload)) =
    ([CommentsRoute.build_url k v],
     NextResponse_json (DataBody (omap CommentsRoute.comment_data (items result ?? []))) 200).
Proof.
  intros Hparse Hfetch Hok Hjson.
  route_answered Hparse Hfetch. rewrite Hok, Hjson. cbn.
  destruct (items result) as [its|]; cbn; [|done].
  unfold CommentsRoute.filter_Boolean. do 3 f_equal.
  induction its as [|item its IH]; cbn; [done|].
  rewrite IH. by destruct (CommentsRoute.comment_data item).
Qed.

(** C6. A successful answer with optional fields missing is reshaped, not
    refused: each route answers 200 with data, a missing thumbnail becomes
    the empty string, a missing channel title "Unknown channel", a missing
    video title "Untitled video". *)
Theorem routes_default_missing_fields payload a b :
  (forall fetch response result channel,
     parse ChannelRoute.bodySchema payload = inr (a, b) ->
     fetch (ChannelRoute.build_url a b) = Resolves response ->
     ok response = true ->
     json response = Resolves result ->
     items result ?. head = Some channel ->
     ChannelRoute.POST fetch (mkRequest (Resolves payload)) =
       ([ChannelRoute.build_url a b],
        NextResponse_json (DataBody (ChannelRoute.channel_data channel)) 200) /\
     (ChannelRoute.snippet channel ?. ChannelRoute.title = None ->
      cs_title (ChannelRoute.channel_data channel) = "Unknown channel") /\
     (no_thumbnail (ChannelRoute.snippet channel ?. ChannelRoute.thumbnails) ->
      cs_thumbnail (ChannelRoute.channel_data channel) = "")) /\
  (forall fetch response result,
     parse SearchRoute.bodySchema payload = inr (a, b) ->
     fetch (SearchRoute.build_url a b) = Resolves response ->
     ok response = true ->
     json response = Resolves result ->
     SearchRoute.POST fetch (mkRequest (Resolves payload)) =
       ([SearchRoute.build_url a b],
        NextResponse_json (DataBody (map SearchRoute.video_data (items result ?? []))) 200) /\
     forall item,
       (SearchRoute.snippet item ?. SearchRoute.title = None ->
        v_title (SearchRoute.video_data item) = "Untitled video") /\
       (SearchRoute.snippet item ?. SearchRoute.sn_channelTitle = None ->
        channelTitle (SearchRoute.video_data item) = "Unknown channel") /\
       (no_thumbnail (SearchRoute.snippet item ?. SearchRoute.thumbnails) ->
        v_thumbnail (SearchRoute.video_data item) = "")) /\
  (forall fetch response result,
     parse CommentsRoute.bodySchema payload = inr (a, b) ->
     fetch (CommentsRoute.build_url a b) = Resolves response ->
     ok response = true ->
     json response = Resolves result ->
     CommentsRoute.POST fetch (mkRequest (Resolves payload)) =
       ([CommentsRoute.build_url a b],
        NextResponse_json
          (DataBody (omap CommentsRoute.comment_data (items result ?? []))) 200) /\
     forall item topLevel,
       CommentsRoute.snippet item ?. CommentsRoute.topLevelComment = Some topLevel ->
       exists comment,
         CommentsRoute.comment_data item = Some comment /\
         (CommentsRoute.tl_snippet topLevel ?. CommentsRoute.authorDisplayName = None ->
          author comment = "Unknown author") /\
         (CommentsRoute.tl_snippet topLevel ?. CommentsRoute.textDisplay = None ->
          text comment = "") /\
         (CommentsRoute.tl_snippet topLevel ?. CommentsRoute.cs_likeCount = None ->
          likeCount comment = Num 0)).
Proof.
  split_and!.
  - intros fetch response result channel Hparse Hfetch Hok Hjson Hitems.
    split_and!.
    + route_answered Hparse Hfetch. rewrite Hok, Hjson.
      destruct (items result) as [[|first others]|]; cbn in Hitems |- *; by simplify_eq.
    + unfold ChannelRoute.channel_data. cbn. by intros ->.
    + unfold ChannelRoute.channel_data. cbn. apply pick_thumbnail_none.
  - intros fetch response result Hparse Hfetch Hok Hjson. split.
    + route_answered Hparse Hfetch. rewrite Hok, Hjson. cbn.
      by destruct (items result).
    + intros item. unfold SearchRoute.video_data. cbn.
      split_and!; [by intros ->|by intros ->|apply pick_thumbnail_none].
  - intros fetch response result Hparse Hfetch Hok Hjson.
    split; [by eapply comments_route_success|].
    intros item topLevel Htop. unfold CommentsRoute.comment_data. rewrite Htop.
    eexists. split; [reflexivity|]. cbn [author text likeCount].
    split_and!; by intros ->.
Qed.

Lemma comment_data_None item :
  CommentsRoute.comment_data item = None <-> has_topLevel item = false.
Proof.
  unfold CommentsRoute.comment_data, has_topLevel.
  destruct (CommentsRoute.snippet item ?. CommentsRoute.topLevelComment) as [t|] eqn:Ht.
  - split; [done|]. rewrite bool_decide_eq_false. intros []. by eexists.
  - split; [|done]. intros _. rewrite bool_decide_eq_false. by intros [? ?].
Qed.

Lemma kept_comments_length its :
  length (omap CommentsRoute.comment_data its) = length (List.filter has_topLevel its).
Proof.
  induction its as [|item its IH]; cbn; [done|].
  destruct (CommentsRoute.comment_data item) eqn:Hc.
  - destruct (has_topLevel item) eqn:Ht; cbn; [by rewrite IH|].
    apply comment_data_None in Ht. congruence.
  - apply comment_data_None in Hc. by rewrite Hc.
Qed.

Lemma filter_misses_one {A} (f : A -> bool) (l : list A) x :
  x ∈ l -> f x = false -> (length (List.filter f l) < length l)%nat.
Proof.
  intros Hin. induction Hin as [x l|x y l Hin IH]; intros Hf; cbn.
  - rewrite Hf. pose proof (List.filter_length_le f l). lia.
  - specialize (IH Hf). destruct (f y); cbn; lia.
Qed.

(** C10. The comments route keeps exactly the threads that carry a
    top-level comment: a thread without one is dropped, not filled with
    defaults, so the returned list is strictly shorter than [items] as
    soon as one thread lacks it. *)
Theorem comments_route_drops_threads fetch payload k v response result threads :
  parse CommentsRoute.bodySchema payload = inr (k, v) ->
  fetch (CommentsRoute.build_url k v) = Resolves response ->
  ok response = true ->
  json response = Resolves result ->
  items result = Some threads ->
  exists data,
    CommentsRoute.POST fetch (mkRequest (Resolves payload)) =
      ([CommentsRoute.build_url k v], NextResponse_json (DataBody data) 200) /\
    data = omap CommentsRoute.comment_data threads /\
    (forall item, CommentsRoute.comment_data item = None <-> has_topLevel item = false) /\
    length data = length (List.filter has_topLevel threads) /\
    (forall item, item ∈ threads -> has_topLevel item = false ->
       (length data < length threads)%nat).
Proof.
  intros Hparse Hfetch Hok Hjson Hitems.
  pose proof (comments_route_success _ _ _ _ _ _ Hparse Hfetch Hok Hjson) as Hpost.
  exists (omap CommentsRoute.comment_data threads).
  split_and!; [by rewrite Hpost, Hitems|done|apply comment_data_None|apply kept_comments_length|].
  intros item Hin Hno. rewrite kept_comments_length. by eapply filter_misses_one.
Qed.

End RouteFacts.

(** ** JSON text *)

Section JsonFacts.
Import Js JSON.

Lemma append_cons x (a b : string) : String x a +:+ b = String x (a +:+ b).
Proof. reflexivity. Qed.

Lemma append_assoc (a b c : string) : (a +:+ b) +:+ c = a +:+ (b +:+ c).
Proof. induction a as [|x a IH]; [done|]. rewrite !append_cons. by rewrite IH. Qed.

Lemma append_nil_r (a : string) : a +:+ "" = a.
Proof. induction a as [|x a IH]; [done|]. rewrite append_cons. by rewrite IH. Qed.

Lemma length_cons c (s : string) : String.length (String c s) = S (String.length s).
Proof. reflexivity. Qed.

Lemma length_append (a b : string) :
  String.length (a +:+ b) = (String.length a + String.length b)%nat.
Proof. induction a as [|x a IH]; [done|]. rewrite append_cons. cbn. by rewrite IH. Qed.

(** One escaped character is read back as itself. *)
Lemma parse_chars_escape_char c t :
  parse_chars (escape_char c +:+ t) =
    ('(str, rest) ← parse_chars t; Some (String c str, rest)).
Proof. destruct c as [[] [] [] [] [] [] [] []]; reflexivity. Qed.

Lemma parse_chars_escape s rest :
  parse_chars (escape s +:+ String quote rest) = Some (s, rest).
Proof.
  induction s as [|c s IH]; [done|].
  cbn [escape]. rewrite append_assoc, parse_chars_escape_char, IH. done.
Qed.

(** How the parser starts on each kind of text. *)
Lemma parse_value_string fuel s :
  parse_value (S fuel) (String quote s) =
    ('(str, r) ← parse_chars s; Some (VString str, r)).
Proof. reflexivity. Qed.

Lemma parse_value_array fuel s :
  parse_value (S fuel) (String (char 91) s) =
    match skip_ws s with
    | String c' rest' =>
        if (code c' =? 93)%N then Some (VArray [], rest')
        else '(l, r) ← parse_elements fuel s; Some (VArray l, r)
    | EmptyString => None
    end.
Proof. reflexivity. Qed.

Lemma parse_value_object fuel s :
  parse_value (S fuel) (String (char 123) s) =
    match skip_ws s with
    | String c' rest' =>
        if (code c' =? 125)%N then Some (VObject [], rest')
        else '(l, r) ← parse_members fuel s; Some (build_object l, r)
    | EmptyString => None
    end.
Proof. reflexivity. Qed.

Lemma parse_elements_S fuel s :
  parse_elements (S fuel) s =
    ('(v, r) ← parse_value fuel s;
     match skip_ws r with
     | String c r' =>
         if (code c =? 44)%N then '(l, r'') ← parse_elements fuel r'; Some (v :: l, r'')
         else if (code c =? 93)%N then Some ([v], r')
         else None
     | EmptyString => None
     end).
Proof. reflexivity. Qed.

Lemma parse_members_S fuel s1 :
  parse_members (S fuel) (String quote s1) =
    ('(k, s2) ← parse_chars s1;
     match skip_ws s2 with
     | String colon s3 =>
         if (code colon =? 58)%N then
           '(v, r) ← parse_value fuel s3;
           match skip_ws r with
           | String c r' =>
               if (code c =? 44)%N then
                 '(l, r'') ← parse_members fuel r'; Some ((k, v) :: l, r'')
               else if (code c =? 125)%N then Some ([(k, v)], r')
               else None
           | EmptyString => None
           end
         else None
     | EmptyString => None
     end).
Proof. reflexivity. Qed.

Lemma opener_facts c :
  opener c -> is_ws c = false /\ (code c =? 93)%N = false /\ (code c =? 125)%N = false.
Proof.
  unfold opener, is_ws. intros Hin.
  repeat (apply elem_of_cons in Hin as [->|Hin]; [done|]).
  by apply elem_of_nil in Hin.
Qed.

Lemma stringify_head v :
  plain v -> exists c s, stringify v = String c s /\ opener c.
Proof.
  unfold opener. destruct 1 as [|[]| | |]; eexists _, _; (split; [reflexivity|]);
    cbn; set_solver.
Qed.

Lemma join_cons2 sep (x y : string) l :
  join sep (x :: y :: l) = x +:+ sep +:+ join sep (y :: l).
Proof. reflexivity. Qed.

Lemma join_head {A} (f : A -> string) (P : Ascii.ascii -> Prop) x l :
  (exists c s, f x = String c s /\ P c) ->
  exists c s, join "," (map f (x :: l)) = String c s /\ P c.
Proof.
  intros (c & s & Hx & Hc). destruct l as [|y l].
  - exists c, s. by rewrite <- Hx.
  - exists c, (s +:+ "," +:+ join "," (map f (y :: l))).
    cbn [map]. by rewrite join_cons2, Hx.
Qed.

Lemma stringify_array l rest :
  stringify (VArray l) +:+ rest =
    String (char 91) (join "," (map stringify l) +:+ String (char 93) rest).
Proof.
  change (stringify (VArray l))
    with (String (char 91) (join "," (map stringify l) +:+ String (char 93) "")).
  by rewrite append_cons, append_assoc.
Qed.

Lemma stringify_object fields rest :
  stringify (VObject fields) +:+ rest =
    String (char 123) (join "," (map (member stringify) fields) +:+ String (char 125) rest).
Proof.
  change (stringify (VObject fields))
    with (String (char 123)
            (join "," (map (member stringify) fields) +:+ String (char 125) "")).
  by rewrite append_cons, append_assoc.
Qed.

Lemma member_append k v rest :
  member stringify (k, v) +:+ rest =
    String quote (escape k +:+ String quote (String (char 58) (stringify v +:+ rest))).
Proof.
  unfold member, quoted. cbn [fst snd].
  rewrite !append_cons, !append_assoc, !append_cons.
  reflexivity.
Qed.

Lemma comma_append s : "," +:+ s = String (char 44) s.
Proof. reflexivity. Qed.

(** The elements of a non-empty array, up to its closing bracket. *)
Lemma parse_elements_join l :
  l <> [] -> Forall reads_back l ->
  forall fuel rest,
    (String.length (join "," (map stringify l)) < fuel)%nat ->
    parse_elements fuel (join "," (map stringify l) +:+ String (char 93) rest) = Some (l, rest).
Proof.
  induction l as [|v l IH]; [done|]. intros _ Hback fuel rest Hfuel.
  apply Forall_cons in Hback as [Hv Hl].
  destruct fuel as [|fuel]; [lia|]. rewrite parse_elements_S.
  destruct l as [|v' l].
  - cbn [map join] in *. rewrite (Hv fuel) by lia. reflexivity.
  - cbn [map] in *. rewrite join_cons2 in *.
    rewrite !length_append in Hfuel. cbn [String.length] in Hfuel.
    rewrite !append_assoc, comma_append. rewrite (Hv fuel) by lia.
    cbn [mbind option_bind]. change (skip_ws (String (char 44) ?s)) with (String (char 44) s).
    change (code (char 44) =? 44)%N with true. cbv iota.
    rewrite IH; [done|done|done|lia].
Qed.

(** The members of a non-empty object, up to its closing brace. *)
Lemma parse_members_join fields :
  fields <> [] -> Forall (fun kv => reads_back kv.2) fields ->
  forall fuel rest,
    (String.length (join "," (map (member stringify) fields)) < fuel)%nat ->
    parse_members fuel (join "," (map (member stringify) fields) +:+ String (char 125) rest)
      = Some (fields, rest).
Proof.
  induction fields as [|[k v] l IH]; [done|]. intros _ Hback fuel rest Hfuel.
  apply Forall_cons in Hback as [Hv Hl]. cbn [snd] in Hv.
  destruct fuel as [|fuel]; [lia|].
  destruct l as [|kv' l].
  - cbn [map join] in *. unfold member at 1 in Hfuel.
    rewrite !length_append in Hfuel. cbn [snd] in Hfuel.
    rewrite member_append, parse_members_S, parse_chars_escape.
    cbn [mbind option_bind].
    change (skip_ws (String (char 58) ?s)) with (String (char 58) s).
    change (code (char 58) =? 58)%N with true. cbv iota.
    rewrite (Hv fuel) by lia. reflexivity.
  - cbn [map] in *. rewrite join_cons2 in *. unfold member at 1 in Hfuel.
    rewrite !length_append in Hfuel. cbn [String.length snd] in Hfuel.
    rewrite !append_assoc, comma_append.
    rewrite member_append, parse_members_S, parse_chars_escape.
    cbn [mbind option_bind].
    change (skip_ws (String (char 58) ?s)) with (String (char 58) s).
    change (code (char 58) =? 58)%N with true. cbv iota.
    rewrite (Hv fuel) by lia.
    cbn [mbind option_bind]. change (skip_ws (String (char 44) ?s)) with (String (char 44) s).
    change (code (char 44) =? 44)%N with true. cbv iota.
    rewrite IH; [done|done|done|lia].
Qed.

Lemma set_field_fresh k v l :
  k ∉ l.*1 -> set_field k v l = (l ++ [(k, v)])%list.
Proof.
  induction l as [|[k' v'] l IH]; intros Hk; [done|].
  cbn in *. apply not_elem_of_cons in Hk as [Hne Hk].
  rewrite decide_False by done. by rewrite IH.
Qed.

(** Members with distinct keys are kept as they come. *)
Lemma build_object_NoDup fields :
  NoDup fields.*1 -> build_object fields = VObject fields.
Proof.
  unfold build_object. intros Hnd. f_equal.
  enough (forall acc, NoDup ((acc ++ fields)%list).*1 ->
            foldl (fun acc kv => set_field kv.1 kv.2 acc) acc fields = (acc ++ fields)%list)
    as Hgen by exact (Hgen [] Hnd).
  clear Hnd. induction fields as [|[k v] l IH]; intros acc Hnd; cbn [foldl fst snd].
  - by rewrite app_nil_r.
  - rewrite set_field_fresh.
    + rewrite IH; rewrite <- app_assoc; done.
    + rewrite fmap_app in Hnd. apply NoDup_app in Hnd as (_ & Hdisj & _).
      intros Hin. apply (Hdisj k Hin). cbn. left.
Qed.

(** Every plain value is read back from its text. *)
Lemma plain_reads_back v : plain v -> reads_back v.
Proof.
  induction v as [|b|n|s|l IH|fields IH] using value_ind_nested;
    intros Hplain fuel rest Hfuel; inversion Hplain as [| | |l' Hl|fields' Hnd Hfs]; subst.
  - destruct fuel; [cbn in Hfuel; lia|]. reflexivity.
  - destruct fuel; [destruct b; cbn in Hfuel; lia|]. by destruct b.
  - unfold stringify, quoted in *.
    destruct fuel; [cbn [String.length] in Hfuel; lia|].
    rewrite append_cons, append_assoc, append_cons.
    by rewrite parse_value_string, parse_chars_escape.
  - rewrite stringify_array. rewrite <- (append_nil_r (stringify _)), stringify_array in Hfuel.
    destruct fuel; [cbn [String.length] in Hfuel; lia|]. rewrite parse_value_array.
    destruct l as [|v l]; [reflexivity|].
    assert (Forall reads_back (v :: l)) as Hback.
    { apply Forall_forall. intros x Hx. rewrite Forall_forall in IH, Hl. auto. }
    destruct (join_head stringify opener v l) as (c & s & Hj & Hc).
    { apply stringify_head. by apply Forall_cons in Hl as [? _]. }
    destruct (opener_facts c Hc) as (Hws & H93 & _).
    rewrite Hj at 1. rewrite append_cons. cbn [skip_ws]. rewrite Hws, H93.
    rewrite parse_elements_join; [done|done|done|].
    rewrite length_cons, length_append, length_cons in Hfuel. lia.
  - rewrite stringify_object. rewrite <- (append_nil_r (stringify _)), stringify_object in Hfuel.
    destruct fuel; [cbn [String.length] in Hfuel; lia|]. rewrite parse_value_object.
    destruct fields as [|[k v] l]; [reflexivity|].
    assert (Forall (fun kv => reads_back kv.2) ((k, v) :: l)) as Hback.
    { apply Forall_forall. intros x Hx. rewrite Forall_forall in IH, Hfs. auto. }
    destruct (join_head (member stringify) (fun c => c = quote) (k, v) l) as (c & s & Hj & ->).
    { by eexists _, _. }
    rewrite Hj at 1. rewrite append_cons. cbn [skip_ws].
    change (is_ws quote) with false. change (code quote =? 125)%N with false. cbv iota.
    rewrite parse_members_join; [|done|done|].
    + cbn [mbind option_bind]. by rewrite build_object_NoDup.
    + rewrite length_cons, length_append, length_cons in Hfuel. lia.
Qed.

Lemma stringify_nonempty v : plain v -> stringify v <> "".
Proof. intros Hplain. by destruct (stringify_head v Hplain) as (c & s & -> & _). Qed.

(** [JSON.parse(JSON.stringify(v))] is [v] for a plain value. *)
Lemma parse_stringify v : plain v -> parse (stringify v) = Resolves v.
Proof.
  intros Hplain. unfold parse.
  rewrite <- (append_nil_r (stringify v)) at 2.
  rewrite (plain_reads_back v Hplain) by lia. reflexivity.
Qed.

(** The parser on text that the printer does not produce. *)
Example parse_spaced :
  parse " [ true , null , { } , -12 ] "
    = Resolves (VArray [VBool true; VNull; VObject []; VNumber (Num (-12))]).
Proof. reflexivity. Qed.

Example parse_numerals :
  parse "[0, -0, 1.5, 1e3, 2E-7, 9007199254740993]"
    = Resolves (VArray [VNumber (Num 0); VNumber (Num 0); VNumber (NumberOfString "1.5");
                        VNumber (NumberOfString "1e3"); VNumber (NumberOfString "2E-7");
                        VNumber (NumberOfString "9007199254740993")]).
Proof. reflexivity. Qed.

Example parse_not_numerals :
  Forall (fun text => parse text = Rejects "Unexpected token in JSON"
                      \/ parse text = Rejects "Unexpected non-whitespace character after JSON")
    ["01"; "-"; "-01"; "1."; ".5"; "1.e3"; "1e"; "1e+"; "+1"; "0x10"; "[1 2]"; "NaN"].
Proof. repeat constructor; (by left) || (by right). Qed.

(** The escapes of a surrogate pair make one character of four bytes; a
    surrogate on its own stays one code unit. *)
Example parse_surrogates :
  parse (String quote ("\uD83D\uDE00" +:+ String quote EmptyString))
    = Resolves (VString (String (char 240) (String (char 159)
                           (String (char 152) (String (char 128) EmptyString))))) /\
  (exists s, parse (String quote ("\uD83D" +:+ String quote EmptyString)) = Resolves (VString s)
             /\ js_length s = 1%nat).
Proof. split; [reflexivity|]. eexists. split; reflexivity. Qed.

Example parse_trailing_comma : parse "[1,]" = Rejects "Unexpected token in JSON".
Proof. reflexivity. Qed.

Example parse_escapes :
  parse (String quote ("a\u0041\n" +:+ String quote EmptyString))
    = Resolves (VString ("aA" +:+ String (char 10) EmptyString)).
Proof. reflexivity. Qed.

End JsonFacts.

(** ** Persistence *)

Section PersistenceFacts.
Import Js Types Page Persistence.

Lemma config_value_plain config : JSON.plain (config_value config).
Proof.
  constructor.
  - unfold config_value. rewrite <- list_fmap_compose.
    apply (NoDup_fst_map_to_list config).
  - apply Forall_fmap, Forall_true. intros [k v]. constructor.
Qed.

Lemma step_value_plain step : JSON.plain (step_value step).
Proof.
  constructor.
  - by apply (bool_decide_unpack _).
  - repeat (apply Forall_cons; split);
      first [apply config_value_plain | by constructor].
Qed.

Lemma workflow_value_plain workflow : JSON.plain (workflow_value workflow).
Proof.
  constructor.
  - by apply (bool_decide_unpack _).
  - repeat (apply Forall_cons; split);
      first [ by constructor
            | constructor; apply Forall_fmap, Forall_true, step_value_plain ].
Qed.

Lemma workflows_value_plain l : JSON.plain (workflows_value l).
Proof. constructor. apply Forall_fmap, Forall_true, workflow_value_plain. Qed.

Lemma as_config_value config : as_config (config_value config) = Some config.
Proof.
  unfold as_config, config_value.
  rewrite mapM_fmap_Some by (by intros [k v]).
  cbn. by rewrite list_to_map_to_list.
Qed.

Lemma as_step_value step : as_step (step_value step) = Some step.
Proof.
  destruct step as [i t c]. unfold as_step, step_value. cbn [step_id type config].
  pose proof (as_config_value c) as Hc.
  generalize dependent (config_value c). intros cv Hc.
  cbn. repeat (case_decide; simplify_eq). cbn. rewrite Hc. by destruct t.
Qed.

Lemma as_workflow_value workflow : as_workflow (workflow_value workflow) = Some workflow.
Proof.
  destruct workflow as [i n s l]. unfold as_workflow, workflow_value. cbn [id name schedule steps].
  pose proof (mapM_fmap_Some as_step step_value l as_step_value) as Hl.
  generalize dependent (step_value <$> l). intros vs Hl.
  cbn. repeat (case_decide; simplify_eq). cbn. rewrite Hl. by destruct s.
Qed.

(** Reading a workflow list back from its value gives the list. *)
Lemma as_workflows_value l : as_workflows (workflows_value l) = Some l.
Proof. apply mapM_fmap_Some, as_workflow_value. Qed.

(** A slot that was written holds the value that was written. *)
Lemma getLocalStorage_written key v fallback localStorage :
  JSON.plain v ->
  quota_exceeded localStorage key (JSON.stringify v) = false ->
  getLocalStorage key fallback (setLocalStorage key v (Some localStorage)) = v.
Proof.
  intros Hplain Hquota. unfold setLocalStorage, setItem. rewrite Hquota.
  unfold getLocalStorage, getItem. cbn. rewrite lookup_insert_eq.
  rewrite decide_False by by apply stringify_nonempty.
  by rewrite parse_stringify.
Qed.

(** Writing a slot leaves the others as they were. *)
Lemma getLocalStorage_other key key' v fallback window :
  key <> key' ->
  getLocalStorage key fallback (setLocalStorage key' v window) =
    getLocalStorage key fallback window.
Proof.
  intros Hne. destruct window as [localStorage|]; [|done].
  unfold setLocalStorage, setItem. destruct (quota_exceeded _ _ _); [done|].
  unfold getLocalStorage, getItem. cbn. by rewrite lookup_insert_ne.
Qed.

Lemma setLocalStorage_quota key v localStorage :
  exists localStorage',
    setLocalStorage key v (Some localStorage) = Some localStorage' /\
    quota_exceeded localStorage' = quota_exceeded localStorage.
Proof.
  unfold setLocalStorage, setItem. destruct (quota_exceeded _ _ _); eauto.
Qed.

(** What is not valid JSON, or is empty, reads as the fallback; a refused
    write leaves the slot as it was. *)
Example getLocalStorage_corrupted :
  getLocalStorage "k" (VArray []) (Some (mkLocalStorage {[ "k" := "{oops" ]} (fun _ _ => false)))
    = VArray [].
Proof. reflexivity. Qed.

Example getLocalStorage_empty_text :
  getLocalStorage "k" (VArray []) (Some (mkLocalStorage {[ "k" := "" ]} (fun _ _ => false)))
    = VArray [].
Proof. reflexivity. Qed.

Example setLocalStorage_refused :
  getLocalStorage "k" VNull
    (setLocalStorage "k" (VBool true) (Some (mkLocalStorage {[ "k" := "false" ]} (fun _ _ => true))))
    = VBool false.
Proof. reflexivity. Qed.

(** C7. A workflow list written to its slot is the list read back from
    that slot at the next startup, so names, schedules and steps are
    reproduced; when the two other writes are accepted as well, the
    startup effect restores the key, the channel id and the list. *)
Theorem persisted_workflows_reload st st0 localStorage :
  quota_exceeded localStorage STORAGE_KEYS.workflows
    (JSON.stringify (workflows_value (workflows st))) = false ->
  as_workflows (getLocalStorage STORAGE_KEYS.workflows (VArray [])
                  (persist st (Some localStorage))) = Some (workflows st) /\
  (quota_exceeded localStorage STORAGE_KEYS.apiKey (JSON.stringify (VString (apiKey st))) = false ->
   quota_exceeded localStorage STORAGE_KEYS.channelId (JSON.stringify (VString (channelId st))) = false ->
   exists st',
     load (persist st (Some localStorage)) st0 = Some st' /\
     workflows st' = workflows st /\
     apiKey st' = apiKey st /\
     channelId st' = channelId st).
Proof.
  intros Hquota. unfold persist.
  destruct (setLocalStorage_quota STORAGE_KEYS.apiKey (VString (apiKey st)) localStorage)
    as (ls1 & H1 & Hq1).
  destruct (setLocalStorage_quota STORAGE_KEYS.channelId (VString (channelId st)) ls1)
    as (ls2 & H2 & Hq2).
  assert (getLocalStorage STORAGE_KEYS.workflows (VArray [])
            (setLocalStorage STORAGE_KEYS.workflows (workflows_value (workflows st)) (Some ls2))
          = workflows_value (workflows st)) as Hw.
  { apply getLocalStorage_written; [apply workflows_value_plain|].
    by rewrite Hq2, Hq1. }
  split.
  - rewrite H1, H2, Hw. apply as_workflows_value.
  - intros Hk Hc. unfold load.
    rewrite (getLocalStorage_other STORAGE_KEYS.apiKey STORAGE_KEYS.workflows) by discriminate.
    rewrite (getLocalStorage_other STORAGE_KEYS.apiKey STORAGE_KEYS.channelId) by discriminate.
    rewrite getLocalStorage_written; [|constructor|done].
    rewrite (getLocalStorage_other STORAGE_KEYS.channelId STORAGE_KEYS.workflows) by discriminate.
    rewrite H1, getLocalStorage_written; [|constructor|by rewrite Hq1].
    rewrite H2, Hw, as_workflows_value. cbn [as_string mbind option_bind].
    eexists. split; [reflexivity|]. done.
Qed.

End PersistenceFacts.

(** ** Worked instances *)

Section Instances.
Import Js Zod Http Types Page Persistence RunnerSpec RouteSpec Deployment Examples.

Lemma runWorkflow_stops_at_first_failure_witness :
  exists w',
    runWorkflow compact (served youtube) (Some workflow) (world key) = (inr tt, w') /\
    runLog (page w') =
      [failure_line workflow "Search query is required";
       channel_line compact (ChannelRoute.channel_data channel_item);
       running_line workflow; "earlier line"] /\
    calls w' = [PostChannel key "UC-rocq"; PostSearch key "x"] /\
    isRunningWorkflow (page w') = false.
Proof.
  apply (runWorkflow_stops_at_first_failure compact (served youtube) workflow (world key)
           step_A step_B step_C _ "Search query is required");
    [discriminate | reflexivity | vm_compute; reflexivity | vm_compute; reflexivity].
Defined.

(** The run of the example workflow, line by line. *)
Example runWorkflow_example_log :
  runLog (page (runWorkflow compact (served youtube) (Some workflow) (world key)).2) =
    ["‚ùå Morning check: Search query is required";
     "‚úÖ Channel: Rocq Prover ‚Ä¢ 1200 subs";
     "‚ñ∂Ô∏è Running workflow " +:+ dq +:+ "Morning check" +:+ dq +:+ " (Run daily)";
     "earlier line"].
Proof. reflexivity. Qed.

Lemma runWorkflow_without_apiKey_witness :
  exists st',
    runWorkflow compact (served youtube) (Some workflow) (world "") =
      (inr tt, {| page := st'; calls := [] |}) /\
    runLog st' = [warning_line; "earlier line"] /\
    with_runLog ["earlier line"] st' = state "".
Proof.
  apply (runWorkflow_without_apiKey compact (served youtube) workflow (world "")).
  reflexivity.
Defined.

(** C3 as stated fails: an empty-string override is sent as it is, the
    live query "foo" is not used. *)
Lemma runWorkflow_empty_query_counterexample :
  let w' := (runWorkflow compact (served youtube)
               (Some (mkWorkflow "w2" "Search" manual [step_empty_query])) (world key)).2 in
  config step_empty_query !! "query" = Some "" /\
  searchQuery (state key) = "foo" /\
  calls w' = [PostSearch key ""] /\
  PostSearch key "foo" ∉ calls w'.
Proof.
  split_and!; [vm_compute; reflexivity..|].
  intros Hin. vm_compute in Hin. apply list_elem_of_In in Hin as [Heq|[]]. discriminate.
Qed.

Lemma runWorkflow_search_query_witness :
  let workflow := mkWorkflow "w3" "Search" manual [step_no_query; step_empty_query] in
  exists w',
    runWorkflow compact (served youtube) (Some workflow) (world key) = (inr tt, w') /\
    (steps workflow <> [] -> is_Some (calls w' !! length (calls (world key)))) /\
    forall i step c,
      steps workflow !! i = Some step ->
      type step = SearchVideos ->
      calls w' !! (length (calls (world key)) + i)%nat = Some c ->
      (config step !! "query" = None -> c = PostSearch key "foo") /\
      (forall x, config step !! "query" = Some x -> c = PostSearch key x).
Proof.
  apply (runWorkflow_search_query compact (served youtube)
           (mkWorkflow "w3" "Search" manual [step_no_query; step_empty_query])
           (world key) "foo");
    [discriminate | reflexivity].
Defined.

(** C5 as stated fails on the wording of the generic message: the routes
    prefix it with the platform's name. *)
Lemma routes_generic_message_counterexample :
  let answer := (SearchRoute.POST (outage 500) (mkRequest (Resolves (body "apiKey" key "query" "rocq")))).2 in
  platform_message (mkResponse (B:=ApiBody SearchRoute.Item) 500 (Rejects "Unexpected end of JSON input")) = None /\
  answer = NextResponse_json (ErrorBody "YouTube API responded with 500") 500 /\
  answer <> NextResponse_json (ErrorBody ("API responded with " +:+ pretty 500)) 500.
Proof. split_and!; [reflexivity|reflexivity|discriminate]. Qed.

Lemma routes_relay_upstream_failure_witness :
  ChannelRoute.POST (outage 403) (mkRequest (Resolves (body "apiKey" key "channelId" "UC-rocq"))) =
    ([ChannelRoute.build_url key "UC-rocq"],
     NextResponse_json (ErrorBody "YouTube API responded with 403") 403) /\
  exists message,
    ChannelRoute.POST (outage 304)
      (mkRequest (Resolves (body "apiKey" key "channelId" "UC-rocq"))) =
      ([ChannelRoute.build_url key "UC-rocq"], NextResponse_json (ErrorBody message) 400).
Proof.
  split.
  - apply (proj1 (proj1 (routes_relay_upstream_failure (body "apiKey" key "channelId" "UC-rocq")
                           key "UC-rocq") (outage 403)
                    (mkResponse 403 (Rejects "Unexpected end of JSON input"))
                    eq_refl eq_refl eq_refl)).
    unfold relayable. cbn. lia.
  - apply (proj2 (proj1 (routes_relay_upstream_failure (body "apiKey" key "channelId" "UC-rocq")
                           key "UC-rocq") (outage 304)
                    (mkResponse 304 (Rejects "Unexpected end of JSON input"))
                    eq_refl eq_refl eq_refl)).
    unfold relayable. cbn. lia.
Defined.

(** A 304 from YouTube is not relayed: the route answers 400 with the
    error of the [Response] constructor. *)
Example channel_route_304 :
  (ChannelRoute.POST (outage 304)
     (mkRequest (Resolves (body "apiKey" key "channelId" "UC-rocq")))).2 =
    NextResponse_json (ErrorBody (TypeError_status 304)) 400.
Proof. reflexivity. Qed.

Lemma routes_reject_invalid_body_witness :
  exists message rest,
    parse CommentsRoute.bodySchema (VObject [("apiKey", VString key)]) =
      inl (ZodError (message :: rest)) /\
    message <> "" /\
    CommentsRoute.POST (commentThreads youtube)
      (mkRequest (Resolves (VObject [("apiKey", VString key)]))) =
      ([], NextResponse_json (ErrorBody message) 400).
Proof.
  apply (proj2 (proj2 (routes_reject_invalid_body (VObject [("apiKey", VString key)])))).
  right. intros (x & Hx & _). vm_compute in Hx. discriminate.
Defined.

Lemma routes_enforce_minimum_lengths_witness :
  SearchRoute.POST (search youtube)
    (mkRequest (Resolves (body "apiKey" "short-key" "query" "rocq"))) =
    ([], NextResponse_json (ErrorBody "API key is required") 400).
Proof.
  apply (proj1 (proj2 (routes_enforce_minimum_lengths (body "apiKey" "short-key" "query" "rocq")))
           (search youtube) "short-key");
    [reflexivity | vm_compute; lia].
Defined.

Lemma routes_default_missing_fields_witness :
  SearchRoute.POST (search youtube) (mkRequest (Resolves (body "apiKey" key "query" "rocq"))) =
    ([SearchRoute.build_url key "rocq"],
     NextResponse_json
       (DataBody [mkVideo "vid-001" "Untitled video" "" "" "Unknown channel" ""]) 200).
Proof.
  apply (proj1 (proj2 (routes_default_missing_fields (body "apiKey" key "query" "rocq")
                         key "rocq")) (search youtube)
           (mkResponse 200 (Resolves (mkApiBody None (Some [bare_video]))))
           (mkApiBody None (Some [bare_video])));
    reflexivity.
Defined.

Lemma channel_route_not_found_witness :
  ChannelRoute.POST (answers 200 (Some []))
    (mkRequest (Resolves (body "apiKey" key "channelId" "UC-none"))) =
    ([ChannelRoute.build_url key "UC-none"],
     NextResponse_json (ErrorBody "Channel not found. Double-check the channel ID.") 404).
Proof.
  apply (channel_route_not_found (answers 200 (Some []))
           (body "apiKey" key "channelId" "UC-none") key "UC-none"
           (mkResponse 200 (Resolves (mkApiBody None (Some []))))
           (mkApiBody None (Some [])));
    [reflexivity | reflexivity | reflexivity | reflexivity | right; reflexivity].
Defined.

Lemma comments_route_drops_threads_witness :
  exists data,
    CommentsRoute.POST (commentThreads youtube)
      (mkRequest (Resolves (body "apiKey" key "videoId" "vid-001"))) =
      ([CommentsRoute.build_url key "vid-001"], NextResponse_json (DataBody data) 200) /\
    data = omap CommentsRoute.comment_data [full_thread; empty_thread] /\
    (forall item, CommentsRoute.comment_data item = None <-> has_topLevel item = false) /\
    length data = length (List.filter has_topLevel [full_thread; empty_thread]) /\
    (forall item, item ∈ [full_thread; empty_thread] -> has_topLevel item = false ->
       (length data < length [full_thread; empty_thread])%nat).
Proof.
  apply (comments_route_drops_threads (commentThreads youtube)
           (body "apiKey" key "videoId" "vid-001") key "vid-001"
           (mkResponse 200 (Resolves (mkApiBody None (Some [full_thread; empty_thread]))))
           (mkApiBody None (Some [full_thread; empty_thread])));
    reflexivity.
Defined.

Lemma persisted_workflows_reload_witness :
  as_workflows (getLocalStorage STORAGE_KEYS.workflows (VArray [])
                  (persist (state key) (Some empty_storage))) = Some [workflow] /\
  (quota_exceeded empty_storage STORAGE_KEYS.apiKey (JSON.stringify (VString key)) = false ->
   quota_exceeded empty_storage STORAGE_KEYS.channelId
     (JSON.stringify (VString "UC-default")) = false ->
   exists st',
     load (persist (state key) (Some empty_storage)) (state "") = Some st' /\
     workflows st' = [workflow] /\
     apiKey st' = key /\
     channelId st' = "UC-default").
Proof.
  apply (persisted_workflows_reload (state key) (state "") empty_storage).
  reflexivity.
Defined.

End Instances.

(** ** More on the routes *)

Section RouteExtras.
Import Js Zod Http Types RouteSpec RouteSpec2.

Ltac route_unfold' :=
  unfold ChannelRoute.POST, SearchRoute.POST, CommentsRoute.POST,
    lift, await, fetch_, try_catch, mbind, Handler_bind, Http.bind,
    mret, Handler_ret, Http.ret, Http.throw.

(** A parse that succeeds returns the two fields, and both are valid. *)
Lemma parse_inr_inv schema payload a b :
  parse schema payload = inr (a, b) ->
  get (key1 schema) payload = Some (VString a) /\
  (minLength (schema1 schema) <= js_length a)%nat /\
  get (key2 schema) payload = Some (VString b) /\
  (minLength (schema2 schema) <= js_length b)%nat.
Proof.
  unfold parse. destruct payload as [| | | | |fields]; try done.
  unfold parse_string.
  destruct (get (key1 schema) _) as [[| | |x1| |]|];
    destruct (get (key2 schema) _) as [[| | |x2| |]|]; try done;
    repeat case_decide; cbn; try done.
  intros [= <- <-]. split_and!; (done || lia).
Qed.

Lemma parse_inl_or_inr schema payload :
  (exists e, parse schema payload = inl (ZodError e)) \/
  (exists a b, parse schema payload = inr (a, b)).
Proof.
  unfold parse. destruct payload; eauto.
  destruct (parse_string (schema1 schema) _) as [i1 [r1|]];
    destruct (parse_string (schema2 schema) _) as [i2 [r2|]];
    destruct (i1 ++ i2)%list; eauto.
Qed.

Lemma body_fields_parse schema request k x :
  body_fields schema request k x ->
  exists payload, request_json request = Resolves payload /\ parse schema payload = inr (k, x).
Proof.
  intros (payload & Hjson & H1 & Hl1 & H2 & Hl2). exists payload. split; [done|].
  by apply parse_valid.
Qed.

(** X1. A route calls YouTube exactly when the body is valid JSON whose
    two fields pass the schema, and then once, with the URL built from
    those two fields; in every other case it makes no call and answers
    400. *)
Theorem routes_call_iff_valid :
  (forall fetch request,
     let r := ChannelRoute.POST fetch request in
     (exists k x, body_fields ChannelRoute.bodySchema request k x /\
                  r.1 = [ChannelRoute.build_url k x]) \/
     ((forall k x, ~ body_fields ChannelRoute.bodySchema request k x) /\
      r.1 = [] /\ init_status r.2 = 400)) /\
  (forall fetch request,
     let r := SearchRoute.POST fetch request in
     (exists k x, body_fields SearchRoute.bodySchema request k x /\
                  r.1 = [SearchRoute.build_url k x]) \/
     ((forall k x, ~ body_fields SearchRoute.bodySchema request k x) /\
      r.1 = [] /\ init_status r.2 = 400)) /\
  (forall fetch request,
     let r := CommentsRoute.POST fetch request in
     (exists k x, body_fields CommentsRoute.bodySchema request k x /\
                  r.1 = [CommentsRoute.build_url k x]) \/
     ((forall k x, ~ body_fields CommentsRoute.bodySchema request k x) /\
      r.1 = [] /\ init_status r.2 = 400)).
Proof.
  split_and!; intros fetch request r; subst r.
  all: destruct (request_json request) as [m|payload] eqn:Hjson.
  all: try (right; split;
            [intros k x (payload' & Hj & _); rewrite Hjson in Hj; discriminate
            |route_unfold'; by rewrite Hjson]).
  all: match goal with
       | |- context [body_fields ?schema _ _ _] =>
           destruct (parse_inl_or_inr schema payload) as [[e Hparse]|(k & x & Hparse)]
       end.
  all: try (right; split;
            [intros k x Hvalid; apply body_fields_parse in Hvalid as (payload' & Hj & Hp);
             rewrite Hjson in Hj; injection Hj as <-; rewrite Hparse in Hp; discriminate
            |route_unfold'; rewrite Hjson; cbn; by rewrite Hparse]).
  all: left; exists k, x; split;
         [exists payload; split; [done|]; by apply parse_inr_inv|].
  all: route_unfold'; rewrite Hjson; cbn; rewrite Hparse; cbn.
  all: unfold upstream_error, NextResponse.json, Http.throw, Http.ret.
  all: repeat (case_match; cbn; simplify_eq/=); done.
Qed.

(** X2. When the call to YouTube itself fails (the fetch rejects), the
    route answers 400, a client error, with the message of the failure. *)
Theorem routes_network_failure :
  (forall fetch payload a b message,
     parse ChannelRoute.bodySchema payload = inr (a, b) ->
     fetch (ChannelRoute.build_url a b) = Rejects message ->
     ChannelRoute.POST fetch (mkRequest (Resolves payload)) =
       ([ChannelRoute.build_url a b], NextResponse_json (ErrorBody message) 400)) /\
  (forall fetch payload a b message,
     parse SearchRoute.bodySchema payload = inr (a, b) ->
     fetch (SearchRoute.build_url a b) = Rejects message ->
     SearchRoute.POST fetch (mkRequest (Resolves payload)) =
       ([SearchRoute.build_url a b], NextResponse_json (ErrorBody message) 400)) /\
  (forall fetch payload a b message,
     parse CommentsRoute.bodySchema payload = inr (a, b) ->
     fetch (CommentsRoute.build_url a b) = Rejects message ->
     CommentsRoute.POST fetch (mkRequest (Resolves payload)) =
       ([CommentsRoute.build_url a b], NextResponse_json (ErrorBody message) 400)).
Proof.
  split_and!; intros fetch payload a b message Hparse Hfetch;
    route_unfold'; cbn; rewrite Hparse; cbn; by rewrite Hfetch.
Qed.

(** X3. A request whose body is not JSON is answered 400 with the
    parser's message, and YouTube is not called. *)
Theorem routes_malformed_request :
  (forall fetch request message,
     request_json request = Rejects message ->
     ChannelRoute.POST fetch request = ([], NextResponse_json (ErrorBody message) 400)) /\
  (forall fetch request message,
     request_json request = Rejects message ->
     SearchRoute.POST fetch request = ([], NextResponse_json (ErrorBody message) 400)) /\
  (forall fetch request message,
     request_json request = Rejects message ->
     CommentsRoute.POST fetch request = ([], NextResponse_json (ErrorBody message) 400)).
Proof.
  split_and!; intros fetch request message Hjson; route_unfold'; by rewrite Hjson.
Qed.

(** X4. When YouTube answers with a success status and a body that is
    not JSON, the route answers 400 with the parser's message. *)
Theorem routes_unparsable_success_body :
  (forall fetch payload a b response message,
     parse ChannelRoute.bodySchema payload = inr (a, b) ->
     fetch (ChannelRoute.build_url a b) = Resolves response ->
     ok response = true ->
     json response = Rejects message ->
     ChannelRoute.POST fetch (mkRequest (Resolves payload)) =
       ([ChannelRoute.build_url a b], NextResponse_json (ErrorBody message) 400)) /\
  (forall fetch payload a b response message,
     parse SearchRoute.bodySchema payload = inr (a, b) ->
     fetch (SearchRoute.build_url a b) = Resolves response ->
     ok response = true ->
     json response = Rejects message ->
     SearchRoute.POST fetch (mkRequest (Resolves payload)) =
       ([SearchRoute.build_url a b], NextResponse_json (ErrorBody message) 400)) /\
  (forall fetch payload a b response message,
     parse CommentsRoute.bodySchema payload = inr (a, b) ->
     fetch (CommentsRoute.build_url a b) = Resolves response ->
     ok response = true ->
     json response = Rejects message ->
     CommentsRoute.POST fetch (mkRequest (Resolves payload)) =
       ([CommentsRoute.build_url a b], NextResponse_json (ErrorBody message) 400)).
Proof.
  split_and!; intros fetch payload a b response message Hparse Hfetch Hok Hjson;
    route_unfold'; cbn; rewrite Hparse; cbn; rewrite Hfetch; cbn;
    rewrite Hok; cbn; by rewrite Hjson.
Qed.

(** The two shapes of an answer: data with status 200, or an error with
    a status outside 200..299. *)
Lemma routes_answer_shape :
  (forall fetch request,
     answer_shape (ChannelRoute.POST fetch request).2) /\
  (forall fetch request,
     answer_shape (SearchRoute.POST fetch request).2) /\
  (forall fetch request,
     answer_shape (CommentsRoute.POST fetch request).2).
Proof.
  assert (forall D (e : exn), answer_shape (on_error (D:=D) e)) as Herr.
  { intros D e. right. eexists _, _. split; [reflexivity|lia]. }
  split_and!; intros fetch request; route_unfold'.
  all: destruct (request_json request) as [ m | payload ]; cbn; [apply Herr|].
  all: match goal with
       | |- context [parse ?schema ?p] =>
           destruct (parse schema p) as [ e | [k x] ]
       end; cbn; [apply Herr|].
  all: match goal with
       | |- context [match ?o with Rejects _ => _ | Resolves _ => _ end] =>
           destruct o as [ m | response ]
       end; cbn; [apply Herr|].
  all: match goal with
       | |- context [ok ?r] => destruct (ok r) eqn:Hok; cbn;
           [destruct (json r) as [ m | result ]; cbn; [apply Herr|]
           |unfold upstream_error, NextResponse.json, Http.throw, Http.ret;
            repeat (case_match; cbn; simplify_eq/=); try apply Herr;
            right; eexists _, _; (split; [reflexivity|]);
            unfold ok in Hok; by rewrite bool_decide_eq_false in Hok]
       end.
  all: try (left; by eexists).
  match goal with |- context [items ?r] => destruct (items r) as [ [ | ? ? ] | ] end;
    cbn; try (left; by eexists).
  all: right; eexists _, _; (split; [reflexivity|lia]).
Qed.

Lemma answer_shape_ok {D} (r : NextResponse D) :
  answer_shape r ->
  (has_data r <-> answers_ok r) /\ (has_data r -> init_status r = 200).
Proof.
  unfold has_data, answers_ok. intros [[d ->]|(e & st & -> & Hst)]; cbn.
  - split; [split; [intros; lia|by eexists]|done].
  - split; [split; [by intros [d Hd]|done]|by intros [d Hd]].
Qed.

(** X5. Whatever the request and whatever YouTube does, a route's answer
    carries data exactly when its status is in 200..299, and that
    status is then 200: an error never travels with a success status. *)
Theorem routes_ok_iff_data :
  (forall fetch request,
     let r := (ChannelRoute.POST fetch request).2 in
     (has_data r <-> answers_ok r) /\ (has_data r -> init_status r = 200)) /\
  (forall fetch request,
     let r := (SearchRoute.POST fetch request).2 in
     (has_data r <-> answers_ok r) /\ (has_data r -> init_status r = 200)) /\
  (forall fetch request,
     let r := (CommentsRoute.POST fetch request).2 in
     (has_data r <-> answers_ok r) /\ (has_data r -> init_status r = 200)).
Proof.
  destruct routes_answer_shape as (Hc & Hs & Hm).
  split_and!; intros fetch request r; subst r; by apply answer_shape_ok.
Qed.

End RouteExtras.

(** ** The query panels *)

Section PanelFacts.
Import Js Http Types Page Store Panels RunnerSpec RouteSpec2 PanelSpec Deployment.

Ltac panel_unfold :=
  unfold fetchChannel, fetchSearch, fetchComments, read_body, modify,
    fetch_channel, fetch_search, fetch_comments, record_call,
    try_catch, await, mbind, Run_bind, bind, mret, Run_ret, ret, throw,
    succeeded, answered_error in *.

(** X6. A channel lookup issues exactly one call, for the key and channel
    id of the state, ends with the loading flag off and changes no cell
    but the statistics and the error. It leaves one of three states: the
    error message and no statistics when the call failed, was answered
    with an error or could not be read; the statistics and no error when
    the answer carried data; neither statistics nor error when the answer
    was ok and carried no data. *)
Theorem fetchChannel_outcome net w :
  let o := post_channel net (calls w) (apiKey (page w)) (channelId (page w)) in
  let w' := fetchChannel net w in
  calls w' = (calls w ++ [PostChannel (apiKey (page w)) (channelId (page w))])%list /\
  (forall m, thrown "Unable to fetch channel data." o = Some m ->
     page w' = setIsChannelLoading false
                 (setChannelStats None (setChannelError (Some m) (page w)))) /\
  (forall d, succeeded o = Some d ->
     page w' = setIsChannelLoading false
                 (setChannelStats (Some d) (setChannelError None (page w)))) /\
  (ok_without_data o ->
     page w' = setIsChannelLoading false
                 (setChannelStats None (setChannelError None (page w)))) /\
  (is_Some (thrown "Unable to fetch channel data." o) \/ is_Some (succeeded o) \/
   ok_without_data o).
Proof.
  destruct w as [st history]. cbn. panel_unfold. unfold thrown, ok_without_data. cbn.
  destruct (post_channel net history (apiKey st) (channelId st)) as [ m | r ]; cbn.
  { split_and!; [done|intros ? [= <-]; by destruct st|done| |by left].
    by intros (? & ? & [=] & _). }
  destruct (Page.ok r) eqn:Hok; destruct (Page.json r) as [ m | b ] eqn:Hjson; cbn.
  - split_and!; [done|intros ? [= <-]; by destruct st|done| |by left].
    intros (? & ? & [= <-] & _ & ? & _). congruence.
  - destruct (data b) as [d|] eqn:Hdata; cbn.
    + split_and!; [done|done|intros ? [= <-]; by destruct st| |by right; left].
      intros (? & ? & [= <-] & _ & Hj & Hd). rewrite Hjson in Hj.
      injection Hj as <-. by rewrite Hdata in Hd.
    + split_and!; [done|done|done|intros _; by destruct st|].
      right; right. by exists r, b.
  - split_and!; [done|intros ? [= <-]; by destruct st|done| |by left].
    intros (? & ? & [= <-] & Hok' & _). by rewrite Hok in Hok'.
  - split_and!; [done|intros ? [= <-]; by destruct st|done| |by left].
    intros (? & ? & [= <-] & Hok' & _). by rewrite Hok in Hok'.
Qed.

(** X7. A search or a comment lookup that succeeds replaces the list and
    clears the error; one that fails empties the list and sets the error;
    both issue one call and end with the loading flag off. The only case
    outside the typed state is an ok answer without [data]. *)
Theorem fetchSearch_fetchComments_outcome net w :
  (let o := post_search net (calls w) (apiKey (page w)) (searchQuery (page w)) in
   let issued := (calls w ++ [PostSearch (apiKey (page w)) (searchQuery (page w))])%list in
   (forall d, succeeded o = Some d ->
      fetchSearch net w =
        Some {| page := setIsSearchLoading false
                          (setSearchResults d (setSearchError None (page w)));
                calls := issued |}) /\
   (answered_error o ->
      exists m,
        fetchSearch net w =
          Some {| page := setIsSearchLoading false
                            (setSearchResults [] (setSearchError (Some m) (page w)));
                  calls := issued |}) /\
   (fetchSearch net w = None <->
      exists r b, o = Resolves r /\ Page.ok r = true /\
                  Page.json r = Resolves b /\ data b = None)) /\
  (let o := post_comments net (calls w) (apiKey (page w)) (commentsVideoId (page w)) in
   let issued := (calls w ++ [PostComments (apiKey (page w)) (commentsVideoId (page w))])%list in
   (forall d, succeeded o = Some d ->
      fetchComments net w =
        Some {| page := setIsCommentsLoading false
                          (setComments d (setCommentsError None (page w)));
                calls := issued |}) /\
   (answered_error o ->
      exists m,
        fetchComments net w =
          Some {| page := setIsCommentsLoading false
                            (setComments [] (setCommentsError (Some m) (page w)));
                  calls := issued |}) /\
   (fetchComments net w = None <->
      exists r b, o = Resolves r /\ Page.ok r = true /\
                  Page.json r = Resolves b /\ data b = None)).
Proof.
  destruct w as [st history]. cbn. panel_unfold. cbn. split.
  - destruct (post_search net history (apiKey st) (searchQuery st)) as [ m | r ]; cbn.
    { split_and!; [done|intros _; exists m; by destruct st|].
      split; [done|]. by intros (? & ? & [=] & _). }
    destruct (Page.ok r) eqn:Hok; destruct (Page.json r) as [ m | b ] eqn:Hjson; cbn.
    + split_and!; [done|intros _; exists m; by destruct st|].
      split; [done|]. intros (? & ? & [= <-] & _ & ? & _); congruence.
    + destruct (data b) as [d|] eqn:Hdata; cbn.
      * split_and!; [intros ? [= <-]; by destruct st|by intros [ ? | [? ?] ]|].
        split; [done|]. intros (? & ? & [= <-] & _ & Hj & Hd).
        rewrite Hjson in Hj. injection Hj as <-. by rewrite Hdata in Hd.
      * split_and!; [done|by intros [ ? | [? ?] ]|]. split; [|done].
        intros _. by exists r, b.
    + split_and!; [done|intros _; exists m; by destruct st|].
      split; [done|]. intros (? & ? & [= <-] & Hok' & _). by rewrite Hok in Hok'.
    + split_and!; [done|intros _; eexists; by destruct st|].
      split; [done|]. intros (? & ? & [= <-] & Hok' & _). by rewrite Hok in Hok'.
  - destruct (post_comments net history (apiKey st) (commentsVideoId st)) as [ m | r ]; cbn.
    { split_and!; [done|intros _; exists m; by destruct st|].
      split; [done|]. by intros (? & ? & [=] & _). }
    destruct (Page.ok r) eqn:Hok; destruct (Page.json r) as [ m | b ] eqn:Hjson; cbn.
    + split_and!; [done|intros _; exists m; by destruct st|].
      split; [done|]. intros (? & ? & [= <-] & _ & ? & _); congruence.
    + destruct (data b) as [d|] eqn:Hdata; cbn.
      * split_and!; [intros ? [= <-]; by destruct st|by intros [ ? | [? ?] ]|].
        split; [done|]. intros (? & ? & [= <-] & _ & Hj & Hd).
        rewrite Hjson in Hj. injection Hj as <-. by rewrite Hdata in Hd.
      * split_and!; [done|by intros [ ? | [? ?] ]|]. split; [|done].
        intros _. by exists r, b.
    + split_and!; [done|intros _; exists m; by destruct st|].
      split; [done|]. intros (? & ? & [= <-] & Hok' & _). by rewrite Hok in Hok'.
    + split_and!; [done|intros _; eexists; by destruct st|].
      split; [done|]. intros (? & ? & [= <-] & Hok' & _). by rewrite Hok in Hok'.
Qed.

(** How the page sees an answer of one of its routes. *)
Lemma client_view_shape {D} (a : NextResponse D) :
  answer_shape a ->
  match error_of a with
  | Some e =>
      Page.ok (client_view a) = false /\
      Page.json (client_view a) = Resolves (mkClientBody (Some e) None)
  | None =>
      Page.ok (client_view a) = true /\
      exists d, Page.json (client_view a) = Resolves (mkClientBody None (Some d))
  end.
Proof.
  intros [[d ->]|(e & st & -> & Hst)]; unfold error_of, client_view; cbn.
  - split; [done|by eexists].
  - split; [|done]. by rewrite bool_decide_eq_false.
Qed.

(** The same, with the data. *)
Lemma client_view_answer {D} (a : NextResponse D) :
  answer_shape a ->
  match body a with
  | ErrorBody e =>
      Page.ok (client_view a) = false /\
      Page.json (client_view a) = Resolves (mkClientBody (Some e) None)
  | DataBody d =>
      Page.ok (client_view a) = true /\
      Page.json (client_view a) = Resolves (mkClientBody None (Some d))
  end.
Proof.
  intros [[d ->]|(e & st & -> & Hst)]; unfold client_view; cbn.
  - done.
  - split; [|done]. by rewrite bool_decide_eq_false.
Qed.

(** X8. Served by the routes, a panel shows what its route answered: the
    route's error string and no data, or the route's data and no error.
    The fallback messages of the page are never shown, and the search and
    comment lists always remain lists. *)
Theorem panels_show_route_answer yt w :
  (let a := (ChannelRoute.POST (channels yt)
               (post_body "apiKey" (apiKey (page w)) "channelId" (channelId (page w)))).2 in
   let w' := fetchChannel (served yt) w in
   channelError (page w') = error_of a /\ channelStats (page w') = data_of a) /\
  (let a := (SearchRoute.POST (search yt)
               (post_body "apiKey" (apiKey (page w)) "query" (searchQuery (page w)))).2 in
   exists w', fetchSearch (served yt) w = Some w' /\
     searchError (page w') = error_of a /\ searchResults (page w') = data_of a ?? []) /\
  (let a := (CommentsRoute.POST (commentThreads yt)
               (post_body "apiKey" (apiKey (page w)) "videoId" (commentsVideoId (page w)))).2 in
   exists w', fetchComments (served yt) w = Some w' /\
     commentsError (page w') = error_of a /\ comments (page w') = data_of a ?? []).
Proof.
  destruct routes_answer_shape as (Hc & Hs & Hm).
  destruct w as [st history]. cbn [page calls]. split; [|split].
  - pose proof (client_view_answer _
      (Hc (channels yt) (post_body "apiKey" (apiKey st) "channelId" (channelId st)))) as Hv.
    unfold fetchChannel, fetch_channel, served. cbn [post_channel page calls].
    set (a := (ChannelRoute.POST _ _).2) in *. cbv zeta.
    unfold error_of, data_of. set (r := client_view a) in *.
    clearbody r. panel_unfold. cbn.
    destruct (body a) as [e|d]; destruct Hv as [-> ->]; cbn; by destruct st.
  - pose proof (client_view_answer _
      (Hs (search yt) (post_body "apiKey" (apiKey st) "query" (searchQuery st)))) as Hv.
    unfold fetchSearch, fetch_search, served. cbn [post_search page calls].
    set (a := (SearchRoute.POST _ _).2) in *. cbv zeta.
    unfold error_of, data_of. set (r := client_view a) in *.
    clearbody r. panel_unfold. cbn.
    destruct (body a) as [e|d]; destruct Hv as [-> ->]; cbn;
      eexists; (split; [reflexivity|]); by destruct st.
  - pose proof (client_view_answer _
      (Hm (commentThreads yt) (post_body "apiKey" (apiKey st) "videoId" (commentsVideoId st))))
      as Hv.
    unfold fetchComments, fetch_comments, served. cbn [post_comments page calls].
    set (a := (CommentsRoute.POST _ _).2) in *. cbv zeta.
    unfold error_of, data_of. set (r := client_view a) in *.
    clearbody r. panel_unfold. cbn.
    destruct (body a) as [e|d]; destruct Hv as [-> ->]; cbn;
      eexists; (split; [reflexivity|]); by destruct st.
Qed.

End PanelFacts.

(** ** More on the runner *)

Section RunnerExtras.
Import Js Http Types Page RunnerSpec RunnerSpec2 RouteSpec2 PanelSpec Deployment.

Variable formatNumber : number -> string.
Variable net : Network.

(** A step that neither succeeds nor fails was answered ok without data. *)
Lemma silent_ok_without_data st step history :
  success_line formatNumber net history st step = None ->
  failure_message net history st step = None ->
  ~ answers_with_data net.
Proof.
  unfold success_line, failure_message, thrown, request_of, succeeded.
  intros Hno Hko (Hc & Hs & Hm).
  destruct (type step).
  - apply (Hc history (apiKey st) (config step !! "channelId" ?? channelId st)).
    destruct (post_channel _ _ _ _) as [ m | r ]; [done|].
    destruct (json r) as [ m | b ] eqn:Hjson; [done|]. destruct (ok r) eqn:Hok; [|done].
    exists r, b. split_and!; try done. cbn in Hno. by destruct (data b).
  - destruct (post_search _ _ _ _) as [ m | r ]; [done|]. cbn in *.
    destruct (json r) as [ m | b ]; [done|]. destruct (ok r); [|done].
    by destruct (data b).
  - apply (Hm history (apiKey st) (config step !! "videoId" ?? commentsVideoId st)).
    destruct (post_comments _ _ _ _) as [ m | r ]; [done|].
    destruct (json r) as [ m | b ] eqn:Hjson; [done|]. destruct (ok r) eqn:Hok; [|done].
    exists r, b. split_and!; try done. cbn in Hno. by destruct (data b).
Qed.

(** The loop touches nothing but the log. It adds at most one line per
    step it dispatched, exactly one when the ok answers carry data, and
    when it stops before the last step the line on top is a failure
    line. *)
Lemma for_steps_frame st workflow todo : forall w,
  exists w' added k,
    for_steps formatNumber net st workflow todo w = (inr tt, w') /\
    page w' = with_runLog (added ++ runLog (page w))%list (page w) /\
    calls w' = (calls w ++ map (request_of st) (take k todo))%list /\
    (k <= length todo)%nat /\ (length added <= k)%nat /\
    ((k < length todo)%nat ->
     exists message, head added = Some (failure_line workflow message)) /\
    (answers_with_data net -> length added = k).
Proof.
  induction todo as [|step todo IH]; intros w.
  - exists w, [], 0%nat. cbn. rewrite app_nil_r.
    split_and!; try done; [by destruct w as [[] ?]|lia].
  - destruct (failure_message net (calls w) st step) as [message|] eqn:Hko.
    { rewrite (for_steps_cons_failure formatNumber net st workflow step todo w message Hko).
      eexists _, [_], 1%nat. cbn. rewrite take_0.
      split_and!; try done; try lia. intros _. by eexists. }
    destruct (success_line formatNumber net (calls w) st step) as [line|] eqn:Hline.
    + rewrite (for_steps_cons_success _ _ _ _ _ _ _ _ Hline).
      destruct (IH {| page := with_runLog (line :: runLog (page w)) (page w);
                      calls := (calls w ++ [request_of st step])%list |})
        as (w' & added & k & -> & Hpage & Hcalls & Hk & Hlen & Hstop & Hexact).
      exists w', (added ++ [line])%list, (S k). cbn in *.
      split_and!; [done| | |lia|rewrite length_app; cbn; lia| |].
      * rewrite Hpage. by rewrite <- app_assoc.
      * rewrite Hcalls. by rewrite <- app_assoc.
      * intros Hlt. destruct Hstop as [message Hhead]; [lia|].
        exists message. by destruct added.
      * intros Hdata. rewrite length_app, (Hexact Hdata). cbn. lia.
    + rewrite (for_steps_cons_silent _ _ _ _ _ _ _ Hline Hko).
      destruct (IH {| page := page w; calls := (calls w ++ [request_of st step])%list |})
        as (w' & added & k & -> & Hpage & Hcalls & Hk & Hlen & Hstop & Hexact).
      exists w', added, (S k). cbn in *.
      split_and!; [done|done| |lia|lia| |].
      * rewrite Hcalls. by rewrite <- app_assoc.
      * intros Hlt. apply Hstop. lia.
      * intros Hdata. by destruct (silent_ok_without_data _ _ _ Hline Hko).
Qed.


(** Steps that succeed one after the other are all dispatched, and the
    loop goes on with what follows them. *)
Lemma for_steps_success_prefix st workflow pre rest : forall w lines,
  success_lines formatNumber net st (calls w) pre = Some lines ->
  for_steps formatNumber net st workflow (pre ++ rest)%list w =
    for_steps formatNumber net st workflow rest
      {| page := with_runLog (reverse lines ++ runLog (page w))%list (page w);
         calls := (calls w ++ map (request_of st) pre)%list |}.
Proof.
  induction pre as [|step pre IH]; intros w lines Hlines.
  - injection Hlines as <-. cbn. rewrite app_nil_r. by destruct w as [[] ?].
  - cbn [success_lines] in Hlines.
    destruct (success_line formatNumber net (calls w) st step) as [line|] eqn:Hline; [|done].
    cbn [mbind option_bind] in Hlines.
    destruct (success_lines formatNumber net st _ pre) as [lines'|] eqn:Hrest; [|done].
    injection Hlines as <-.
    change ((step :: pre) ++ rest)%list with (step :: (pre ++ rest))%list.
    rewrite (for_steps_cons_success _ _ _ _ _ _ _ _ Hline).
    rewrite (IH _ lines') by done. cbn [page calls map].
    rewrite reverse_cons, <- !app_assoc. reflexivity.
Qed.

Lemma success_lines_length st todo : forall history lines,
  success_lines formatNumber net st history todo = Some lines ->
  length lines = length todo.
Proof.
  induction todo as [|step l IH]; intros history lines Hlines.
  - by injection Hlines as <-.
  - cbn [success_lines] in Hlines.
    destruct (success_line _ _ _ _ step); [|done]. cbn [mbind option_bind] in Hlines.
    destruct (success_lines _ _ _ _ l) as [lines'|] eqn:Hl; [|done].
    injection Hlines as <-. cbn. f_equal. by eapply IH.
Qed.

(** X10. With an API key, when every step succeeds in turn, every step is
    dispatched, in order, and the log gains the start line and then one
    success line per step, the last step's line on top. *)
Theorem runWorkflow_all_succeed workflow w lines :
  apiKey (page w) <> "" ->
  success_lines formatNumber net (page w) (calls w) (steps workflow) = Some lines ->
  exists w',
    runWorkflow formatNumber net (Some workflow) w = (inr tt, w') /\
    runLog (page w') = (reverse lines ++ running_line workflow :: runLog (page w))%list /\
    calls w' = (calls w ++ map (request_of (page w)) (steps workflow))%list /\
    length lines = length (steps workflow) /\
    isRunningWorkflow (page w') = false.
Proof.
  intros Hkey Hlines. unfold runWorkflow. rewrite decide_False by done.
  unfold mbind, Run_bind, bind at 1 2 3. cbn [setIsRunningWorkflow setRunLog].
  match goal with
  | |- context [for_steps _ _ _ _ _ ?w1] =>
      pose proof (for_steps_success_prefix (page w) workflow (steps workflow) [] w1 lines Hlines)
        as Hrun
  end.
  rewrite app_nil_r in Hrun. rewrite Hrun.
  eexists. split; [reflexivity|]. cbn. split_and!; try done.
  by eapply success_lines_length.
Qed.

(** X11. With an API key, wherever the first failure occurs, the steps
    before it are dispatched and logged, the failing step is dispatched
    and logged as a failure with its message, and no later step is
    dispatched or logged. *)
Theorem runWorkflow_first_failure_anywhere workflow w pre failing post lines message :
  apiKey (page w) <> "" ->
  steps workflow = (pre ++ failing :: post)%list ->
  success_lines formatNumber net (page w) (calls w) pre = Some lines ->
  failure_message net (calls w ++ map (request_of (page w)) pre)%list
    (page w) failing = Some message ->
  exists w',
    runWorkflow formatNumber net (Some workflow) w = (inr tt, w') /\
    runLog (page w') =
      (failure_line workflow message :: reverse lines
         ++ running_line workflow :: runLog (page w))%list /\
    calls w' = (calls w ++ map (request_of (page w)) (pre ++ [failing]))%list /\
    isRunningWorkflow (page w') = false.
Proof.
  intros Hkey Hsteps Hlines Hfail. unfold runWorkflow. rewrite decide_False by done.
  unfold mbind, Run_bind, bind at 1 2 3. cbn [setIsRunningWorkflow setRunLog].
  rewrite Hsteps, (for_steps_success_prefix _ _ _ _ _ lines) by done.
  rewrite (for_steps_cons_failure formatNumber net _ _ _ _ _ message) by exact Hfail.
  eexists. split; [reflexivity|]. cbn.
  rewrite map_app, <- !app_assoc. done.
Qed.

(** The page's own routes answer ok only with data. *)
Lemma served_answers_with_data yt : answers_with_data (served yt).
Proof.
  destruct routes_answer_shape as (Hc & Hs & Hm).
  split_and!; intros history k x (r & b & Hr & Hok & Hjson & Hdata);
    cbn in Hr; injection Hr as <-.
  - pose proof (client_view_shape _ (Hc (channels yt) (post_body "apiKey" k "channelId" x))) as Hv.
    destruct (error_of _); [destruct Hv; congruence|].
    destruct Hv as [_ [d Hd]]. rewrite Hd in Hjson. by injection Hjson as <-.
  - pose proof (client_view_shape _ (Hs (search yt) (post_body "apiKey" k "query" x))) as Hv.
    destruct (error_of _); [destruct Hv; congruence|].
    destruct Hv as [_ [d Hd]]. rewrite Hd in Hjson. by injection Hjson as <-.
  - pose proof (client_view_shape _
      (Hm (commentThreads yt) (post_body "apiKey" k "videoId" x))) as Hv.
    destruct (error_of _); [destruct Hv; congruence|].
    destruct Hv as [_ [d Hd]]. rewrite Hd in Hjson. by injection Hjson as <-.
Qed.


End RunnerExtras.

(** ** The workflow store *)

Section StoreFacts.
Import Js Types Page Store StoreSpec RunnerSpec.

Lemma find_map_same {A} (f : A -> bool) (g : A -> A) (l : list A) :
  (forall x, f (g x) = f x) -> List.find f (map g l) = g <$> List.find f l.
Proof.
  intros Hfg. induction l as [|x l IH]; [done|].
  cbn. rewrite Hfg. by destruct (f x).
Qed.

Lemma selectedWorkflow_Some st selected :
  selectedWorkflow st = Some selected ->
  selected ∈ workflows st /\ selectedWorkflowId st = Some (id selected).
Proof.
  unfold selectedWorkflow. destruct (selectedWorkflowId st) as [i|]; [|done].
  intros Hfind. apply List.find_some in Hfind as [Hin Hid].
  apply bool_decide_eq_true in Hid as <-. split; [by apply list_elem_of_In|done].
Qed.

(** The workflows after an update, and the selection that follows it. *)
Lemma selectedWorkflow_update st selected updated :
  selectedWorkflow st = Some selected -> id updated = id selected ->
  selectedWorkflow (updateWorkflow updated st) = Some updated.
Proof.
  intros Hsel Hid. destruct (selectedWorkflow_Some _ _ Hsel) as [_ Hi].
  unfold selectedWorkflow in *. cbn. rewrite Hi in *.
  rewrite find_map_same.
  - rewrite Hsel. cbn. rewrite decide_True; done.
  - intros w. case_decide as Hw; [|done]. by rewrite Hw.
Qed.

Lemma falsy_false x : falsy x = false -> exists v, x = Some v /\ v <> "".
Proof.
  destruct x as [v|]; [|done]. cbn. rewrite bool_decide_eq_false. eauto.
Qed.

(** The step built from an accepted draft is well configured. *)
Lemma draftStep_configured uuid st :
  falsy (requiredField st) = false -> well_configured (draftStep uuid st).
Proof.
  intros Hreq. apply falsy_false in Hreq as (v & Hv & Hne).
  unfold well_configured, draftStep, requiredField, config_key in *. cbn.
  destruct (stepDraftType st); cbn.
  - injection Hv as Hv. rewrite lookup_singleton_eq. rewrite Hv. eauto.
  - rewrite lookup_singleton_eq, Hv. eauto.
  - rewrite lookup_singleton_eq, Hv. eauto.
Qed.

(** X13. Adding a step keeps every stored step well configured: a step
    the page creates always carries a non-empty channel id, query or video
    id of its own. *)
Theorem addStepToWorkflow_keeps_configured uuid st :
  all_configured st -> all_configured (addStepToWorkflow uuid st).
Proof.
  unfold all_configured, addStepToWorkflow. intros Hall.
  destruct (selectedWorkflow st) as [selected|] eqn:Hsel; [|done].
  destruct (falsy (requiredField st)) eqn:Hreq; [done|].
  cbn. apply Forall_fmap, Forall_forall. intros w Hw. cbn.
  rewrite Forall_forall in Hall. case_decide; [|by apply Hall].
  cbn. apply Forall_app. split.
  - apply Hall. by apply selectedWorkflow_Some.
  - apply Forall_singleton. by apply draftStep_configured.
Qed.

(** What an accepted "Add step" leaves: the selection and the list. *)
Lemma addStepToWorkflow_effect_sel uuid st selected :
  selectedWorkflow st = Some selected ->
  falsy (requiredField st) = false ->
  selectedWorkflow (addStepToWorkflow uuid st) =
    Some (with_steps (steps selected ++ [draftStep uuid st])%list selected) /\
  workflows (addStepToWorkflow uuid st) =
    map (fun w =>
           if decide (id w = id selected)
           then with_steps (steps selected ++ [draftStep uuid st])%list selected
           else w)
      (workflows st).
Proof.
  intros Hsel Hreq. unfold addStepToWorkflow. rewrite Hsel, Hreq. cbn zeta.
  set (updated := with_steps _ selected). split; [|done].
  pose proof (selectedWorkflow_update st selected updated Hsel eq_refl) as Hupd.
  unfold selectedWorkflow in *. exact Hupd.
Qed.

(** X14. "Add step" with a selected workflow and an accepted draft puts
    the new step at the end of the selected workflow, keeps every other
    workflow, the order and the log, and resets the draft type; with a
    refused draft it only logs the warning; without a selection it does
    nothing. *)
Theorem addStepToWorkflow_effect uuid st :
  (forall selected,
     selectedWorkflow st = Some selected ->
     falsy (requiredField st) = false ->
     let st' := addStepToWorkflow uuid st in
     selectedWorkflow st' =
       Some (with_steps (steps selected ++ [draftStep uuid st])%list selected) /\
     id <$> workflows st' = id <$> workflows st /\
     (forall other, other ∈ workflows st -> id other <> id selected ->
        other ∈ workflows st') /\
     runLog st' = runLog st /\
     stepDraftType st' = ChannelStats) /\
  (forall selected,
     selectedWorkflow st = Some selected ->
     falsy (requiredField st) = true ->
     addStepToWorkflow uuid st = logLine fill_warning st) /\
  (selectedWorkflow st = None -> addStepToWorkflow uuid st = st).
Proof.
  unfold addStepToWorkflow. split_and!.
  - intros selected Hsel Hreq. rewrite Hsel, Hreq. cbn zeta.
    set (updated := with_steps _ selected).
    split_and!.
    + pose proof (selectedWorkflow_update st selected updated Hsel eq_refl) as Hupd.
      unfold selectedWorkflow in *. exact Hupd.
    + cbn. rewrite <- list_fmap_compose. apply list_fmap_ext. intros i w _. cbn.
      by case_decide.
    + intros other Hin Hne. cbn. apply list_elem_of_fmap. exists other.
      split; [|done]. by rewrite decide_False.
    + done.
    + done.
  - intros selected -> ->. done.
  - by intros ->.
Qed.

Lemma filter_app_fresh (stepId : string) (l : list WorkflowStep) step :
  stepId ∉ step_id <$> l -> step_id step = stepId ->
  List.filter (fun s => negb (bool_decide (step_id s = stepId))) (l ++ [step])%list = l.
Proof.
  intros Hfresh Hid. rewrite List.filter_app. cbn.
  rewrite bool_decide_eq_true_2 by done. cbn. rewrite app_nil_r.
  induction l as [|x l IH]; [done|]. cbn in *.
  apply not_elem_of_cons in Hfresh as [Hx Hl].
  rewrite bool_decide_eq_false_2 by done. cbn. by rewrite IH.
Qed.

Lemma same_id_same_workflow (l : list AutomationWorkflow) x y :
  NoDup (id <$> l) -> x ∈ l -> y ∈ l -> id x = id y -> x = y.
Proof.
  induction l as [|z l IH]; intros Hnd Hx Hy Hid; [by apply elem_of_nil in Hx|].
  cbn in Hnd. apply NoDup_cons in Hnd as [Hz Hnd].
  apply elem_of_cons in Hx as [->|Hx]; apply elem_of_cons in Hy as [->|Hy]; try done.
  - destruct Hz. rewrite Hid. by apply list_elem_of_fmap_2.
  - destruct Hz. rewrite <- Hid. by apply list_elem_of_fmap_2.
  - by apply IH.
Qed.

Lemma map_restore (l : list AutomationWorkflow) selected updated :
  NoDup (id <$> l) -> selected ∈ l -> id updated = id selected ->
  map (fun w => if decide (id w = id selected) then selected else w)
    (map (fun w => if decide (id w = id updated) then updated else w) l) = l.
Proof.
  intros Hnd Hin Hid. rewrite map_map. rewrite <- (map_id l) at 2.
  apply map_ext_in. intros w Hw. apply list_elem_of_In in Hw.
  destruct (decide (id w = id updated)) as [Heq|Hne].
  - rewrite decide_True by done. symmetry.
    apply (same_id_same_workflow l); [done..|congruence].
  - rewrite decide_False by congruence. done.
Qed.

(** X15. Removing the step that was just added gives back the stored
    workflows, when ids are distinct and the new step's id is fresh in the
    selected workflow. *)
Theorem removeStep_addStepToWorkflow uuid st selected :
  ids_distinct st ->
  selectedWorkflow st = Some selected ->
  falsy (requiredField st) = false ->
  uuid ∉ step_id <$> steps selected ->
  workflows (removeStep uuid (addStepToWorkflow uuid st)) = workflows st.
Proof.
  intros Hnd Hsel Hreq Hfresh.
  destruct (addStepToWorkflow_effect_sel uuid st selected Hsel Hreq) as [Hsel' Hws].
  unfold removeStep. rewrite Hsel'. cbn [steps with_steps].
  rewrite filter_app_fresh by done.
  unfold updateWorkflow. cbn. rewrite Hws. cbn.
  destruct (selectedWorkflow_Some _ _ Hsel) as [Hin _].
  assert (with_steps (steps selected)
            (with_steps (steps selected ++ [draftStep uuid st])%list selected) = selected)
    as -> by by destruct selected.
  by apply (map_restore (workflows st) selected
              (with_steps (steps selected ++ [draftStep uuid st])%list selected)).
Qed.

Lemma store_ok_ext st st' :
  workflows st' = workflows st -> selectedWorkflowId st' = selectedWorkflowId st ->
  store_ok st -> store_ok st'.
Proof.
  unfold store_ok, selection_valid, ids_distinct, all_named. by intros -> ->.
Qed.

Lemma update_with_steps_ok st selected l :
  store_ok st -> selected ∈ workflows st ->
  store_ok (updateWorkflow (with_steps l selected) st).
Proof.
  intros (Hsel & Hnd & Hnamed) Hin.
  assert (id <$> workflows (updateWorkflow (with_steps l selected) st) = id <$> workflows st)
    as Hids.
  { cbn. rewrite <- list_fmap_compose. apply list_fmap_ext. intros i w _. cbn.
    by case_decide. }
  unfold store_ok, selection_valid, ids_distinct, all_named in *. rewrite Hids.
  split_and!; [done|done|].
  cbn. apply Forall_fmap, Forall_forall. intros w Hw. cbn.
  rewrite Forall_forall in Hnamed. case_decide; cbn; by apply Hnamed.
Qed.

Lemma keep_others_elem workflowId (l : list AutomationWorkflow) w :
  w ∈ keep_others workflowId l <-> w ∈ l /\ id w <> workflowId.
Proof.
  unfold keep_others. rewrite !list_elem_of_In, List.filter_In.
  rewrite negb_true_iff, bool_decide_eq_false. done.
Qed.

Lemma keep_others_NoDup workflowId (l : list AutomationWorkflow) :
  NoDup (id <$> l) -> NoDup (id <$> keep_others workflowId l).
Proof.
  induction l as [|x l IH]; [done|]. cbn. intros [Hx Hnd]%NoDup_cons.
  destruct (negb _); [|by apply IH]. cbn. apply NoDup_cons. split; [|by apply IH].
  intros (w & Hid & Hw)%list_elem_of_fmap. apply keep_others_elem in Hw as [Hw _].
  apply Hx. rewrite Hid. by apply list_elem_of_fmap_2.
Qed.

(** X16. Every operation of the store keeps it well formed: the selection
    names a stored workflow, ids are distinct and no workflow has an empty
    name. Creating needs a fresh id; removing the selected workflow
    selects the first that remains. *)
Theorem store_operations_keep_invariants st :
  store_ok st ->
  (forall uuid, uuid ∉ id <$> workflows st -> store_ok (createWorkflow_onClick uuid st)) /\
  (forall workflowId,
     store_ok (removeWorkflow workflowId st) /\
     (workflowId ∉ id <$> workflows (removeWorkflow workflowId st)) /\
     (selectedWorkflowId st = Some workflowId ->
      selectedWorkflowId (removeWorkflow workflowId st) =
        (id <$> head (keep_others workflowId (workflows st))))) /\
  (forall uuid, store_ok (addStepToWorkflow uuid st)) /\
  (forall stepId, store_ok (removeStep stepId st)) /\
  store_ok (reset_onClick st) /\
  store_ok (stepDraftEffect st).
Proof.
  intros Hok. split_and!.
  - intros uuid Hfresh. unfold createWorkflow_onClick.
    case_decide as Hname; [by apply (store_ok_ext st)|].
    destruct Hok as (Hsel & Hnd & Hnamed).
    unfold store_ok, selection_valid, ids_distinct, all_named in *. cbn. split_and!.
    + intros i [= <-]. by left.
    + by apply NoDup_cons.
    + by apply Forall_cons.
  - intros workflowId. destruct Hok as (Hsel & Hnd & Hnamed).
    assert (workflows (removeWorkflow workflowId st) = keep_others workflowId (workflows st))
      as Hws by (unfold removeWorkflow; by case_decide).
    unfold store_ok, selection_valid, ids_distinct, all_named in *. rewrite Hws.
    split_and!.
    + intros i. unfold removeWorkflow. case_decide as Hi; cbn.
      * destruct (keep_others workflowId (workflows st)) as [|first others]; [done|].
        cbn. intros [= <-]. by left.
      * intros Hsome. specialize (Hsel i Hsome).
        apply list_elem_of_fmap in Hsel as (w & -> & Hw).
        apply list_elem_of_fmap_2, keep_others_elem. split; [done|]. congruence.
    + by apply keep_others_NoDup.
    + apply Forall_forall. intros w [Hw _]%keep_others_elem.
      rewrite Forall_forall in Hnamed. by apply Hnamed.
    + intros (w & Hid & [_ Hne]%keep_others_elem)%list_elem_of_fmap. done.
    + intros Hi. unfold removeWorkflow. by rewrite decide_True.
  - intros uuid. unfold addStepToWorkflow.
    destruct (selectedWorkflow st) as [selected|] eqn:Hs; [|done].
    destruct (falsy _); [by apply (store_ok_ext st)|].
    apply (store_ok_ext (updateWorkflow
                           (with_steps (steps selected ++ [draftStep uuid st])%list selected) st));
      [done|done|].
    apply update_with_steps_ok; [done|]. by apply selectedWorkflow_Some.
  - intros stepId. unfold removeStep.
    destruct (selectedWorkflow st) as [selected|] eqn:Hs; [|done].
    apply update_with_steps_ok; [done|]. by apply selectedWorkflow_Some.
  - by apply (store_ok_ext st).
  - by apply (store_ok_ext st).
Qed.

Lemma or_string_idem a b : or_string (or_string a b) b = or_string a b.
Proof. unfold or_string. repeat case_decide; done. Qed.

Lemma or_else_idem x b : or_else (Some (or_else x b)) b = or_else x b.
Proof. destruct x; cbn; [apply or_string_idem|]. unfold or_string. by case_decide. Qed.

(** X17. The draft effect is idempotent: running it again on its own
    result changes nothing. *)
Theorem stepDraftEffect_idempotent st :
  stepDraftEffect (stepDraftEffect st) = stepDraftEffect st.
Proof.
  unfold stepDraftEffect. destruct st as [? ? ? ? ? ? ? ? ? ? ? ? ? ? ? ? ? ? ? t c].
  cbn. destruct t; cbn; rewrite lookup_insert_eq, insert_insert_eq;
    unfold setStepDraftConfig; cbn; do 2 f_equal.
  - apply or_else_idem.
  - set (y := or_string (or_else (c !! "query") _) _).
    assert (y <> "") as Hy by (unfold y, or_string; by case_decide).
    assert (forall b, or_string y b = y) as Hyb
      by (intros b; unfold or_string; by rewrite decide_False).
    cbn. by rewrite !Hyb.
  - apply or_else_idem.
Qed.

(** X18. Right after the draft effect, "Add step" is refused only for a
    channel step without any channel id (neither in the draft nor in the
    default field) or a comments step without any video id; a search step
    is never refused, the effect having supplied a query. *)
Theorem stepDraftEffect_refusal st :
  falsy (requiredField (stepDraftEffect st)) = true <->
  (stepDraftType st = ChannelStats /\
   falsy (stepDraftConfig st !! "channelId") = true /\ channelId st = "") \/
  (stepDraftType st = FetchComments /\
   falsy (stepDraftConfig st !! "videoId") = true /\ commentsVideoId st = "").
Proof.
  unfold stepDraftEffect, requiredField.
  destruct st as [? ch ? ? ? q ? ? ? v ? ? ? ? ? ? ? ? ? t c]. cbn.
  destruct t; cbn; rewrite ?lookup_insert_eq; cbn.
  - rewrite bool_decide_eq_true.
    change (or_string (or_else ?x ?b) ?b) with (or_else (Some (or_else x b)) b).
    rewrite or_else_idem. unfold or_else, or_string.
    destruct (c !! "channelId") as [d|]; cbn; [rewrite bool_decide_eq_true|].
    + split.
      * case_decide; [|done]. intros ->. by left.
      * intros [(_ & -> & ->)|(? & _)]; [|done]. by rewrite decide_True.
    + split; [intros ->; by left|]. by intros [(_ & _ & ->)|(? & _)].
  - rewrite bool_decide_eq_true. split.
    + unfold or_string at 1. case_decide; [done|]. done.
    + by intros [(? & _)|(? & _)].
  - rewrite bool_decide_eq_true. unfold or_else, or_string.
    destruct (c !! "videoId") as [d|]; cbn; [rewrite bool_decide_eq_true|].
    + split.
      * case_decide; [|done]. intros ->. by right.
      * intros [(? & _)|(_ & -> & ->)]; [done|]. by rewrite decide_True.
    + split; [intros ->; by right|]. by intros [(? & _)|(_ & _ & ->)].
Qed.

(** X19. After "Reset", running any workflow issues no call: the key is
    empty, so the run only adds the warning on top of the reset line. *)
Theorem reset_then_run formatNumber net workflow st history :
  runWorkflow formatNumber net (Some workflow) {| page := reset_onClick st; calls := history |} =
    (inr tt,
     {| page := logLine warning_line (reset_onClick st); calls := history |}) /\
  runLog (logLine warning_line (reset_onClick st)) =
    warning_line :: cleared_line :: runLog st.
Proof. split; reflexivity. Qed.

End StoreFacts.

(** ** More on persistence *)

Section PersistenceExtras.
Import Js Types Page Store Persistence PersistenceSpec.

Lemma getLocalStorage_unreadable key fallback window :
  slot_unreadable window key -> getLocalStorage key fallback window = fallback.
Proof.
  unfold slot_unreadable, getLocalStorage. destruct window as [ls|]; [|done].
  destruct (getItem key ls) as [raw|]; [|done].
  intros [->|[m Hm]]; [done|]. case_decide; [done|]. by rewrite Hm.
Qed.

(** X20. What cannot be read falls back: when each of the three slots is
    out of reach (no window), missing, empty, or holds text that is not
    JSON, the startup effect sets an empty key, an empty channel id and no
    workflow, and keeps the selection and every other cell. *)
Theorem load_falls_back window st :
  slot_unreadable window STORAGE_KEYS.apiKey ->
  slot_unreadable window STORAGE_KEYS.channelId ->
  slot_unreadable window STORAGE_KEYS.workflows ->
  load window st = Some (setWorkflows [] (setChannelId "" (setApiKey "" st))).
Proof.
  intros Hk Hc Hw. unfold load.
  rewrite !getLocalStorage_unreadable by done. cbn. by destruct st.
Qed.

(** The three writes of [persist], one slot after the other. *)
Lemma persist_items st localStorage :
  exists localStorage',
    persist st (Some localStorage) = Some localStorage' /\
    quota_exceeded localStorage' = quota_exceeded localStorage /\
    getItem STORAGE_KEYS.apiKey localStorage' =
      slot_after localStorage STORAGE_KEYS.apiKey (JSON.stringify (VString (apiKey st))) /\
    getItem STORAGE_KEYS.channelId localStorage' =
      slot_after localStorage STORAGE_KEYS.channelId
        (JSON.stringify (VString (channelId st))) /\
    getItem STORAGE_KEYS.workflows localStorage' =
      slot_after localStorage STORAGE_KEYS.workflows
        (JSON.stringify (workflows_value (workflows st))) /\
    forall key,
      key <> STORAGE_KEYS.apiKey -> key <> STORAGE_KEYS.channelId ->
      key <> STORAGE_KEYS.workflows ->
      getItem key localStorage' = getItem key localStorage.
Proof.
  unfold persist, setLocalStorage, setItem, slot_after, getItem.
  destruct localStorage as [m q]. cbn.
  destruct (q STORAGE_KEYS.apiKey _) eqn:Hk; cbn;
    destruct (q STORAGE_KEYS.channelId _) eqn:Hc; cbn;
    destruct (q STORAGE_KEYS.workflows _) eqn:Hw; cbn;
    eexists; (split; [reflexivity|]); cbn;
    (split_and!; [done|..|intros key ? ? ?]); by simplify_map_eq.
Qed.

(** X21. [persist] writes its three slots and nothing else: each slot
    holds the new text when the write was accepted and its old content
    when it was refused, and every other item of the storage is left as
    it was. Without a window nothing is written. *)
Theorem persist_slots st :
  persist st None = None /\
  forall localStorage,
    exists localStorage',
      persist st (Some localStorage) = Some localStorage' /\
      getItem STORAGE_KEYS.apiKey localStorage' =
        slot_after localStorage STORAGE_KEYS.apiKey (JSON.stringify (VString (apiKey st))) /\
      getItem STORAGE_KEYS.channelId localStorage' =
        slot_after localStorage STORAGE_KEYS.channelId
          (JSON.stringify (VString (channelId st))) /\
      getItem STORAGE_KEYS.workflows localStorage' =
        slot_after localStorage STORAGE_KEYS.workflows
          (JSON.stringify (workflows_value (workflows st))) /\
      forall key,
        key <> STORAGE_KEYS.apiKey -> key <> STORAGE_KEYS.channelId ->
        key <> STORAGE_KEYS.workflows ->
        getItem key localStorage' = getItem key localStorage.
Proof.
  split; [done|]. intros localStorage.
  destruct (persist_items st localStorage) as (ls' & H & _ & Hk & Hc & Hw & Ho).
  by exists ls'.
Qed.

(** X22. Once a pass of the three writes was accepted, persisting the
    same state again leaves every item of the storage as it is, whatever
    the storage refuses by then. *)
Theorem persist_idempotent st localStorage refuses :
  quota_exceeded localStorage STORAGE_KEYS.apiKey (JSON.stringify (VString (apiKey st))) = false ->
  quota_exceeded localStorage STORAGE_KEYS.channelId
    (JSON.stringify (VString (channelId st))) = false ->
  quota_exceeded localStorage STORAGE_KEYS.workflows
    (JSON.stringify (workflows_value (workflows st))) = false ->
  exists first second,
    persist st (Some localStorage) = Some first /\
    persist st (Some (later first refuses)) = Some second /\
    items second = items first.
Proof.
  intros Hk Hc Hw.
  destruct (persist_items st localStorage) as (first & Hfirst & _ & Hik & Hic & Hiw & _).
  destruct (persist_items st (later first refuses))
    as (second & Hsecond & _ & Hjk & Hjc & Hjw & Hother).
  exists first, second. split; [done|]. split; [done|].
  unfold slot_after in *. rewrite Hk in Hik. rewrite Hc in Hic. rewrite Hw in Hiw.
  unfold getItem, later in *. cbn [items quota_exceeded] in *.
  apply map_eq. intros key.
  destruct (decide (key = STORAGE_KEYS.apiKey)) as [->|?].
  { rewrite Hjk, Hik. by destruct (refuses STORAGE_KEYS.apiKey _). }
  destruct (decide (key = STORAGE_KEYS.channelId)) as [->|?].
  { rewrite Hjc, Hic. by destruct (refuses STORAGE_KEYS.channelId _). }
  destruct (decide (key = STORAGE_KEYS.workflows)) as [->|?].
  { rewrite Hjw, Hiw. by destruct (refuses STORAGE_KEYS.workflows _). }
  by apply Hother.
Qed.

Lemma getLocalStorage_item key v fallback localStorage :
  JSON.plain v ->
  getItem key localStorage = Some (JSON.stringify v) ->
  getLocalStorage key fallback (Some localStorage) = v.
Proof.
  intros Hplain Hitem. unfold getLocalStorage. rewrite Hitem.
  rewrite decide_False by by apply stringify_nonempty.
  by rewrite parse_stringify.
Qed.

(** X23. What the startup effect restores: run on a page state [st0] over
    the storage that three accepted writes of [st] left, it sets the key,
    the channel id and the workflows of [st], selects the first workflow
    whatever was selected, and changes no other cell. The draft effect,
    which runs after it, then copies the restored channel id into a draft
    for a channel step that has none. *)
Theorem reload_state st st0 localStorage :
  quota_exceeded localStorage STORAGE_KEYS.apiKey (JSON.stringify (VString (apiKey st))) = false ->
  quota_exceeded localStorage STORAGE_KEYS.channelId
    (JSON.stringify (VString (channelId st))) = false ->
  quota_exceeded localStorage STORAGE_KEYS.workflows
    (JSON.stringify (workflows_value (workflows st))) = false ->
  let restored :=
    setSelectedWorkflowId
      match workflows st with
      | first :: _ => Some (id first)
      | [] => selectedWorkflowId st0
      end
      (setWorkflows (workflows st)
         (setChannelId (channelId st) (setApiKey (apiKey st) st0))) in
  load (persist st (Some localStorage)) st0 = Some restored /\
  (stepDraftType st0 = ChannelStats ->
   falsy (stepDraftConfig st0 !! "channelId") = true ->
   stepDraftConfig (stepDraftEffect restored) =
     <[ "channelId" := channelId st ]> (stepDraftConfig st0)).
Proof.
  intros Hk Hc Hw restored. split.
  - destruct (persist_items st localStorage) as (ls' & -> & _ & Hik & Hic & Hiw & _).
    unfold slot_after in *. rewrite Hk in Hik. rewrite Hc in Hic. rewrite Hw in Hiw.
    unfold load.
    rewrite (getLocalStorage_item _ _ _ _ (JSON.plain_string _) Hik).
    rewrite (getLocalStorage_item _ _ _ _ (JSON.plain_string _) Hic).
    rewrite (getLocalStorage_item _ _ _ _ (workflows_value_plain _) Hiw).
    rewrite as_workflows_value. cbn. by destruct st0.
  - intros Htype Hdraft. unfold stepDraftEffect, restored. cbn. rewrite Htype. cbn.
    f_equal. unfold falsy in Hdraft. unfold or_else, or_string.
    destruct (stepDraftConfig st0 !! "channelId") as [x|]; [|done].
    apply bool_decide_eq_true in Hdraft as ->. by rewrite decide_True.
Qed.

(** A field the page does not know is no obstacle: a workflows slot whose
    workflow carries a fractional number is read. *)
Example load_unknown_field :
  let text :=
    JSON.stringify
      (VArray [VObject [("id", VString "w"); ("name", VString "n");
                        ("schedule", VString "manual"); ("steps", VArray []);
                        ("weight", VNumber (NumberOfString "1.5"))]]) in
  as_workflows
    (getLocalStorage STORAGE_KEYS.workflows (VArray [])
       (Some (mkLocalStorage {[ STORAGE_KEYS.workflows := text ]} (fun _ _ => false))))
    = Some [mkWorkflow "w" "n" manual []].
Proof. reflexivity. Qed.

End PersistenceExtras.

(** ** Runs of stored workflows *)

Section ConfiguredRuns.
Import Js Types Page Store StoreSpec RunnerSpec RunnerSpec2.

Variable formatNumber : number -> string.
Variable net : Network.

Lemma request_of_configured st st' step :
  well_configured step -> apiKey st' = apiKey st ->
  request_of st' step = request_of st step.
Proof.
  intros (v & Hv & _) Hkey. unfold request_of, config_key in *. rewrite Hkey.
  destruct (type step); by rewrite Hv.
Qed.

Lemma for_steps_cons_run st workflow step todo w :
  for_steps formatNumber net st workflow (step :: todo) w =
    match run_step formatNumber net st step w with
    | (inl message, w1) =>
        (inr tt, {| page := with_runLog (failure_line workflow message :: runLog (page w1))
                              (page w1);
                    calls := calls w1 |})
    | (inr _, w1) => for_steps formatNumber net st workflow todo w1
    end.
Proof.
  cbn [for_steps]. unfold mbind, Run_bind, bind, try_catch at 1.
  by destruct (run_step formatNumber net st step w) as [[m|[]] w1].
Qed.

Lemma runWorkflow_keyed workflow w :
  apiKey (page w) <> "" ->
  (runWorkflow formatNumber net (Some workflow) w).2 =
    let w1 := (for_steps formatNumber net (page w) workflow (steps workflow)
                 (started workflow w)).2 in
    {| page := with_isRunningWorkflow false (page w1); calls := calls w1 |}.
Proof.
  intros Hkey. unfold runWorkflow, started. rewrite decide_False by done.
  unfold mbind, Run_bind, bind at 1 2 3. cbn [setIsRunningWorkflow setRunLog].
  cbn [page calls runLog with_isRunningWorkflow].
  match goal with |- context [for_steps ?f ?n ?st ?wf ?todo ?w0] =>
    by destruct (for_steps_frame f n st wf todo w0) as (w1 & ? & ? & -> & _) end.
Qed.

Lemma run_step_alike st st' step w w' :
  request_of st' step = request_of st step -> alike w w' ->
  (run_step formatNumber net st' step w').1 = (run_step formatNumber net st step w).1 /\
  alike (run_step formatNumber net st step w).2 (run_step formatNumber net st' step w').2.
Proof.
  unfold request_of, alike, run_step. intros Hreq [Hcalls Hlog].
  destruct (type step); injection Hreq as Hk Hx; rewrite Hk, Hx;
    unfold fetch_channel, fetch_search, fetch_comments, read_data, dereference,
      setRunLog_reading, setRunLog, await, mbind, Run_bind, bind, mret, Run_ret, ret, throw;
    cbn; rewrite Hcalls;
    repeat (case_match; cbn; simplify_eq/=); rewrite ?Hcalls, ?Hlog; done.
Qed.

Lemma for_steps_alike st st' workflow todo : forall w w',
  Forall (fun step => request_of st' step = request_of st step) todo ->
  alike w w' ->
  alike (for_steps formatNumber net st workflow todo w).2
        (for_steps formatNumber net st' workflow todo w').2.
Proof.
  induction todo as [|step todo IH]; intros w w' Hreq Halike; [done|].
  apply Forall_cons in Hreq as [Hstep Hreq].
  destruct (run_step_alike st st' step w w' Hstep Halike) as [Hr Hw].
  rewrite !for_steps_cons_run.
  destruct (run_step formatNumber net st step w) as [[m|[]] w1];
    destruct (run_step formatNumber net st' step w') as [[m'|[]] w1'];
    cbn in Hr, Hw |- *; simplify_eq.
  - destruct Hw as [Hc Hl]. unfold alike. cbn. by rewrite Hl.
  - by apply IH.
Qed.

(** X24. A run reads the page through the API key and the log only, as
    long as every step of the workflow is well configured: two states
    that agree on those two give the same calls and the same log, so
    editing the default channel, query or video id does not change what a
    workflow built on the page does. *)
Theorem runWorkflow_ignores_defaults workflow w w' :
  Forall well_configured (steps workflow) ->
  apiKey (page w') = apiKey (page w) ->
  alike w w' ->
  alike (runWorkflow formatNumber net (Some workflow) w).2
        (runWorkflow formatNumber net (Some workflow) w').2.
Proof.
  intros Hconf Hkey [Hcalls Hlog].
  destruct (decide (apiKey (page w) = "")) as [Hempty|Hfull].
  - unfold runWorkflow. rewrite Hkey, !decide_True by done.
    unfold alike, setRunLog. cbn. by rewrite Hlog.
  - rewrite !runWorkflow_keyed by congruence. cbn zeta.
    destruct (for_steps_alike (page w) (page w') workflow (steps workflow)
                (started workflow w) (started workflow w')) as [Hc Hl].
    + eapply Forall_impl; [exact Hconf|]. intros step Hstep.
      by apply request_of_configured.
    + unfold alike, started. cbn. by rewrite Hlog.
    + unfold alike. cbn. by rewrite Hl.
Qed.

End ConfiguredRuns.

(** ** Instances of the further properties *)

Section MoreInstances.
Import Js Zod Http Types Page Persistence RunnerSpec RouteSpec Deployment Examples.
Import Store StoreSpec RunnerSpec2 PersistenceSpec Examples2.

Lemma routes_network_failure_witness :
  ChannelRoute.POST refused (mkRequest (Resolves (body "apiKey" key "channelId" "UC-rocq"))) =
    ([ChannelRoute.build_url key "UC-rocq"], NextResponse_json (ErrorBody "fetch failed") 400).
Proof.
  apply (proj1 routes_network_failure refused (body "apiKey" key "channelId" "UC-rocq")
           key "UC-rocq" "fetch failed");
    reflexivity.
Defined.

Lemma routes_malformed_request_witness :
  SearchRoute.POST (search youtube) garbled =
    ([], NextResponse_json (ErrorBody "Unexpected token < in JSON at position 0") 400).
Proof.
  apply (proj1 (proj2 routes_malformed_request) (search youtube) garbled). reflexivity.
Defined.

Lemma routes_unparsable_success_body_witness :
  CommentsRoute.POST (outage 200)
    (mkRequest (Resolves (body "apiKey" key "videoId" "vid-001"))) =
    ([CommentsRoute.build_url key "vid-001"],
     NextResponse_json (ErrorBody "Unexpected end of JSON input") 400).
Proof.
  apply (proj2 (proj2 routes_unparsable_success_body) (outage 200)
           (body "apiKey" key "videoId" "vid-001") key "vid-001"
           (mkResponse 200 (Rejects "Unexpected end of JSON input")));
    reflexivity.
Defined.

Lemma runWorkflow_all_succeed_witness :
  exists lines,
    success_lines compact (served youtube) (state key) [] (steps workflow_ok) = Some lines /\
    exists w',
      runWorkflow compact (served youtube) (Some workflow_ok) (world key) = (inr tt, w') /\
      runLog (page w') = (reverse lines ++ running_line workflow_ok :: ["earlier line"])%list /\
      calls w' = [PostChannel key "UC-rocq"; PostComments key "vid-001"] /\
      length lines = 2%nat /\
      isRunningWorkflow (page w') = false.
Proof.
  eexists. split; [vm_compute; reflexivity|].
  apply (runWorkflow_all_succeed compact (served youtube) workflow_ok (world key));
    [discriminate | vm_compute; reflexivity].
Defined.

Lemma runWorkflow_first_failure_anywhere_witness :
  exists lines w',
    success_lines compact (served youtube) (state key) [] [step_A] = Some lines /\
    runWorkflow compact (served youtube) (Some workflow) (world key) = (inr tt, w') /\
    runLog (page w') =
      (failure_line workflow "Search query is required" :: reverse lines
         ++ running_line workflow :: ["earlier line"])%list /\
    calls w' = [PostChannel key "UC-rocq"; PostSearch key "x"] /\
    isRunningWorkflow (page w') = false.
Proof.
  eexists.
  destruct (runWorkflow_first_failure_anywhere compact (served youtube) workflow (world key)
              [step_A] step_B [step_C] _ "Search query is required"
              ltac:(discriminate) eq_refl
              ltac:(vm_compute; reflexivity) ltac:(vm_compute; reflexivity))
    as (w' & Hrun).
  exists w'. split; [vm_compute; reflexivity|exact Hrun].
Defined.

(** An ok answer without data is no failure for a channel or a comments
    step: both calls are issued and neither logs a line. A search step
    reads its data inside the [try], and fails. *)
Example runWorkflow_ok_without_data :
  let w1 := (runWorkflow compact hollow (Some workflow_ok) (world key)).2 in
  let w2 := (runWorkflow compact hollow (Some workflow) (world key)).2 in
  calls w1 = [PostChannel key "UC-rocq"; PostComments key "vid-001"] /\
  runLog (page w1) = [running_line workflow_ok; "earlier line"] /\
  calls w2 = [PostChannel key "UC-rocq"; PostSearch key "x"] /\
  runLog (page w2) =
    [failure_line workflow (TypeError_undefined "slice"); running_line workflow;
     "earlier line"].
Proof. split_and!; reflexivity. Qed.

Lemma state_all_configured : all_configured (state key).
Proof.
  repeat constructor; eexists; (split; [vm_compute; reflexivity|discriminate]).
Defined.

Lemma state_store_ok : store_ok (state key).
Proof.
  split_and!.
  - intros i [= <-]. apply (bool_decide_unpack _). vm_compute. exact I.
  - unfold ids_distinct. cbn. apply NoDup_singleton.
  - repeat constructor. discriminate.
Defined.

Lemma addStepToWorkflow_keeps_configured_witness :
  all_configured (addStepToWorkflow "s9" (state key)).
Proof. apply (addStepToWorkflow_keeps_configured "s9" (state key)), state_all_configured. Defined.

Lemma addStepToWorkflow_effect_witness :
  let st' := addStepToWorkflow "s9" (state key) in
  selectedWorkflow st' =
    Some (with_steps (steps workflow ++ [draftStep "s9" (state key)])%list workflow) /\
  id <$> workflows st' = id <$> workflows (state key) /\
  (forall other, other ∈ workflows (state key) -> id other <> id workflow ->
     other ∈ workflows st') /\
  runLog st' = runLog (state key) /\
  stepDraftType st' = ChannelStats.
Proof.
  apply (proj1 (addStepToWorkflow_effect "s9" (state key)) workflow); reflexivity.
Defined.

Lemma removeStep_addStepToWorkflow_witness :
  workflows (removeStep "s9" (addStepToWorkflow "s9" (state key))) = workflows (state key).
Proof.
  apply (removeStep_addStepToWorkflow "s9" (state key) workflow);
    [exact (proj1 (proj2 state_store_ok)) | reflexivity | reflexivity |].
  apply (bool_decide_unpack _). vm_compute. exact I.
Defined.

Lemma store_operations_keep_invariants_witness :
  store_ok (removeWorkflow "w1" (state key)) /\
  selectedWorkflowId (removeWorkflow "w1" (state key)) = None /\
  store_ok (addStepToWorkflow "s9" (state key)) /\
  store_ok (reset_onClick (state key)).
Proof.
  destruct (store_operations_keep_invariants (state key) state_store_ok)
    as (_ & Hremove & Hadd & _ & Hreset & _).
  destruct (Hremove "w1") as (Hok & _ & Hsel).
  split_and!; [exact Hok | exact (Hsel eq_refl) | exact (Hadd "s9") | exact Hreset].
Defined.

Lemma load_falls_back_witness :
  load (Some broken_storage) (state key) =
    Some (setWorkflows [] (setChannelId "" (setApiKey "" (state key)))).
Proof.
  apply (load_falls_back (Some broken_storage) (state key)).
  - right. eexists. vm_compute. reflexivity.
  - left. vm_compute. reflexivity.
  - vm_compute. exact I.
Defined.

Lemma reload_state_witness :
  load (persist (state key) (Some empty_storage)) (state "") =
    Some (setSelectedWorkflowId (Some "w1")
            (setWorkflows [workflow]
               (setChannelId "UC-default" (setApiKey key (state ""))))) /\
  stepDraftConfig
    (stepDraftEffect
       (setSelectedWorkflowId (Some "w1")
          (setWorkflows [workflow]
             (setChannelId "UC-default" (setApiKey key (state "")))))) =
    {[ "channelId" := "UC-default" ]}.
Proof.
  destruct (reload_state (state key) (state "") empty_storage eq_refl eq_refl eq_refl)
    as [Hload Hdraft].
  split; [exact Hload|]. exact (Hdraft eq_refl eq_refl).
Defined.

Lemma persist_idempotent_witness :
  exists first second,
    persist (state key) (Some empty_storage) = Some first /\
    persist (state key) (Some (later first (fun _ _ => true))) = Some second /\
    items second = items first.
Proof.
  apply (persist_idempotent (state key) empty_storage (fun _ _ => true)); reflexivity.
Defined.

Lemma runWorkflow_ignores_defaults_witness :
  alike (runWorkflow compact (served youtube) (Some workflow_ok) (world key)).2
        (runWorkflow compact (served youtube) (Some workflow_ok)
           (mkWorld (setChannelId "UC-other" (state key)) [])).2.
Proof.
  apply (runWorkflow_ignores_defaults compact (served youtube) workflow_ok (world key)
           (mkWorld (setChannelId "UC-other" (state key)) [])).
  - repeat constructor; eexists; (split; [vm_compute; reflexivity|discriminate]).
  - reflexivity.
  - split; reflexivity.
Defined.

End MoreInstances.
